(** * phoenix-queryserver/bin/daemon.py: the daemon context and its pid file

    A shallow embedding of [daemon.py] (python-daemon 2.0.5 with the
    [PidFile] class added by Apache Phoenix).  The program is a sequence of
    blocking library calls on the state of one POSIX process, so it is
    modelled in a state-and-exception monad over an explicit process state:
    every library call is logged in a trace, may fail because of the state
    (closing a descriptor that is not open) or because the operating system
    refuses it (an injected fault), and raises the Python exception the
    library raises.  The embedding follows Python 3, where [IOError] and
    [EnvironmentError] are aliases of [OSError]. *)

From Stdlib Require Import ZArith List Lia DecimalString DecimalZ DecimalPos.
From stdpp Require Import base gmap strings list.

Set Warnings "-register-all,-clear-no-such-hyp".

(** ** Python values the module manipulates *)

(** The exception classes the module names, with their method resolution
    order: [issubclass] is what an [except] clause tests. *)
Inductive PyClass :=
  | BaseException | Exception | SystemExit | OSError | ValueError
  | AttributeError | TypeError
  | DaemonError | DaemonOSEnvironmentError | DaemonProcessDetachError.

#[global] Instance PyClass_eq_dec : EqDecision PyClass.
Proof. solve_decision. Defined.

Definition IOError : PyClass := OSError.
Definition EnvironmentError : PyClass := OSError.

Definition mro (c : PyClass) : list PyClass :=
  match c with
  | BaseException => [BaseException]
  | Exception => [Exception; BaseException]
  | SystemExit => [SystemExit; BaseException]
  | OSError => [OSError; Exception; BaseException]
  | ValueError => [ValueError; Exception; BaseException]
  | AttributeError => [AttributeError; Exception; BaseException]
  | TypeError => [TypeError; Exception; BaseException]
  | DaemonError => [DaemonError; Exception; BaseException]
  | DaemonOSEnvironmentError =>
      [DaemonOSEnvironmentError; DaemonError; OSError; Exception; BaseException]
  | DaemonProcessDetachError =>
      [DaemonProcessDetachError; DaemonError; OSError; Exception; BaseException]
  end.

Definition issubclass (c d : PyClass) : bool := bool_decide (d ∈ mro c).

(** The arguments an exception was built with: none (or [None]), one
    message, or the [(errno, strerror)] pair of an operating system error. *)
Inductive ExcArgs :=
  | ArgsNone
  | ArgsMsg (msg : string)
  | ArgsOS (errno : Z) (strerror : string).

(** [exc_cause] and [exc_context] are the attributes [__cause__] and
    [__context__] as the module sets them (the chaining the interpreter
    does by itself on [raise] is not part of the model). *)
Inductive Exc := MkExc {
  exc_class : PyClass;
  exc_args : ExcArgs;
  exc_cause : option Exc;
  exc_context : option Exc
}.

Definition isinstance (e : Exc) (c : PyClass) : bool := issubclass (exc_class e) c.

(** [str(n)] and [int(s)] on decimal numerals. *)
Definition py_str_int (n : Z) : string := NilZero.string_of_int (Z.to_int n).
Definition py_int_str (s : string) : option Z := Z.of_int <$> NilZero.int_of_string s.

Definition exc_errno (e : Exc) : option Z :=
  match exc_args e with ArgsOS n _ => Some n | _ => None end.

Definition exc_strerror (e : Exc) : option string :=
  match exc_args e with ArgsOS _ m => Some m | _ => None end.

(** [str(exc)] *)
Definition exc_str (e : Exc) : string :=
  match exc_args e with
  | ArgsNone => "None"
  | ArgsMsg m => m
  | ArgsOS n m => "[Errno " +:+ py_str_int n +:+ "] " +:+ m
  end.

(** A file-like object handed to the context as a replacement stream or as
    an item to preserve.  [fl_fileno] says what [obj.fileno] does. *)
Inductive Fileno :=
  | NoFileno                    (* the object has no [fileno] attribute *)
  | FilenoIs (fd : Z)           (* [fileno()] returns [fd] *)
  | FilenoValueError.           (* [fileno()] raises [ValueError] *)

Record FileLike := { fl_id : nat; fl_fileno : Fileno }.

(** An item of [files_preserve]. *)
Inductive PItem :=
  | INone
  | IInt (fd : Z)
  | IObj (f : FileLike).

(** An element of the exclude set: a descriptor, or an object put in the
    set verbatim. *)
Inductive Elem :=
  | EInt (fd : Z)
  | EObj (id : nat).

#[global] Instance Elem_eq_dec : EqDecision Elem.
Proof. solve_decision. Defined.

#[global] Instance Elem_countable : Countable Elem.
Proof.
  refine (inj_countable'
    (fun e => match e with EInt z => inl z | EObj n => inr n end)
    (fun x => match x with inl z => EInt z | inr n => EObj n end) _).
  by intros [].
Defined.

(** What [signal.signal] is given as a handler. *)
Inductive Handler :=
  | SIG_IGN
  | SIG_DFL
  | BoundMethod (name : string)   (* a method of the context, bound to it *)
  | AttrValue (name : string)     (* the value of a data attribute *)
  | UserHandler (id : nat).       (* a callable of the caller's *)

(** The value of an entry of [signal_map]. *)
Inductive Target :=
  | TNone
  | TName (name : string)
  | TOther (h : Handler).

(** Insertion-ordered dictionaries, as association lists with unique keys. *)
Section dict.
Context {K V : Type} `{EqDecision K}.

Fixpoint dict_get (k : K) (d : list (K * V)) : option V :=
  match d with
  | [] => None
  | (k', v) :: d' => if decide (k = k') then Some v else dict_get k d'
  end.

Fixpoint dict_set (k : K) (v : V) (d : list (K * V)) : list (K * V) :=
  match d with
  | [] => [(k, v)]
  | (k', v') :: d' =>
      if decide (k = k') then (k, v) :: d' else (k', v') :: dict_set k v d'
  end.

(** [dict(pairs)]: a later pair overrides the value of an equal key. *)
Definition dict_of_pairs (l : list (K * V)) : list (K * V) :=
  fold_left (fun d kv => dict_set kv.1 kv.2 d) l [].
End dict.

(** The Python file object [open(path, 'a+')] returns. *)
Record PyFile := {
  pf_fd : Z;
  pf_pos : nat;
  pf_buf : string;              (* written, not yet flushed *)
  pf_closed : bool
}.

(** A [PidFile] instance. *)
Record PidFileObj := {
  path : string;
  enter_err_msg : option string;
  pidfile_handle : PyFile       (* the attribute [self.pidfile] *)
}.

(** A reference to the one [PidFile] object of the process. *)
Inductive PidFileRef := ThePidFile.

(** A [DaemonContext] instance. *)
Record DaemonContextObj := {
  chroot_directory : option string;
  working_directory : string;
  umask : Z;
  uid : Z;
  gid : Z;
  prevent_core : bool;
  detach_process : bool;
  files_preserve : option (list PItem);
  pidfile : option PidFileRef;
  stdin : option FileLike;
  stdout : option FileLike;
  stderr : option FileLike;
  signal_map : list (Z * Target);
  _is_open : bool
}.

(** ** The state of the process *)

(** The library calls the module makes; the trace records each one when it
    is made, whether it succeeds or not. *)
Inductive FlockOp := LOCK_EX_NB | LOCK_UN.

Inductive Call :=
  | CChdir (d : string)
  | CChroot (d : string)
  | CUmask (mask : Z)
  | CSetgid (g : Z)
  | CSetuid (u : Z)
  | CGetrlimitCore
  | CSetrlimitCore (soft hard : Z)
  | CGetrlimitNofile
  | CFork
  | CSetsid
  | CPathExists (p : string)
  | CSleep (milliseconds : nat)
  | CExit (code : Z)
  | CSignal (signum : Z) (h : Handler)
  | CClose (fd : Z)
  | COpenDevnull
  | CDup2 (src dst : Z)
  | COpen (p : string)
  | CFlock (fd : Z) (op : FlockOp)
  | CFileSeek (fd : Z) (pos : nat)
  | CFileTruncate (fd : Z)
  | CFileWrite (fd : Z) (data : string)
  | CFileFlush (fd : Z)
  | CFileClose (fd : Z)
  | CRemove (p : string)
  | CGetpid
  | CAtexitRegister.

(** An operating system error: [errno] and its message. *)
Record Fault := { f_errno : Z; f_strerror : string }.

Definition EBADF : Z := 9.
Definition ENOENT : Z := 2.
Definition EAGAIN : Z := 11.

Definition fault_EBADF : Fault := {| f_errno := EBADF; f_strerror := "Bad file descriptor" |}.
Definition fault_ENOENT : Fault := {| f_errno := ENOENT; f_strerror := "No such file or directory" |}.
Definition fault_EAGAIN : Fault := {| f_errno := EAGAIN; f_strerror := "Resource temporarily unavailable" |}.

(** Who holds the exclusive advisory lock on the file at a path. *)
Inductive LockHolder := Foreign | Own (fd : Z).

(** What the coming calls of [os.fork] return: a failure, the child's pid
    (we go on as the parent), or 0 (we go on as the child, whose pid is
    [new_pid]). *)
Inductive ForkResult :=
  | ForkFails (f : Fault)
  | ForkParent (child : positive)
  | ForkChild (new_pid : Z).

(** What the other processes do to the file system while this one sleeps. *)
Inductive EnvStep :=
  | EnvIdle
  | EnvCreate (p : string) (content : string)
  | EnvRemove (p : string).

(** What [atexit] has registered: the context's bound [close] method. *)
Inductive Callback := CbClose.

(** What the platform fixes and the program cannot change. *)
Record Platform := {
  fault : nat -> option Fault;      (* the system refuses the n-th call *)
  nofile_limit : Z * Z;             (* [getrlimit(RLIMIT_NOFILE)] *)
  RLIM_INFINITY : Z;                (* [resource.RLIM_INFINITY] *)
  signal_module : string -> option Z  (* the attributes of [signal] *)
}.

Record State := {
  s_trace : list Call;
  s_plat : Platform;
  s_pid : Z;
  s_files : gmap string string;     (* path to contents *)
  s_fds : gmap Z string;            (* open descriptor to the path it is on *)
  s_locks : gmap string LockHolder;
  s_handlers : gmap Z Handler;
  s_atexit : list Callback;
  s_core_limit : Z * Z;
  s_forks : list ForkResult;
  s_env : list EnvStep;
  s_exc_info : option Exc;          (* [sys.exc_info()[1]] *)
  s_the_pidfile : PidFileObj;
  s_self : DaemonContextObj
}.

Definition set_trace (x : list Call) (s : State) : State :=
  {| s_trace := x; s_plat := s_plat s; s_pid := s_pid s;
     s_files := s_files s; s_fds := s_fds s; s_locks := s_locks s;
     s_handlers := s_handlers s; s_atexit := s_atexit s;
     s_core_limit := s_core_limit s; s_forks := s_forks s; s_env := s_env s;
     s_exc_info := s_exc_info s; s_the_pidfile := s_the_pidfile s;
     s_self := s_self s |}.

Definition set_pid (x : Z) (s : State) : State :=
  {| s_trace := s_trace s; s_plat := s_plat s; s_pid := x;
     s_files := s_files s; s_fds := s_fds s; s_locks := s_locks s;
     s_handlers := s_handlers s; s_atexit := s_atexit s;
     s_core_limit := s_core_limit s; s_forks := s_forks s; s_env := s_env s;
     s_exc_info := s_exc_info s; s_the_pidfile := s_the_pidfile s;
     s_self := s_self s |}.

Definition set_files (x : gmap string string) (s : State) : State :=
  {| s_trace := s_trace s; s_plat := s_plat s; s_pid := s_pid s;
     s_files := x; s_fds := s_fds s; s_locks := s_locks s;
     s_handlers := s_handlers s; s_atexit := s_atexit s;
     s_core_limit := s_core_limit s; s_forks := s_forks s; s_env := s_env s;
     s_exc_info := s_exc_info s; s_the_pidfile := s_the_pidfile s;
     s_self := s_self s |}.

Definition set_fds (x : gmap Z string) (s : State) : State :=
  {| s_trace := s_trace s; s_plat := s_plat s; s_pid := s_pid s;
     s_files := s_files s; s_fds := x; s_locks := s_locks s;
     s_handlers := s_handlers s; s_atexit := s_atexit s;
     s_core_limit := s_core_limit s; s_forks := s_forks s; s_env := s_env s;
     s_exc_info := s_exc_info s; s_the_pidfile := s_the_pidfile s;
     s_self := s_self s |}.

Definition set_locks (x : gmap string LockHolder) (s : State) : State :=
  {| s_trace := s_trace s; s_plat := s_plat s; s_pid := s_pid s;
     s_files := s_files s; s_fds := s_fds s; s_locks := x;
     s_handlers := s_handlers s; s_atexit := s_atexit s;
     s_core_limit := s_core_limit s; s_forks := s_forks s; s_env := s_env s;
     s_exc_info := s_exc_info s; s_the_pidfile := s_the_pidfile s;
     s_self := s_self s |}.

Definition set_handlers (x : gmap Z Handler) (s : State) : State :=
  {| s_trace := s_trace s; s_plat := s_plat s; s_pid := s_pid s;
     s_files := s_files s; s_fds := s_fds s; s_locks := s_locks s;
     s_handlers := x; s_atexit := s_atexit s; s_core_limit := s_core_limit s;
     s_forks := s_forks s; s_env := s_env s; s_exc_info := s_exc_info s;
     s_the_pidfile := s_the_pidfile s; s_self := s_self s |}.

Definition set_atexit (x : list Callback) (s : State) : State :=
  {| s_trace := s_trace s; s_plat := s_plat s; s_pid := s_pid s;
     s_files := s_files s; s_fds := s_fds s; s_locks := s_locks s;
     s_handlers := s_handlers s; s_atexit := x;
     s_core_limit := s_core_limit s; s_forks := s_forks s; s_env := s_env s;
     s_exc_info := s_exc_info s; s_the_pidfile := s_the_pidfile s;
     s_self := s_self s |}.

Definition set_core_limit (x : Z * Z) (s : State) : State :=
  {| s_trace := s_trace s; s_plat := s_plat s; s_pid := s_pid s;
     s_files := s_files s; s_fds := s_fds s; s_locks := s_locks s;
     s_handlers := s_handlers s; s_atexit := s_atexit s; s_core_limit := x;
     s_forks := s_forks s; s_env := s_env s; s_exc_info := s_exc_info s;
     s_the_pidfile := s_the_pidfile s; s_self := s_self s |}.

Definition set_forks (x : list ForkResult) (s : State) : State :=
  {| s_trace := s_trace s; s_plat := s_plat s; s_pid := s_pid s;
     s_files := s_files s; s_fds := s_fds s; s_locks := s_locks s;
     s_handlers := s_handlers s; s_atexit := s_atexit s;
     s_core_limit := s_core_limit s; s_forks := x; s_env := s_env s;
     s_exc_info := s_exc_info s; s_the_pidfile := s_the_pidfile s;
     s_self := s_self s |}.

Definition set_env (x : list EnvStep) (s : State) : State :=
  {| s_trace := s_trace s; s_plat := s_plat s; s_pid := s_pid s;
     s_files := s_files s; s_fds := s_fds s; s_locks := s_locks s;
     s_handlers := s_handlers s; s_atexit := s_atexit s;
     s_core_limit := s_core_limit s; s_forks := s_forks s; s_env := x;
     s_exc_info := s_exc_info s; s_the_pidfile := s_the_pidfile s;
     s_self := s_self s |}.

Definition set_exc_info (x : option Exc) (s : State) : State :=
  {| s_trace := s_trace s; s_plat := s_plat s; s_pid := s_pid s;
     s_files := s_files s; s_fds := s_fds s; s_locks := s_locks s;
     s_handlers := s_handlers s; s_atexit := s_atexit s;
     s_core_limit := s_core_limit s; s_forks := s_forks s; s_env := s_env s;
     s_exc_info := x; s_the_pidfile := s_the_pidfile s;
     s_self := s_self s |}.

Definition set_the_pidfile (x : PidFileObj) (s : State) : State :=
  {| s_trace := s_trace s; s_plat := s_plat s; s_pid := s_pid s;
     s_files := s_files s; s_fds := s_fds s; s_locks := s_locks s;
     s_handlers := s_handlers s; s_atexit := s_atexit s;
     s_core_limit := s_core_limit s; s_forks := s_forks s; s_env := s_env s;
     s_exc_info := s_exc_info s; s_the_pidfile := x; s_self := s_self s |}.

Definition set_self (x : DaemonContextObj) (s : State) : State :=
  {| s_trace := s_trace s; s_plat := s_plat s; s_pid := s_pid s;
     s_files := s_files s; s_fds := s_fds s; s_locks := s_locks s;
     s_handlers := s_handlers s; s_atexit := s_atexit s;
     s_core_limit := s_core_limit s; s_forks := s_forks s; s_env := s_env s;
     s_exc_info := s_exc_info s; s_the_pidfile := s_the_pidfile s;
     s_self := x |}.

(** ** The monad: state, exceptions, exit and waiting for ever *)

Inductive Outcome (A : Type) :=
  | Normal (a : A) (s : State)
  | Raised (e : Exc) (s : State)    (* an exception propagates *)
  | Exited (code : Z) (s : State)   (* [os._exit]: the process is gone *)
  | Hangs (s : State).              (* the process waits for ever *)
Arguments Normal {A} a s.
Arguments Raised {A} e s.
Arguments Exited {A} code s.
Arguments Hangs {A} s.

Definition M (A : Type) : Type := State -> Outcome A.

Definition ret {A} (a : A) : M A := fun s => Normal a s.

Definition bind {A B} (m : M A) (k : A -> M B) : M B :=
  fun s =>
    match m s with
    | Normal a s' => k a s'
    | Raised e s' => Raised e s'
    | Exited c s' => Exited c s'
    | Hangs s' => Hangs s'
    end.

Declare Scope py_scope.
Delimit Scope py_scope with py.
Notation "'let*' x := m 'in' k" := (bind m (fun x => k))
  (at level 10, x name, m at level 100, k at level 200) : py_scope.
Notation "m ;; k" := (bind m (fun _ => k))
  (at level 100, k at level 200, right associativity) : py_scope.
Local Open Scope py_scope.

Definition raise {A} (e : Exc) : M A := fun s => Raised e s.
Definition get : M State := fun s => Normal s s.
Definition modify (f : State -> State) : M unit := fun s => Normal tt (f s).
Definition when (b : bool) (m : M unit) : M unit := if b then m else ret tt.

(** [try: body except cls as exc: handler].  While the handler runs, the
    exception being handled is what [sys.exc_info()] returns. *)
Definition try_except {A} (body : M A) (cls : PyClass) (handler : Exc -> M A) : M A :=
  fun s =>
    match body s with
    | Raised e s' =>
        if isinstance e cls then
          let saved := s_exc_info s' in
          match handler e (set_exc_info (Some e) s') with
          | Normal a s'' => Normal a (set_exc_info saved s'')
          | o => o
          end
        else Raised e s'
    | o => o
    end.

Definition final_state {A} (o : Outcome A) : State :=
  match o with
  | Normal _ s | Raised _ s | Exited _ s | Hangs s => s
  end.

Definition is_normal {A} (o : Outcome A) : bool :=
  match o with Normal _ _ => true | _ => false end.

(** ** Library calls *)

Definition log (c : Call) (s : State) : State := set_trace (s_trace s ++ [c]) s.

(** The fault, if any, that the system has in store for the next call. *)
Definition fault_now (s : State) : option Fault := fault (s_plat s) (length (s_trace s)).

Definition os_error (cls : PyClass) (f : Fault) : Exc :=
  MkExc cls (ArgsOS (f_errno f) (f_strerror f)) None None.

(** A call that can fail: it is logged, then fails with the injected fault
    if there is one (the state is left as it is), and otherwise does what
    [sem] says, which may still fail because of the state. *)
Definition call {A} (c : Call) (cls : PyClass) (sem : State -> (Fault + A) * State) : M A :=
  fun s =>
    let s1 := log c s in
    match fault_now s with
    | Some f => Raised (os_error cls f) s1
    | None =>
        match sem s1 with
        | (inl f, s2) => Raised (os_error cls f) s2
        | (inr a, s2) => Normal a s2
        end
    end.

(** A call that cannot fail. *)
Definition call_total {A} (c : Call) (sem : State -> A * State) : M A :=
  fun s => let (a, s') := sem (log c s) in Normal a s'.

Definition os_chdir (d : string) : M unit := call (CChdir d) OSError (fun s => (inr tt, s)).
Definition os_chroot (d : string) : M unit := call (CChroot d) OSError (fun s => (inr tt, s)).
Definition os_umask (mask : Z) : M unit := call (CUmask mask) OSError (fun s => (inr tt, s)).
Definition os_setgid (g : Z) : M unit := call (CSetgid g) OSError (fun s => (inr tt, s)).
Definition os_setuid (u : Z) : M unit := call (CSetuid u) OSError (fun s => (inr tt, s)).
Definition os_setsid : M unit := call CSetsid OSError (fun s => (inr tt, s)).

(** [resource.getrlimit] raises [ValueError] for a resource the platform
    does not have. *)
Definition resource_getrlimit_core : M (Z * Z) :=
  call CGetrlimitCore ValueError (fun s => (inr (s_core_limit s), s)).

Definition resource_setrlimit_core (limit : Z * Z) : M unit :=
  call (CSetrlimitCore limit.1 limit.2) ValueError
       (fun s => (inr tt, set_core_limit limit s)).

Definition resource_getrlimit_nofile : M (Z * Z) :=
  call CGetrlimitNofile OSError (fun s => (inr (nofile_limit (s_plat s)), s)).

Definition os_fork : M Z :=
  call CFork OSError (fun s =>
    match s_forks s with
    | [] => (inl fault_EAGAIN, s)
    | ForkFails f :: rest => (inl f, set_forks rest s)
    | ForkParent child :: rest => (inr (Z.pos child), set_forks rest s)
    | ForkChild new_pid :: rest => (inr 0%Z, set_pid new_pid (set_forks rest s))
    end).

Definition env_apply (e : EnvStep) (files : gmap string string) : gmap string string :=
  match e with
  | EnvIdle => files
  | EnvCreate p content => <[p := content]> files
  | EnvRemove p => delete p files
  end.

(** [time.sleep(seconds)]: the other processes take one step. *)
Definition time_sleep (milliseconds : nat) : M unit :=
  call_total (CSleep milliseconds) (fun s =>
    match s_env s with
    | [] => (tt, s)
    | e :: rest => (tt, set_env rest (set_files (env_apply e (s_files s)) s))
    end).

Definition os_path_exists (p : string) : M bool :=
  call_total (CPathExists p) (fun s => (bool_decide (is_Some (s_files s !! p)), s)).

Definition os__exit {A} (code : Z) : M A := fun s => Exited code (log (CExit code) s).

(** [sys.exit(arg)] raises [SystemExit(arg)]. *)
Definition SystemExit_of (arg : option string) : Exc :=
  MkExc SystemExit (match arg with Some m => ArgsMsg m | None => ArgsNone end) None None.

Definition sys_exit {A} (arg : option string) : M A := raise (SystemExit_of arg).

Definition os_getpid : M Z := call_total CGetpid (fun s => (s_pid s, s)).

Definition atexit_register (cb : Callback) : M unit :=
  call_total CAtexitRegister (fun s => (tt, set_atexit (s_atexit s ++ [cb]) s)).

Definition signal_signal (signum : Z) (h : Handler) : M unit :=
  match h with
  | AttrValue _ =>
      raise (MkExc TypeError (ArgsMsg "signal handler must be signal.SIG_IGN, signal.SIG_DFL, or a callable object") None None)
  | _ => call (CSignal signum h) OSError
           (fun s => (inr tt, set_handlers (<[signum := h]> (s_handlers s)) s))
  end.

#[global] Instance LockHolder_eq_dec : EqDecision LockHolder.
Proof. solve_decision. Defined.

(** The locks that go away when descriptor [fd] is closed. *)
Definition release (fd : Z) (locks : gmap string LockHolder) : gmap string LockHolder :=
  filter (fun kv => kv.2 ≠ Own fd) locks.

Definition os_close (fd : Z) : M unit :=
  call (CClose fd) OSError (fun s =>
    if bool_decide (is_Some (s_fds s !! fd))
    then (inr tt, set_locks (release fd (s_locks s)) (set_fds (delete fd (s_fds s)) s))
    else (inl fault_EBADF, s)).

(** The lowest descriptor that is not open. *)
Definition lowest_free (fds : gmap Z string) : Z :=
  Z.of_nat (default (size fds)
    (List.find (fun n => bool_decide (fds !! Z.of_nat n = None)) (seq 0 (size fds)))).

Definition devnull : string := "/dev/null".

(** [os.open(os.devnull, os.O_RDWR)] *)
Definition os_open_devnull : M Z :=
  call COpenDevnull OSError (fun s =>
    let fd := lowest_free (s_fds s) in
    (inr fd, set_fds (<[fd := devnull]> (s_fds s)) s)).

Definition os_dup2 (src dst : Z) : M unit :=
  call (CDup2 src dst) OSError (fun s =>
    match s_fds s !! src with
    | Some p => (inr tt, set_fds (<[dst := p]> (s_fds s)) s)
    | None => (inl fault_EBADF, s)
    end).

(** [os.remove(p)]: a lock on the file that was at [p] no longer concerns
    the path. *)
Definition os_remove (p : string) : M unit :=
  call (CRemove p) OSError (fun s =>
    if bool_decide (is_Some (s_files s !! p))
    then (inr tt, set_locks (delete p (s_locks s)) (set_files (delete p (s_files s)) s))
    else (inl fault_ENOENT, s)).

(** [open(p, 'a+')]: the file is created when it is missing, and the
    position starts at its end. *)
Definition builtin_open (p : string) : M PyFile :=
  call (COpen p) OSError (fun s =>
    let fd := lowest_free (s_fds s) in
    let content := default "" (s_files s !! p) in
    (inr {| pf_fd := fd; pf_pos := String.length content; pf_buf := ""; pf_closed := false |},
     set_fds (<[fd := p]> (s_fds s)) (set_files (<[p := content]> (s_files s)) s))).

Definition fcntl_flock (fd : Z) (op : FlockOp) : M unit :=
  call (CFlock fd op) OSError (fun s =>
    match s_fds s !! fd with
    | None => (inl fault_EBADF, s)
    | Some p =>
        match op with
        | LOCK_EX_NB =>
            match s_locks s !! p with
            | None => (inr tt, set_locks (<[p := Own fd]> (s_locks s)) s)
            | Some h =>
                if decide (h = Own fd) then (inr tt, s) else (inl fault_EAGAIN, s)
            end
        | LOCK_UN =>
            (inr tt,
             if decide (s_locks s !! p = Some (Own fd))
             then set_locks (delete p (s_locks s)) s else s)
        end
    end).

(** *** The file object [self.pidfile] of the [PidFile] *)

Definition the_handle (s : State) : PyFile := pidfile_handle (s_the_pidfile s).

Definition set_handle (f : PyFile) (s : State) : State :=
  set_the_pidfile {| path := path (s_the_pidfile s);
                     enter_err_msg := enter_err_msg (s_the_pidfile s);
                     pidfile_handle := f |} s.

Definition with_pos (pos : nat) (f : PyFile) : PyFile :=
  {| pf_fd := pf_fd f; pf_pos := pos; pf_buf := pf_buf f; pf_closed := pf_closed f |}.
Definition with_buf (buf : string) (f : PyFile) : PyFile :=
  {| pf_fd := pf_fd f; pf_pos := pf_pos f; pf_buf := buf; pf_closed := pf_closed f |}.
Definition with_closed (f : PyFile) : PyFile :=
  {| pf_fd := pf_fd f; pf_pos := pf_pos f; pf_buf := pf_buf f; pf_closed := true |}.

Definition closed_file_error : Exc :=
  MkExc ValueError (ArgsMsg "I/O operation on closed file") None None.

(** Writing the buffer out.  The file is in append mode: what is written
    goes to its end.  An empty buffer needs no system call. *)
Definition write_out (s : State) : (Fault + unit) * State :=
  let f := the_handle s in
  if decide (pf_buf f = "") then (inr tt, s)
  else match s_fds s !! pf_fd f with
       | None => (inl fault_EBADF, s)
       | Some p =>
           (inr tt, set_handle (with_buf "" f)
                      (set_files (alter (fun c => c +:+ pf_buf f) p (s_files s)) s))
       end.

Definition if_open {A} (m : PyFile -> M A) : M A :=
  fun s => if pf_closed (the_handle s) then Raised closed_file_error s else m (the_handle s) s.

Definition file_fileno : M Z := if_open (fun f => ret (pf_fd f)).

Definition file_seek (pos : nat) : M unit :=
  if_open (fun f => call (CFileSeek (pf_fd f) pos) OSError (fun s =>
    match write_out s with
    | (inl e, s') => (inl e, s')
    | (inr _, s') =>
        if bool_decide (is_Some (s_fds s' !! pf_fd f))
        then (inr tt, set_handle (with_pos pos (the_handle s')) s')
        else (inl fault_EBADF, s')
    end)).

(** [truncate()] cuts the file at the current position. *)
Definition file_truncate : M unit :=
  if_open (fun f => call (CFileTruncate (pf_fd f)) OSError (fun s =>
    match write_out s with
    | (inl e, s') => (inl e, s')
    | (inr _, s') =>
        match s_fds s' !! pf_fd f with
        | Some p =>
            (inr tt, set_files (alter (fun c => String.substring 0 (pf_pos f) c) p (s_files s')) s')
        | None => (inl fault_EBADF, s')
        end
    end)).

Definition file_write (data : string) : M unit :=
  if_open (fun f => call (CFileWrite (pf_fd f) data) OSError (fun s =>
    (inr tt, set_handle (with_buf (pf_buf (the_handle s) +:+ data) (the_handle s)) s))).

Definition file_flush : M unit :=
  if_open (fun f => call (CFileFlush (pf_fd f)) OSError write_out).

(** [close()] on a closed file object does nothing; otherwise the object is
    closed whatever becomes of the buffer and whatever [os.close] answers. *)
Definition file_close : M unit :=
  fun s =>
    let f := the_handle s in
    if pf_closed f then Normal tt s
    else
      let s1 := log (CFileClose (pf_fd f)) s in
      match fault_now s with
      | Some e => Raised (os_error OSError e) (set_handle (with_closed (the_handle s1)) s1)
      | None =>
          match write_out s1 with
          | (inl e, s2) =>
              Raised (os_error OSError e) (set_handle (with_closed (the_handle s2)) s2)
          | (inr _, s2) =>
              let s3 := set_handle (with_closed (the_handle s2)) s2 in
              if bool_decide (is_Some (s_fds s3 !! pf_fd f))
              then Normal tt (set_locks (release (pf_fd f) (s_locks s3))
                                (set_fds (delete (pf_fd f) (s_fds s3)) s3))
              else Raised (os_error OSError fault_EBADF) s3
          end
      end.

(** ** The module *)

(** [_chain_exception_from_existing_exception_context] *)
Definition _chain_exception_from_existing_exception_context
    (exc : Exc) (as_cause : bool) : M Exc :=
  let* s := get in
  let existing_exc := s_exc_info s in
  ret (if as_cause
       then MkExc (exc_class exc) (exc_args exc) existing_exc (exc_context exc)
       else MkExc (exc_class exc) (exc_args exc) (exc_cause exc) existing_exc).

(** [DaemonError.__init__], for the class itself and its two subclasses:
    [cls(message)] builds the instance and chains it. *)
Definition DaemonError__init__ (cls : PyClass) (message : string) : M Exc :=
  _chain_exception_from_existing_exception_context
    (MkExc cls (ArgsMsg message) None None) true.

Definition change_working_directory (directory : string) : M unit :=
  try_except (os_chdir directory) Exception (fun exc =>
    let* error := DaemonError__init__ DaemonOSEnvironmentError
      ("Unable to change working directory (" +:+ exc_str exc +:+ ")") in
    raise error).

Definition change_root_directory (directory : string) : M unit :=
  try_except (os_chdir directory ;; os_chroot directory) Exception (fun exc =>
    let* error := DaemonError__init__ DaemonOSEnvironmentError
      ("Unable to change root directory (" +:+ exc_str exc +:+ ")") in
    raise error).

Definition change_file_creation_mask (mask : Z) : M unit :=
  try_except (os_umask mask) Exception (fun exc =>
    let* error := DaemonError__init__ DaemonOSEnvironmentError
      ("Unable to change file creation mask (" +:+ exc_str exc +:+ ")") in
    raise error).

Definition change_process_owner (uid gid : Z) : M unit :=
  try_except (os_setgid gid ;; os_setuid uid) Exception (fun exc =>
    let* error := DaemonError__init__ DaemonOSEnvironmentError
      ("Unable to change process owner (" +:+ exc_str exc +:+ ")") in
    raise error).

Definition prevent_core_dump : M unit :=
  let* core_limit_prev :=
    try_except resource_getrlimit_core ValueError (fun exc =>
      let* error := DaemonError__init__ DaemonOSEnvironmentError
        ("System does not support RLIMIT_CORE resource limit (" +:+ exc_str exc +:+ ")") in
      raise error) in
  let core_limit := (0%Z, 0%Z) in
  resource_setrlimit_core core_limit.

(** [pidfile.path], where [pidfile] may be [None]. *)
Definition pidfile_path (pidfile : option PidFileRef) : M string :=
  match pidfile with
  | None =>
      raise (MkExc AttributeError (ArgsMsg "'NoneType' object has no attribute 'path'") None None)
  | Some ThePidFile => let* s := get in ret (path (s_the_pidfile s))
  end.

Definition hang {A} : M A := fun s => Hangs s.

(** [while not os.path.exists(pidfile.path): time.sleep(0.1)].  The loop
    runs as long as the other processes have steps to take; once they have
    none left and the path is still missing, nothing can make it appear and
    the loop never ends. *)
Fixpoint poll_pidfile (pidfile : option PidFileRef) (steps : nat) : M unit :=
  let* p := pidfile_path pidfile in
  let* found := os_path_exists p in
  if found then ret tt
  else match steps with
       | O => hang
       | S n => time_sleep 100 ;; poll_pidfile pidfile n
       end.

Definition wait_for_pidfile (pidfile : option PidFileRef) : M unit :=
  fun s => poll_pidfile pidfile (length (s_env s)) s.

(** ["{message}: [{exc.errno:d}] {exc.strerror}".format(...)] *)
Definition format_detach_error (message : string) (exc : Exc) : M string :=
  match exc_errno exc with
  | None =>
      raise (MkExc TypeError (ArgsMsg "unsupported format string passed to NoneType.__format__") None None)
  | Some n =>
      ret (message +:+ ": [" +:+ py_str_int n +:+ "] " +:+ default "None" (exc_strerror exc))
  end.

Definition fork_then_exit_parent (pidfile : option PidFileRef) (error_message : string) : M unit :=
  try_except
    (let* pid := os_fork in
     if (pid >? 0)%Z
     then (wait_for_pidfile pidfile ;; os__exit 0)
     else ret tt)
    OSError (fun exc =>
      let* msg := format_detach_error error_message exc in
      let* error := DaemonError__init__ DaemonProcessDetachError msg in
      raise error).

Definition detach_process_context (pidfile : option PidFileRef) : M unit :=
  fork_then_exit_parent pidfile "Failed first fork" ;;
  os_setsid ;;
  fork_then_exit_parent pidfile "Failed second fork".

Definition close_file_descriptor_if_open (fd : Z) : M unit :=
  try_except (os_close fd) EnvironmentError (fun exc =>
    if decide (exc_errno exc = Some EBADF) then ret tt
    else
      let* error := DaemonError__init__ DaemonOSEnvironmentError
        ("Failed to close file descriptor " +:+ py_str_int fd +:+ " (" +:+ exc_str exc +:+ ")") in
      raise error).

Definition MAXFD : Z := 2048.

Definition get_maximum_file_descriptors : M Z :=
  let* limits := resource_getrlimit_nofile in
  let* s := get in
  let result := limits.2 in
  ret (if decide (result = RLIM_INFINITY (s_plat s)) then MAXFD else result).

(** [for x in l: body(x)] *)
Fixpoint for_each {A} (l : list A) (body : A -> M unit) : M unit :=
  match l with
  | [] => ret tt
  | x :: l' => body x ;; for_each l' body
  end.

Definition close_all_open_files (exclude : gset Elem) : M unit :=
  let* maxfd := get_maximum_file_descriptors in
  for_each (reverse (seqZ 0 maxfd)) (fun fd =>
    if bool_decide (EInt fd ∉ exclude) then close_file_descriptor_if_open fd
    else ret tt).

(** [stream.fileno()] for a file-like object of the caller's. *)
Definition stream_fileno (f : FileLike) : M Z :=
  match fl_fileno f with
  | NoFileno =>
      raise (MkExc AttributeError (ArgsMsg "object has no attribute 'fileno'") None None)
  | FilenoIs fd => ret fd
  | FilenoValueError =>
      raise (MkExc ValueError (ArgsMsg "no file descriptor") None None)
  end.

Definition hasattr_fileno (f : FileLike) : bool :=
  match fl_fileno f with NoFileno => false | _ => true end.

(** The system streams [sys.stdin], [sys.stdout], [sys.stderr] and their
    descriptors. *)
Inductive SysStream := sys_stdin | sys_stdout | sys_stderr.

Definition sys_fileno (st : SysStream) : Z :=
  match st with sys_stdin => 0 | sys_stdout => 1 | sys_stderr => 2 end%Z.

Definition redirect_stream (system_stream : SysStream) (target_stream : option FileLike) : M unit :=
  let* target_fd :=
    match target_stream with
    | None => os_open_devnull
    | Some f => stream_fileno f
    end in
  os_dup2 target_fd (sys_fileno system_stream).

Definition name_map : list (string * Target) :=
  [("SIGTSTP", TNone); ("SIGTTIN", TNone); ("SIGTTOU", TNone);
   ("SIGTERM", TName "terminate")].

(** [make_default_signal_map], with the attributes of the [signal] module
    as an argument. *)
Definition make_default_signal_map (signal : string -> option Z) : list (Z * Target) :=
  dict_of_pairs
    (omap (fun nt => match signal nt.1 with
                     | Some signum => Some (signum, nt.2)
                     | None => None
                     end) name_map).

Definition set_signal_handlers (signal_handler_map : list (Z * Handler)) : M unit :=
  for_each signal_handler_map (fun sh => signal_signal sh.1 sh.2).

Definition register_atexit_function (func : Callback) : M unit := atexit_register func.

(** ** [PidFile] *)

Module PidFile.

Definition fresh_handle : PyFile :=
  {| pf_fd := (-1)%Z; pf_pos := 0; pf_buf := ""; pf_closed := true |}.

Definition __init__ (path_ : string) (enter_err_msg_ : option string) : M unit :=
  modify (set_the_pidfile {| path := path_; enter_err_msg := enter_err_msg_;
                             pidfile_handle := fresh_handle |}) ;;
  let* f := builtin_open path_ in
  modify (set_handle f) ;;
  try_except
    (let* fd := file_fileno in
     fcntl_flock fd LOCK_EX_NB ;;
     let* fd := file_fileno in
     fcntl_flock fd LOCK_UN ;;
     file_close ;;
     os_remove path_)
    IOError (fun _ => sys_exit enter_err_msg_).

Definition __enter__ : M unit :=
  let* s := get in
  let self := s_the_pidfile s in
  let* f := builtin_open (path self) in
  modify (set_handle f) ;;
  try_except
    (let* fd := file_fileno in fcntl_flock fd LOCK_EX_NB)
    IOError (fun _ => sys_exit (enter_err_msg self)) ;;
  file_seek 0 ;;
  file_truncate ;;
  let* pid := os_getpid in
  file_write (py_str_int pid) ;;
  file_flush ;;
  file_seek 0.

Definition __exit__ : M unit :=
  try_except file_close IOError (fun err =>
    if decide (exc_errno err ≠ Some 9%Z) then raise err else ret tt) ;;
  let* s := get in
  os_remove (path (s_the_pidfile s)).

End PidFile.

(** ** [DaemonContext] *)

Module DaemonContext.

Definition self : M DaemonContextObj := fun s => Normal (s_self s) s.

Definition set_files_preserve (x : option (list PItem)) (c : DaemonContextObj) : DaemonContextObj :=
  {| chroot_directory := chroot_directory c; working_directory := working_directory c;
     umask := umask c; uid := uid c; gid := gid c; prevent_core := prevent_core c;
     detach_process := detach_process c; files_preserve := x; pidfile := pidfile c;
     stdin := stdin c; stdout := stdout c; stderr := stderr c;
     signal_map := signal_map c; _is_open := _is_open c |}.

Definition set__is_open (x : bool) (c : DaemonContextObj) : DaemonContextObj :=
  {| chroot_directory := chroot_directory c; working_directory := working_directory c;
     umask := umask c; uid := uid c; gid := gid c; prevent_core := prevent_core c;
     detach_process := detach_process c; files_preserve := files_preserve c;
     pidfile := pidfile c; stdin := stdin c; stdout := stdout c; stderr := stderr c;
     signal_map := signal_map c; _is_open := x |}.

Definition is_open : M bool := let* c := self in ret (_is_open c).

(** [_get_file_descriptor] *)
Definition _get_file_descriptor (obj : PItem) : M (option Z) :=
  match obj with
  | IObj f =>
      if hasattr_fileno f
      then try_except (let* fd := stream_fileno f in ret (Some fd))
                      ValueError (fun _ => ret None)
      else ret None
  | _ => ret None
  end.

Definition elem_of_item (item : PItem) : option Elem :=
  match item with
  | INone => None
  | IInt fd => Some (EInt fd)
  | IObj f => Some (EObj (fl_id f))
  end.

(** The loop of [_get_exclude_file_descriptors]. *)
Fixpoint exclude_loop (items : list PItem) (exclude_descriptors : gset Elem) : M (gset Elem) :=
  match items with
  | [] => ret exclude_descriptors
  | item :: rest =>
      match elem_of_item item with
      | None => exclude_loop rest exclude_descriptors
      | Some verbatim =>
          let* file_descriptor := _get_file_descriptor item in
          match file_descriptor with
          | Some fd => exclude_loop rest ({[ EInt fd ]} ∪ exclude_descriptors)
          | None => exclude_loop rest ({[ verbatim ]} ∪ exclude_descriptors)
          end
      end
  end.

(** The replacement streams that have a [fileno] attribute. *)
Definition streams_with_fileno (c : DaemonContextObj) : list PItem :=
  omap (fun item => match item with
                    | Some f => if hasattr_fileno f then Some (IObj f) else None
                    | None => None
                    end) [stdin c; stdout c; stderr c].

(** [_get_exclude_file_descriptors]: a list in [files_preserve] is
    extended in place. *)
Definition _get_exclude_file_descriptors : M (gset Elem) :=
  let* c := self in
  let* files_preserve_ :=
    match files_preserve c with
    | None => ret ([] ++ streams_with_fileno c)
    | Some l =>
        let l' := l ++ streams_with_fileno c in
        modify (fun s => set_self (set_files_preserve (Some l') (s_self s)) s) ;;
        ret l'
    end in
  exclude_loop files_preserve_ ∅.

Definition method_names : list string :=
  ["__init__"; "open"; "__enter__"; "close"; "__exit__"; "terminate";
   "_get_exclude_file_descriptors"; "_make_signal_handler";
   "_make_signal_handler_map"].

Definition data_names : list string :=
  ["chroot_directory"; "working_directory"; "umask"; "prevent_core";
   "files_preserve"; "pidfile"; "stdin"; "stdout"; "stderr"; "uid"; "gid";
   "detach_process"; "signal_map"; "_is_open"; "is_open"].

(** [getattr(self, name)] *)
Definition getattr_self (name : string) : M Handler :=
  if bool_decide (name ∈ method_names) then ret (BoundMethod name)
  else if bool_decide (name ∈ data_names) then ret (AttrValue name)
  else raise (MkExc AttributeError
                (ArgsMsg ("DaemonContext instance has no attribute '" +:+ name +:+ "'"))
                None None).

Definition _make_signal_handler (target : Target) : M Handler :=
  match target with
  | TNone => ret SIG_IGN
  | TName name => getattr_self name
  | TOther h => ret h
  end.

(** [(signal_number, self._make_signal_handler(target)) for ...] *)
Fixpoint handler_pairs (items : list (Z * Target)) : M (list (Z * Handler)) :=
  match items with
  | [] => ret []
  | (signal_number, target) :: rest =>
      let* h := _make_signal_handler target in
      let* hs := handler_pairs rest in
      ret ((signal_number, h) :: hs)
  end.

Definition _make_signal_handler_map : M (list (Z * Handler)) :=
  let* c := self in
  let* pairs := handler_pairs (signal_map c) in
  ret (dict_of_pairs pairs).

Definition terminate (signal_number : Z) : M unit :=
  let exception :=
    MkExc SystemExit (ArgsMsg ("Terminating on signal " +:+ py_str_int signal_number))
          None None in
  raise exception.

Definition open : M unit :=
  let* opened := is_open in
  if opened then ret tt
  else
    let* c := self in
    match chroot_directory c with
    | Some d => change_root_directory d
    | None => ret tt
    end ;;
    when (prevent_core c) prevent_core_dump ;;
    change_file_creation_mask (umask c) ;;
    change_working_directory (working_directory c) ;;
    change_process_owner (uid c) (gid c) ;;
    when (detach_process c) (detach_process_context (pidfile c)) ;;
    let* signal_handler_map := _make_signal_handler_map in
    set_signal_handlers signal_handler_map ;;
    let* exclude_fds := _get_exclude_file_descriptors in
    close_all_open_files exclude_fds ;;
    redirect_stream sys_stdin (stdin c) ;;
    redirect_stream sys_stdout (stdout c) ;;
    redirect_stream sys_stderr (stderr c) ;;
    match pidfile c with
    | Some ThePidFile => PidFile.__enter__
    | None => ret tt
    end ;;
    modify (fun s => set_self (set__is_open true (s_self s)) s) ;;
    register_atexit_function CbClose.

Definition close : M unit :=
  let* opened := is_open in
  if negb opened then ret tt
  else
    let* c := self in
    match pidfile c with
    | Some ThePidFile => PidFile.__exit__
    | None => ret tt
    end ;;
    modify (fun s => set_self (set__is_open false (s_self s)) s).

(** What the interpreter does with a registered callback at exit. *)
Definition run_callback (cb : Callback) : M unit :=
  match cb with CbClose => close end.

End DaemonContext.

(** ** The activation sequence, as the specification lists it *)

(** The twelve steps of activation, in the order of the specification. *)
Definition activation_steps (c : DaemonContextObj) : list (M unit) :=
  [ (* 1 *) match chroot_directory c with
            | Some d => change_root_directory d
            | None => ret tt
            end;
    (* 2 *) when (prevent_core c) prevent_core_dump;
    (* 3 *) change_file_creation_mask (umask c);
    (* 4 *) change_working_directory (working_directory c);
    (* 5 *) change_process_owner (uid c) (gid c);
    (* 6 *) when (detach_process c) (detach_process_context (pidfile c));
    (* 7 *) (let* signal_handler_map := DaemonContext._make_signal_handler_map in
             set_signal_handlers signal_handler_map);
    (* 8 *) (let* exclude_fds := DaemonContext._get_exclude_file_descriptors in
             close_all_open_files exclude_fds);
    (* 9 *) (redirect_stream sys_stdin (stdin c) ;;
             redirect_stream sys_stdout (stdout c) ;;
             redirect_stream sys_stderr (stderr c));
    (* 10 *) match pidfile c with
             | Some ThePidFile => PidFile.__enter__
             | None => ret tt
             end;
    (* 11 *) modify (fun s => set_self (DaemonContext.set__is_open true (s_self s)) s);
    (* 12 *) register_atexit_function CbClose ].

(** Running steps one after the other; the first that does not return
    normally ends the run. *)
Fixpoint run_steps (steps : list (M unit)) : M unit :=
  match steps with
  | [] => ret tt
  | m :: rest => m ;; run_steps rest
  end.

(** The state after steps 1 to 5, when the system refuses none of them. *)
Definition owner_changed (c : DaemonContextObj) (s : State) : State :=
  let s1 := match chroot_directory c with
            | Some d => log (CChroot d) (log (CChdir d) s)
            | None => s
            end in
  let s2 := if prevent_core c
            then set_core_limit (0, 0)%Z (log (CSetrlimitCore 0 0) (log CGetrlimitCore s1))
            else s1 in
  log (CSetuid (uid c)) (log (CSetgid (gid c))
    (log (CChdir (working_directory c)) (log (CUmask (umask c)) s2))).

(** The handler a target of the default map stands for: [None] is
    [SIG_IGN], a name is the method of that name. *)
Definition handler_of_target (t : Target) : Handler :=
  match t with
  | TNone => SIG_IGN
  | TName name => BoundMethod name
  | TOther h => h
  end.

Definition stop_signal_names : list string := ["SIGTSTP"; "SIGTTIN"; "SIGTTOU"].

(** A [DaemonError] is chained when its cause is an error that is not
    itself a [DaemonError]: the error of the library call that failed. *)
Definition chained (e : Exc) : Prop :=
  isinstance e DaemonError = true ->
  exists e0, exc_cause e = Some e0 /\ isinstance e0 DaemonError = false.

(** Every exception [m] can raise satisfies [P]. *)
Definition raises (P : Exc -> Prop) {A} (m : M A) : Prop :=
  forall s e s', m s = Raised e s' -> P e.

(** Not one of the module's own errors. *)
Definition foreign (e : Exc) : Prop := isinstance e DaemonError = false.

(** [does p s s']: from [s] to [s'] the process made calls that all satisfy
    [p], and the context is open in [s'] exactly if it is in [s]. *)
Definition does (p : Call -> Prop) (s s' : State) : Prop :=
  (exists t, s_trace s' = s_trace s ++ t /\ Forall p t) /\
  _is_open (s_self s') = _is_open (s_self s).

(** The calls of the detach protocol, of the installation of handlers, of
    the sweep, of the redirection and of the pid file. *)
Definition detach_call (c : Call) : Prop :=
  match c with
  | CFork | CSetsid | CPathExists _ | CSleep _ | CExit _ => True
  | _ => False
  end.

Definition signal_call (c : Call) : Prop :=
  match c with CSignal _ _ => True | _ => False end.

Definition sweep_kind (c : Call) : Prop :=
  match c with CGetrlimitNofile | CClose _ => True | _ => False end.

Definition redirect_call (c : Call) : Prop :=
  match c with COpenDevnull | CDup2 _ _ => True | _ => False end.

Definition pidfile_enter_call (c : Call) : Prop :=
  match c with
  | COpen _ | CFlock _ _ | CFileSeek _ _ | CFileTruncate _ | CFileWrite _ _
  | CFileFlush _ | CGetpid => True
  | _ => False
  end.

(** What each of the twelve steps may add to the trace.  A call is recorded
    when it is attempted, so a step that fails at its first call still
    shows that call. *)
Definition step_calls (c : DaemonContextObj) : list (list Call -> Prop) :=
  [ (* 1 *) (fun t => match chroot_directory c with
                      | Some d => t = [CChdir d] \/ t = [CChdir d; CChroot d]
                      | None => t = []
                      end);
    (* 2 *) (fun t => if prevent_core c
                      then t = [CGetrlimitCore] \/ t = [CGetrlimitCore; CSetrlimitCore 0 0]
                      else t = []);
    (* 3 *) (fun t => t = [CUmask (umask c)]);
    (* 4 *) (fun t => t = [CChdir (working_directory c)]);
    (* 5 *) (fun t => t = [CSetgid (gid c)] \/ t = [CSetgid (gid c); CSetuid (uid c)]);
    (* 6 *) (fun t => if detach_process c then Forall detach_call t else t = []);
    (* 7 *) Forall signal_call;
    (* 8 *) Forall sweep_kind;
    (* 9 *) Forall redirect_call;
    (* 10 *) (fun t => match pidfile c with
                       | Some _ => Forall pidfile_enter_call t
                       | None => t = []
                       end);
    (* 11 *) (fun t => t = []);
    (* 12 *) (fun t => t = [CAtexitRegister]) ].


(** [step_spec Q m]: [m] adds calls that satisfy [Q] and leaves the context
    open or closed as it was. *)
Definition step_spec (Q : list Call -> Prop) (m : M unit) : Prop :=
  forall s,
    (exists t, s_trace (final_state (m s)) = s_trace s ++ t /\ Q t) /\
    _is_open (s_self (final_state (m s))) = _is_open (s_self s).

(** [m] leaves the context open or closed as it was. *)
Definition keeps_flag (m : M unit) : Prop :=
  forall s, _is_open (s_self (final_state (m s))) = _is_open (s_self s).

(** ** Concrete processes, for the examples *)

Definition quiet_platform (hard : Z) (signal : string -> option Z) : Platform :=
  {| fault := fun _ => None; nofile_limit := (hard, hard);
     RLIM_INFINITY := (-1)%Z; signal_module := signal |}.

(** The signal numbers of Linux. *)
Definition linux_signals (name : string) : option Z :=
  if decide (name = "SIGTERM") then Some 15%Z
  else if decide (name = "SIGTSTP") then Some 20%Z
  else if decide (name = "SIGTTIN") then Some 21%Z
  else if decide (name = "SIGTTOU") then Some 22%Z
  else None.

Definition stream (id : nat) (fd : Z) : FileLike := {| fl_id := id; fl_fileno := FilenoIs fd |}.

Definition example_pidfile : PidFileObj :=
  {| path := "/run/queryserver.pid"; enter_err_msg := Some "already running";
     pidfile_handle := PidFile.fresh_handle |}.

(** A context that preserves descriptors 3 and 7 and replaces the three
    standard streams by objects on descriptors 10, 11 and 12. *)
Definition example_context : DaemonContextObj :=
  {| chroot_directory := None; working_directory := "/"; umask := 0%Z;
     uid := 1000%Z; gid := 100%Z; prevent_core := true; detach_process := false;
     files_preserve := Some [IInt 3; IInt 7]; pidfile := Some ThePidFile;
     stdin := Some (stream 1 10); stdout := Some (stream 2 11);
     stderr := Some (stream 3 12);
     signal_map := make_default_signal_map linux_signals; _is_open := false |}.

Definition example_state (plat : Platform) (c : DaemonContextObj) : State :=
  {| s_trace := []; s_plat := plat; s_pid := 4242%Z; s_files := ∅;
     s_fds := list_to_map
       [(0, "/dev/tty"); (1, "/dev/tty"); (2, "/dev/tty"); (3, "/var/a");
        (5, "/var/b"); (7, "/var/c"); (10, "/var/in"); (11, "/var/out");
        (12, "/var/err"); (3000, "/var/big")]%Z;
     s_locks := ∅; s_handlers := ∅; s_atexit := []; s_core_limit := (100, 100)%Z;
     s_forks := []; s_env := []; s_exc_info := None;
     s_the_pidfile := example_pidfile; s_self := c |}.

(** A process that is about to detach: it will be the child of the first
    fork and the parent of the second, and the pid file appears while it
    sleeps for the first time. *)
Definition second_parent_state : State :=
  set_env [EnvCreate "/run/queryserver.pid" "4244"]
    (set_forks [ForkChild 4243; ForkParent 4244]
       (example_state (quiet_platform 32 linux_signals) example_context)).

(** A context that detaches and has no pid file, in a process that will be
    the parent of the first fork. *)
Definition no_pidfile_context : DaemonContextObj :=
  {| chroot_directory := Some "/srv/jail"; working_directory := "/"; umask := 0%Z;
     uid := 1000%Z; gid := 100%Z; prevent_core := true; detach_process := true;
     files_preserve := None; pidfile := None;
     stdin := None; stdout := None; stderr := None;
     signal_map := make_default_signal_map linux_signals; _is_open := false |}.

Definition no_pidfile_state : State :=
  set_forks [ForkParent 4243]
    (example_state (quiet_platform 32 linux_signals) no_pidfile_context).

(** A process in which another process holds the lock on the pid file. *)
Definition locked_state : State :=
  set_locks {[ "/run/queryserver.pid" := Foreign ]}
    (set_files {[ "/run/queryserver.pid" := "77" ]}
       (example_state (quiet_platform 32 linux_signals) example_context)).

(** A platform that refuses the third call with EPERM. *)
Definition refusing_platform : Platform :=
  {| fault := fun n => if decide (n = 2)
                       then Some {| f_errno := 1; f_strerror := "Operation not permitted" |}
                       else None;
     nofile_limit := (32, 32)%Z; RLIM_INFINITY := (-1)%Z; signal_module := linux_signals |}.

(** ** The vocabulary of the properties *)

(** [respects R m]: whatever becomes of [m], the state it ends in is related
    by [R] to the state it starts in. *)
Definition respects (R : State -> State -> Prop) {A} (m : M A) : Prop :=
  forall s, R s (final_state (m s)).

(** [emits p s s']: from [s] to [s'] the trace grew, by calls that all
    satisfy [p]. *)
Definition emits (p : Call -> Prop) (s s' : State) : Prop :=
  exists t, s_trace s' = s_trace s ++ t /\ Forall p t.

(** The bound of the sweep in state [s]. *)
Definition fd_bound (s : State) : Z :=
  let hard := (nofile_limit (s_plat s)).2 in
  if decide (hard = RLIM_INFINITY (s_plat s)) then MAXFD else hard.

Definition sweep_call (b : Z) (c : Call) : Prop :=
  match c with
  | CGetrlimitNofile => True
  | CClose fd => (0 <= fd < b)%Z
  | _ => False
  end.

(** What the sweep with bound [b] can do to a state: it makes its own calls
    only, leaves the platform alone and leaves the descriptors from [b] on
    as they are. *)
Definition sweeps (b : Z) (s s' : State) : Prop :=
  emits (sweep_call b) s s' /\
  s_plat s' = s_plat s /\
  forall fd, (b <= fd)%Z -> s_fds s' !! fd = s_fds s !! fd.

(** A platform that refuses nothing. *)
Definition quiet (s : State) : Prop := forall n, fault (s_plat s) n = None.

(** What one item of the extended preserve list puts in the exclude set. *)
Definition item_elems (item : PItem) : gset Elem :=
  match item with
  | INone => ∅
  | IInt fd => {[ EInt fd ]}
  | IObj f =>
      match fl_fileno f with
      | FilenoIs fd => {[ EInt fd ]}
      | _ => {[ EObj (fl_id f) ]}
      end
  end.

(** The descriptors the claim speaks of: those obtained from the items of
    the preserve list, and those of the replacement streams. *)
Definition preserved_descriptor (c : DaemonContextObj) (fd : Z) : Prop :=
  exists item, item ∈ default [] (files_preserve c) /\
    (item = IInt fd \/ exists f, item = IObj f /\ fl_fileno f = FilenoIs fd).

Definition stream_descriptor (c : DaemonContextObj) (fd : Z) : Prop :=
  exists f, Some f ∈ [stdin c; stdout c; stderr c] /\ fl_fileno f = FilenoIs fd.

(** The number of sleeps after which the path exists, if it ever does. *)
Fixpoint appears (p : string) (files : gmap string string) (env : list EnvStep) : option nat :=
  if bool_decide (is_Some (files !! p)) then Some 0
  else match env with
       | [] => None
       | e :: rest => S <$> appears p (env_apply e files) rest
       end.

(** The calls of a poll that sleeps [k] times. *)
Fixpoint poll_calls (p : string) (k : nat) : list Call :=
  match k with
  | O => [CPathExists p]
  | S n => CPathExists p :: CSleep 100 :: poll_calls p n
  end.

Definition exit_calls (found : option nat) : list Call :=
  match found with Some _ => [CExit 0] | None => [] end.

Definition no_path_error : Exc :=
  MkExc AttributeError (ArgsMsg "'NoneType' object has no attribute 'path'") None None.

(** The file object of the pid file is open on the file at [p], which holds
    [content]; [buf] is written and not yet flushed. *)
Definition pidfile_open_at (p content buf : string) (pos : nat) (s : State) : Prop :=
  s_fds s !! pf_fd (the_handle s) = Some p /\
  s_files s !! p = Some content /\
  pf_closed (the_handle s) = false /\
  pf_buf (the_handle s) = buf /\
  pf_pos (the_handle s) = pos.

(** What the methods of the file object leave alone. *)
Definition file_step (s s' : State) : Prop :=
  s_pid s' = s_pid s /\ s_plat s' = s_plat s /\ s_locks s' = s_locks s /\
  path (s_the_pidfile s') = path (s_the_pidfile s) /\
  pf_fd (the_handle s') = pf_fd (the_handle s) /\
  s_self s' = s_self s /\ s_fds s' = s_fds s.

(** How a run ends: normally in a state that satisfies [Q], or otherwise,
    and then [refused] holds. *)
Definition outcome_spec (Q : State -> Prop) (refused : Prop) (o : Outcome unit) : Prop :=
  match o with Normal _ s' => Q s' | _ => refused end.

(** After [__enter__], the pid file is held. *)
Definition held (pid : Z) (s s' : State) : Prop :=
  let p := path (s_the_pidfile s) in
  pidfile_open_at p (py_str_int pid) "" 0 s' /\
  s_locks s' !! p = Some (Own (pf_fd (the_handle s'))) /\
  s_pid s' = s_pid s /\ path (s_the_pidfile s') = p /\
  s_self s' = s_self s /\ s_plat s' = s_plat s.

Definition pidfile_exit_call (c : Call) : Prop :=
  match c with CFileClose _ | CRemove _ => True | _ => False end.

(** The error [fork_then_exit_parent] raises when [os.fork] fails with [f]. *)
Definition detach_error (message : string) (f : Fault) : Exc :=
  MkExc DaemonProcessDetachError
    (ArgsMsg (message +:+ ": [" +:+ py_str_int (f_errno f) +:+ "] " +:+ f_strerror f))
    (Some (os_error OSError f)) None.



(** A process whose first [os.fork] will fail. *)
Definition fork_failing_state : State :=
  set_forks [ForkFails fault_EAGAIN]
    (example_state (quiet_platform 32 linux_signals) example_context).

(** A target that [_make_signal_handler] turns into something
    [signal.signal] accepts: [None], the name of a method of the context,
    or a handler that is given as such. *)
Definition callable_target (t : Target) : bool :=
  match t with
  | TNone => true
  | TName name => bool_decide (name ∈ DaemonContext.method_names)
  | TOther (AttrValue _) => false
  | TOther _ => true
  end.



(** The file a replacement stream stands for in state [s]: the null
    device for [None], and for a stream the file its descriptor is open
    on, if it has a descriptor and the descriptor is open. *)
Definition target_path (s : State) (target : option FileLike) : option string :=
  match target with
  | None => Some devnull
  | Some f =>
      match fl_fileno f with
      | FilenoIs fd => s_fds s !! fd
      | _ => None
      end
  end.

(** A replacement stream on an open descriptor that is not one of the
    three standard descriptors, or [None]. *)
Definition redirectable (s : State) (target : option FileLike) : Prop :=
  match target with
  | None => True
  | Some f => exists fd, fl_fileno f = FilenoIs fd /\
                (fd < 0 \/ 2 < fd)%Z /\ is_Some (s_fds s !! fd)
  end.

(** * Reasoning about runs *)

Example py_str_int_1234 : py_str_int 1234 = "1234".
Proof. reflexivity. Qed.

Example py_int_str_1234 : py_int_str "1234" = Some 1234%Z.
Proof. reflexivity. Qed.

(** ** The monad *)

Lemma bind_normal {A B} (m : M A) (k : A -> M B) s b s2 :
  bind m k s = Normal b s2 ->
  exists a s1, m s = Normal a s1 /\ k a s1 = Normal b s2.
Proof. unfold bind. destruct (m s) eqn:E; try discriminate. eauto. Qed.

Lemma bind_eq_normal {A B} (m : M A) (k : A -> M B) s a s1 :
  m s = Normal a s1 -> bind m k s = k a s1.
Proof. unfold bind. by intros ->. Qed.

Lemma bind_assoc {A B C} (m : M A) (k : A -> M B) (h : B -> M C) s :
  bind (bind m k) h s = bind m (fun a => bind (k a) h) s.
Proof. unfold bind. by destruct (m s). Qed.

Lemma bind_abnormal {A B} (m : M A) (k : A -> M B) s :
  is_normal (m s) = false ->
  final_state (bind m k s) = final_state (m s) /\ is_normal (bind m k s) = false.
Proof. unfold bind. by destruct (m s). Qed.

(** ** Relations every step of a run respects *)

Section respects.
Context (R : State -> State -> Prop) `{!PreOrder R}.
Hypothesis R_exc_info : forall x s, R s (set_exc_info x s).

Lemma respects_ret {A} (a : A) : respects R (ret a).
Proof. intros s. simpl. reflexivity. Qed.

Lemma respects_raise {A} e : respects R (@raise A e).
Proof. intros s. simpl. reflexivity. Qed.

Lemma respects_hang {A} : respects R (@hang A).
Proof. intros s. simpl. reflexivity. Qed.

Lemma respects_get : respects R get.
Proof. intros s. simpl. reflexivity. Qed.

Lemma respects_modify f : (forall s, R s (f s)) -> respects R (modify f).
Proof. intros H s. apply H. Qed.

Lemma respects_bind {A B} (m : M A) (k : A -> M B) :
  respects R m -> (forall a, respects R (k a)) -> respects R (bind m k).
Proof.
  intros Hm Hk s. unfold bind. specialize (Hm s).
  destruct (m s) as [a s1| | |]; simpl in *; try done.
  etrans; [exact Hm | apply Hk].
Qed.

Lemma respects_when b (m : M unit) : respects R m -> respects R (when b m).
Proof. destruct b; simpl; [done | intros _; apply respects_ret]. Qed.

Lemma respects_try_except {A} (body : M A) cls handler :
  respects R body -> (forall e, respects R (handler e)) ->
  respects R (try_except body cls handler).
Proof.
  intros Hb Hh s. unfold try_except. specialize (Hb s).
  destruct (body s) as [| e s1 | |]; simpl in *; try done.
  destruct (isinstance e cls); simpl; [|done].
  specialize (Hh e (set_exc_info (Some e) s1)).
  assert (R s (set_exc_info (Some e) s1)) as H1 by (etrans; [exact Hb | apply R_exc_info]).
  destruct (handler e _) as [a s2| | |]; simpl in *; try (etrans; [exact H1 | exact Hh]).
  etrans; [exact H1 |]. etrans; [exact Hh | apply R_exc_info].
Qed.

Lemma respects_call {A} c cls (sem : State -> (Fault + A) * State) :
  (forall s, R s (log c s)) -> (forall s, R s (sem s).2) ->
  respects R (call c cls sem).
Proof.
  intros Hlog Hsem s. unfold call.
  destruct (fault_now s); simpl; [apply Hlog|].
  specialize (Hsem (log c s)). destruct (sem (log c s)) as [[f|a] s2]; simpl in *;
    (etrans; [apply Hlog | exact Hsem]).
Qed.

Lemma respects_call_total {A} c (sem : State -> A * State) :
  (forall s, R s (log c s)) -> (forall s, R s (sem s).2) ->
  respects R (call_total c sem).
Proof.
  intros Hlog Hsem s. unfold call_total.
  specialize (Hsem (log c s)). destruct (sem (log c s)) as [a s2]; simpl in *.
  etrans; [apply Hlog | exact Hsem].
Qed.

Lemma respects_for_each {A} (l : list A) body :
  (forall x, x ∈ l -> respects R (body x)) -> respects R (for_each l body).
Proof.
  induction l as [|x l IH]; intros H; simpl.
  - apply respects_ret.
  - apply respects_bind; [apply H; left | intros _; apply IH].
    intros y Hy. apply H. by right.
Qed.
End respects.

(** ** What a run adds to the trace *)

#[global] Instance emits_preorder p : PreOrder (emits p).
Proof.
  split.
  - intros s. exists []. by rewrite app_nil_r.
  - intros s1 s2 s3 (t1 & E1 & F1) (t2 & E2 & F2). exists (t1 ++ t2). split.
    + by rewrite E2, E1, app_assoc.
    + by apply Forall_app.
Qed.

Lemma emits_same_trace p s s' : s_trace s' = s_trace s -> emits p s s'.
Proof. intros E. exists []. by rewrite app_nil_r. Qed.

Lemma emits_log (p : Call -> Prop) c s : p c -> emits p s (log c s).
Proof. intros Hc. exists [c]. split; [done | by constructor]. Qed.

Lemma emits_weaken (p q : Call -> Prop) s s' :
  (forall c, p c -> q c) -> emits p s s' -> emits q s s'.
Proof. intros H (t & E & F). exists t. split; [done|]. eapply Forall_impl; eauto. Qed.

Lemma DaemonError__init___respects R `{!PreOrder R} cls msg :
  respects R (DaemonError__init__ cls msg).
Proof. intros s. simpl. reflexivity. Qed.

(** ** The descriptor sweep ([close_all_open_files]) *)

#[global] Instance sweeps_preorder b : PreOrder (sweeps b).
Proof.
  split.
  - intros s. split; [reflexivity | done].
  - intros s1 s2 s3 (E1 & P1 & F1) (E2 & P2 & F2). split; [by etrans|]. split; [congruence|].
    intros fd Hfd. by rewrite F2, F1.
Qed.

Lemma sweeps_exc_info b x s : sweeps b s (set_exc_info x s).
Proof. split; [by apply emits_same_trace | done]. Qed.

Lemma close_file_descriptor_if_open_sweeps b fd :
  (0 <= fd < b)%Z -> respects (sweeps b) (close_file_descriptor_if_open fd).
Proof.
  intros Hfd. apply respects_try_except; try apply _; try apply sweeps_exc_info.
  - apply respects_call; try apply _.
    + intros s. split; [by apply emits_log | done].
    + intros s. case_bool_decide; simpl; [|reflexivity].
      split; [by apply emits_same_trace|]. split; [done|].
      intros fd' Hfd'. simpl. apply lookup_delete_ne. lia.
  - intros e. case_decide; [apply respects_ret; apply _|].
    apply respects_bind; try apply _.
    + apply DaemonError__init___respects; apply _.
    + intros a. apply respects_raise; apply _.
Qed.

Lemma get_maximum_file_descriptors_eq s :
  get_maximum_file_descriptors s =
    match fault_now s with
    | Some f => Raised (os_error OSError f) (log CGetrlimitNofile s)
    | None => Normal (fd_bound s) (log CGetrlimitNofile s)
    end.
Proof.
  unfold get_maximum_file_descriptors, bind, resource_getrlimit_nofile, call.
  by destruct (fault_now s).
Qed.

Lemma close_all_open_files_sweeps exclude s :
  sweeps (fd_bound s) s (final_state (close_all_open_files exclude s)).
Proof.
  unfold close_all_open_files, bind. rewrite get_maximum_file_descriptors_eq.
  assert (sweeps (fd_bound s) s (log CGetrlimitNofile s)) as Hlog
    by (split; [by apply emits_log | done]).
  destruct (fault_now s); simpl; [done|].
  etrans; [exact Hlog|].
  apply respects_for_each; try apply _.
  intros fd Hfd. apply elem_of_reverse, elem_of_seqZ in Hfd.
  case_bool_decide; [|apply respects_ret; apply _].
  apply close_file_descriptor_if_open_sweeps. lia.
Qed.

Lemma quiet_fault_now s s' : quiet s -> s_plat s' = s_plat s -> fault_now s' = None.
Proof. intros H E. unfold fault_now. rewrite E. apply H. Qed.

Lemma quiet_plat s s' : quiet s -> s_plat s' = s_plat s -> quiet s'.
Proof. intros H E n. rewrite E. apply H. Qed.

Lemma set_exc_info_restore s x :
  set_exc_info (s_exc_info s) (set_exc_info x s) = s.
Proof. by destruct s. Qed.

(** Closing a descriptor on a quiet platform: the call is made, the
    descriptor is closed afterwards whether it was open or not, and the
    function returns. *)
Lemma close_file_descriptor_if_open_quiet fd s :
  quiet s ->
  exists s1, close_file_descriptor_if_open fd s = Normal tt s1 /\
    s_trace s1 = s_trace s ++ [CClose fd] /\
    s_fds s1 = delete fd (s_fds s) /\
    s_plat s1 = s_plat s.
Proof.
  intros Hq. unfold close_file_descriptor_if_open, try_except, os_close, call.
  rewrite (quiet_fault_now s s Hq eq_refl).
  case_bool_decide as Hopen; simpl.
  - eexists. split; [done|]. by simpl.
  - eexists. split; [done|]. simpl. split; [done|]. split; [|done].
    symmetry. apply delete_id. by apply eq_None_not_Some.
Qed.

Lemma sweep_loop_quiet (exclude : gset Elem) (l : list Z) s :
  quiet s ->
  exists s', for_each l (fun fd =>
               if bool_decide (EInt fd ∉ exclude) then close_file_descriptor_if_open fd
               else ret tt) s = Normal tt s' /\
    s_trace s' = s_trace s ++ (CClose <$> filter (fun fd => EInt fd ∉ exclude) l) /\
    (forall fd, s_fds s' !! fd =
                if decide (fd ∈ l /\ EInt fd ∉ exclude) then None else s_fds s !! fd) /\
    s_plat s' = s_plat s.
Proof.
  revert s. induction l as [|x l IH]; intros s Hq.
  - exists s. simpl. rewrite app_nil_r. split; [done|]. split; [done|]. split; [|done].
    done.
  - cbn [for_each]. unfold bind at 1. case_bool_decide as Hx.
    + destruct (close_file_descriptor_if_open_quiet x s Hq) as (s1 & -> & T1 & F1 & P1).
      destruct (IH s1 (quiet_plat s s1 Hq P1)) as (s' & -> & T' & F' & P').
      exists s'. split; [done|]. split; [|split; [|congruence]].
      * rewrite T', T1, filter_cons_True by done. by rewrite fmap_cons, <- app_assoc.
      * intros fd. rewrite F', F1. destruct (decide (fd = x)) as [->|Hne].
        -- rewrite lookup_delete_eq. rewrite (decide_True (P := x ∈ x :: l /\ _)); [|split; [left|done]].
           by case_decide.
        -- rewrite lookup_delete_ne by done.
           destruct (decide (fd ∈ l /\ EInt fd ∉ exclude)) as [H1|H1],
             (decide (fd ∈ x :: l /\ EInt fd ∉ exclude)) as [H2|H2];
             try done; exfalso; set_solver.
    + simpl. destruct (IH s Hq) as (s' & -> & T' & F' & P').
      exists s'. split; [done|]. split; [|split; [|done]].
      * rewrite T', filter_cons_False; [done|]. intros H. by apply H.
      * intros fd. rewrite F'.
        destruct (decide (fd ∈ l /\ EInt fd ∉ exclude)) as [H1|H1],
          (decide (fd ∈ x :: l /\ EInt fd ∉ exclude)) as [H2|H2];
          try done; exfalso; set_solver.
Qed.

Lemma close_all_open_files_quiet exclude s :
  quiet s ->
  exists s', close_all_open_files exclude s = Normal tt s' /\
    s_trace s' = s_trace s ++ CGetrlimitNofile ::
      (CClose <$> filter (fun fd => EInt fd ∉ exclude) (reverse (seqZ 0 (fd_bound s)))) /\
    (forall fd, s_fds s' !! fd =
                if decide ((0 <= fd < fd_bound s)%Z /\ EInt fd ∉ exclude)
                then None else s_fds s !! fd).
Proof.
  intros Hq. unfold close_all_open_files, bind.
  rewrite get_maximum_file_descriptors_eq, (quiet_fault_now s s Hq eq_refl).
  destruct (sweep_loop_quiet exclude (reverse (seqZ 0 (fd_bound s))) (log CGetrlimitNofile s))
    as (s' & -> & T & F & P); [by apply (quiet_plat s)|].
  exists s'. split; [done|]. split.
  - rewrite T. simpl. by rewrite <- app_assoc.
  - intros fd. rewrite F. simpl.
    repeat case_decide; try done; exfalso;
      rewrite elem_of_reverse, elem_of_seqZ in *; naive_solver lia.
Qed.

(** C10: the sweep is bounded by the hard limit on open descriptors, or by
    2048 when that limit is unlimited.  [get_maximum_file_descriptors]
    returns that bound; whatever the exclude set and however the sweep ends,
    every descriptor it closes lies in [0, bound) and every descriptor at or
    above the bound is left as it was, so with an unlimited hard limit the
    descriptors from 2048 on survive. *)
Theorem close_all_open_files_bounded (exclude : gset Elem) (s : State) :
  let hard := (nofile_limit (s_plat s)).2 in
  let bound := if decide (hard = RLIM_INFINITY (s_plat s)) then 2048%Z else hard in
  let s' := final_state (close_all_open_files exclude s) in
  get_maximum_file_descriptors s =
    match fault_now s with
    | Some f => Raised (os_error OSError f) (log CGetrlimitNofile s)
    | None => Normal bound (log CGetrlimitNofile s)
    end /\
  (exists t, s_trace s' = s_trace s ++ t /\
             forall fd, CClose fd ∈ t -> (0 <= fd < bound)%Z) /\
  (forall fd, (bound <= fd)%Z -> s_fds s' !! fd = s_fds s !! fd) /\
  (hard = RLIM_INFINITY (s_plat s) ->
   forall fd, (2048 <= fd)%Z -> s_fds s' !! fd = s_fds s !! fd).
Proof.
  intros hard bound s'.
  assert (bound = fd_bound s) as Hb by done.
  destruct (close_all_open_files_sweeps exclude s) as ((t & Ht & Hall) & _ & Hfds).
  split; [by rewrite get_maximum_file_descriptors_eq|].
  split; [|split].
  - exists t. split; [done|]. intros fd Hin. rewrite Hb.
    rewrite Forall_forall in Hall. exact (Hall _ Hin).
  - intros fd Hfd. apply Hfds. by rewrite <- Hb.
  - intros Hinf fd Hfd. apply Hfds. unfold fd_bound. fold hard.
    rewrite decide_True by done. exact Hfd.
Qed.

Lemma close_all_open_files_bounded_witness :
  s_fds (final_state (close_all_open_files ∅
           (example_state (quiet_platform (-1) linux_signals) example_context))) !! 3000%Z
  = Some "/var/big".
Proof.
  destruct (close_all_open_files_bounded ∅
              (example_state (quiet_platform (-1) linux_signals) example_context))
    as (_ & _ & _ & H).
  rewrite H; [reflexivity | reflexivity | lia].
Defined.

(** ** The exclude set ([_get_exclude_file_descriptors]) *)

Lemma _get_file_descriptor_eq item s :
  DaemonContext._get_file_descriptor item s =
    Normal (match item with
            | IObj f => match fl_fileno f with FilenoIs fd => Some fd | _ => None end
            | _ => None
            end) s.
Proof.
  destruct item as [| |[id [| |]]]; try done.
  unfold DaemonContext._get_file_descriptor, try_except. simpl.
  by rewrite set_exc_info_restore.
Qed.

Lemma exclude_loop_eq items X s :
  DaemonContext.exclude_loop items X s = Normal (X ∪ ⋃ (item_elems <$> items)) s.
Proof.
  revert X. induction items as [|item items IH]; intros X;
    cbn [DaemonContext.exclude_loop fmap list_fmap union_list].
  - unfold ret. f_equal. set_solver.
  - destruct item as [|fd|f]; cbn [DaemonContext.elem_of_item item_elems].
    + rewrite IH. f_equal. set_solver.
    + unfold bind. rewrite _get_file_descriptor_eq, IH. f_equal. set_solver.
    + unfold bind. rewrite _get_file_descriptor_eq.
      destruct (fl_fileno f); rewrite IH; f_equal; set_solver.
Qed.

Lemma elem_of_item_elems fd items :
  EInt fd ∈ ⋃ (item_elems <$> items) <->
  exists item, item ∈ items /\
    (item = IInt fd \/ exists f, item = IObj f /\ fl_fileno f = FilenoIs fd).
Proof.
  rewrite elem_of_union_list. split.
  - intros (X & HX & Hfd). apply list_elem_of_fmap in HX as (item & -> & Hin).
    exists item. split; [done|].
    destruct item as [|fd'|f]; simpl in Hfd; [set_solver|left; set_solver|right].
    exists f. split; [done|]. destruct (fl_fileno f); set_solver.
  - intros (item & Hin & [->|(f & -> & Hf)]).
    + exists {[EInt fd]}. split; [|set_solver]. apply list_elem_of_fmap. by exists (IInt fd).
    + exists {[EInt fd]}. split; [|set_solver]. apply list_elem_of_fmap.
      exists (IObj f). simpl. by rewrite Hf.
Qed.

Lemma streams_with_fileno_descriptor c fd :
  (exists item, item ∈ DaemonContext.streams_with_fileno c /\
     (item = IInt fd \/ exists f, item = IObj f /\ fl_fileno f = FilenoIs fd)) <->
  stream_descriptor c fd.
Proof.
  unfold DaemonContext.streams_with_fileno, stream_descriptor. split.
  - intros (item & Hin & H). apply list_elem_of_omap in Hin as (o & Ho & Hitem).
    destruct o as [f0|]; [|done]. destruct (hasattr_fileno f0); [|done].
    injection Hitem as <-. destruct H as [|(f & [= <-] & Hf)]; [done|]. by exists f0.
  - intros (f & Hin & Hf). exists (IObj f). split; [|right; by exists f].
    apply list_elem_of_omap. exists (Some f). split; [done|].
    unfold hasattr_fileno. by rewrite Hf.
Qed.

Lemma _get_exclude_file_descriptors_spec s :
  exists X s1, DaemonContext._get_exclude_file_descriptors s = Normal X s1 /\
    s_trace s1 = s_trace s /\ s_fds s1 = s_fds s /\ s_plat s1 = s_plat s /\
    _is_open (s_self s1) = _is_open (s_self s) /\
    forall fd, EInt fd ∈ X <->
               preserved_descriptor (s_self s) fd \/ stream_descriptor (s_self s) fd.
Proof.
  unfold DaemonContext._get_exclude_file_descriptors, bind. simpl.
  destruct (files_preserve (s_self s)) as [l|] eqn:E; simpl; rewrite exclude_loop_eq;
    eexists _, _; (split; [done|]); simpl; repeat (split; [done|]);
    intros fd; rewrite union_empty_l_L, elem_of_item_elems;
    unfold preserved_descriptor; rewrite E; simpl;
    rewrite <- streams_with_fileno_descriptor.
  - setoid_rewrite elem_of_app. naive_solver.
  - split; [intros H; by right|]. intros [(item & Hin & _)|H]; [|done].
    by apply elem_of_nil in Hin.
Qed.

Lemma close_file_descriptor_if_open_refused fd f s :
  fault_now s = Some f ->
  close_file_descriptor_if_open fd s =
    if decide (f_errno f = EBADF)
    then Normal tt (set_exc_info (s_exc_info s)
                      (set_exc_info (Some (os_error OSError f)) (log (CClose fd) s)))
    else Raised (MkExc DaemonOSEnvironmentError
                   (ArgsMsg ("Failed to close file descriptor " +:+ py_str_int fd +:+
                             " (" +:+ exc_str (os_error OSError f) +:+ ")"))
                   (Some (os_error OSError f)) None)
                (set_exc_info (Some (os_error OSError f)) (log (CClose fd) s)).
Proof.
  intros Hf. unfold close_file_descriptor_if_open, try_except, os_close, call.
  rewrite Hf.
  replace (isinstance (os_error OSError f) EnvironmentError) with true by done.
  replace (exc_errno (os_error OSError f)) with (Some (f_errno f)) by done.
  destruct (decide (f_errno f = EBADF)) as [He|He].
  - rewrite decide_True by congruence. done.
  - rewrite decide_False by congruence. done.
Qed.

Lemma close_file_descriptor_if_open_not_open fd s :
  fault_now s = None -> s_fds s !! fd = None ->
  exists s1, close_file_descriptor_if_open fd s = Normal tt s1 /\
    s_trace s1 = s_trace s ++ [CClose fd] /\ s_fds s1 = s_fds s.
Proof.
  intros Hf Hfd. unfold close_file_descriptor_if_open, try_except, os_close, call.
  rewrite Hf. rewrite bool_decide_eq_false_2; [|simpl; rewrite Hfd; by intros [? ?]].
  simpl. eexists. split; [done|]. by simpl.
Qed.

(** C6: the exclude set holds exactly the descriptors obtained from the
    items of the preserve list and the descriptors of the replacement
    streams; the sweep closes every other descriptor of [0, max), from the
    highest down to 0; a descriptor that is not open (EBADF) is passed over
    and any other refusal is raised as a [DaemonOSEnvironmentError]; with
    the preserve list [3; 7] and streams on 10, 11 and 12, these five stay
    as they were and every other descriptor of [0, max) is closed. *)
Theorem close_all_open_files_excludes (s : State) :
  let c := s_self s in
  (exists X s1, DaemonContext._get_exclude_file_descriptors s = Normal X s1 /\
     s_trace s1 = s_trace s /\ s_fds s1 = s_fds s /\
     forall fd, EInt fd ∈ X <-> preserved_descriptor c fd \/ stream_descriptor c fd) /\
  (forall X, quiet s ->
     exists s', close_all_open_files X s = Normal tt s' /\
       s_trace s' = s_trace s ++ CGetrlimitNofile ::
         (CClose <$> filter (fun fd => EInt fd ∉ X) (reverse (seqZ 0 (fd_bound s)))) /\
       forall fd, s_fds s' !! fd =
                  if decide ((0 <= fd < fd_bound s)%Z /\ EInt fd ∉ X)
                  then None else s_fds s !! fd) /\
  (forall fd, fault_now s = None -> s_fds s !! fd = None ->
     exists s1, close_file_descriptor_if_open fd s = Normal tt s1 /\
       s_trace s1 = s_trace s ++ [CClose fd] /\ s_fds s1 = s_fds s) /\
  (forall fd f, fault_now s = Some f ->
     if decide (f_errno f = EBADF)
     then is_normal (close_file_descriptor_if_open fd s) = true
     else exists e s1, close_file_descriptor_if_open fd s = Raised e s1 /\
            exc_class e = DaemonOSEnvironmentError /\
            exc_cause e = Some (os_error OSError f)) /\
  (forall f0 f1 f2,
     files_preserve c = Some [IInt 3; IInt 7] ->
     stdin c = Some f0 -> stdout c = Some f1 -> stderr c = Some f2 ->
     fl_fileno f0 = FilenoIs 10 -> fl_fileno f1 = FilenoIs 11 ->
     fl_fileno f2 = FilenoIs 12 ->
     quiet s ->
     exists s', bind DaemonContext._get_exclude_file_descriptors close_all_open_files s
                = Normal tt s' /\
       forall fd, (0 <= fd < fd_bound s)%Z ->
         s_fds s' !! fd =
           if decide (fd ∈ [3; 7; 10; 11; 12]%Z) then s_fds s !! fd else None).
Proof.
  intros c. split; [|split; [|split; [|split]]].
  - destruct (_get_exclude_file_descriptors_spec s) as (X & s1 & E & T & F & _ & _ & H).
    by exists X, s1.
  - intros X Hq. by apply close_all_open_files_quiet.
  - intros fd. apply close_file_descriptor_if_open_not_open.
  - intros fd f Hf. rewrite (close_file_descriptor_if_open_refused fd f s Hf).
    case_decide; [done|]. by eexists _, _.
  - intros f0 f1 f2 Hp H0 H1 H2 N0 N1 N2 Hq.
    destruct (_get_exclude_file_descriptors_spec s) as (X & s1 & E & T & F & P & _ & H).
    destruct (close_all_open_files_quiet X s1 (quiet_plat s s1 Hq P)) as (s' & E' & _ & F').
    exists s'. split; [unfold bind; by rewrite E|].
    intros fd Hfd. rewrite F', F. unfold fd_bound. rewrite P. fold (fd_bound s).
    assert (EInt fd ∈ X <-> fd ∈ [3; 7; 10; 11; 12]%Z) as HX.
    { rewrite H. fold c. unfold preserved_descriptor, stream_descriptor.
      rewrite Hp, H0, H1, H2. simpl. split.
      - intros [(item & Hin & [->|(f & -> & Hf)])|(f & Hin & Hf)].
        + set_solver.
        + set_solver.
        + assert (f = f0 \/ f = f1 \/ f = f2) as [->|[->| ->]] by set_solver;
            rewrite Hf in *; simplify_eq; set_solver.
      - intros Hin.
        assert (fd = 3 \/ fd = 7 \/ fd = 10 \/ fd = 11 \/ fd = 12)%Z
          as [->|[->|[->|[->| ->]]]] by set_solver.
        + left. exists (IInt 3). set_solver.
        + left. exists (IInt 7). set_solver.
        + right. exists f0. set_solver.
        + right. exists f1. set_solver.
        + right. exists f2. set_solver. }
    destruct (decide (fd ∈ [3; 7; 10; 11; 12]%Z)) as [Hin|Hin].
    + rewrite decide_False; [done|]. intros [_ Hn]. apply Hn. by apply HX.
    + rewrite decide_True; [done|]. split; [done|]. by rewrite HX.
Qed.

Lemma close_all_open_files_excludes_witness :
  exists s',
    bind DaemonContext._get_exclude_file_descriptors close_all_open_files
      (example_state (quiet_platform 32 linux_signals) example_context) = Normal tt s' /\
    s_fds s' !! 7%Z = Some "/var/c" /\ s_fds s' !! 5%Z = None.
Proof.
  destruct (close_all_open_files_excludes
              (example_state (quiet_platform 32 linux_signals) example_context))
    as (_ & _ & _ & _ & H).
  destruct (H (stream 1 10) (stream 2 11) (stream 3 12)) as (s' & E & F);
    try reflexivity; [by intros n|].
  exists s'. split; [exact E|]. split.
  - rewrite F; [reflexivity | vm_compute; split; [discriminate | reflexivity]].
  - rewrite F; [reflexivity | vm_compute; split; [discriminate | reflexivity]].
Defined.

(** ** The detach protocol *)

Ltac bind_step H :=
  match goal with
  | |- context [bind ?m ?k ?s] => rewrite (bind_eq_normal m k s _ _ H)
  end; cbv beta.

Lemma pidfile_path_some s :
  pidfile_path (Some ThePidFile) s = Normal (path (s_the_pidfile s)) s.
Proof. reflexivity. Qed.

Lemma os_path_exists_eq p s :
  os_path_exists p s =
    Normal (bool_decide (is_Some (s_files s !! p))) (log (CPathExists p) s).
Proof. reflexivity. Qed.

Lemma time_sleep_eq ms s :
  time_sleep ms s =
    Normal tt (match s_env s with
               | [] => log (CSleep ms) s
               | e :: rest =>
                   set_env rest (set_files (env_apply e (s_files s)) (log (CSleep ms) s))
               end).
Proof. unfold time_sleep, call_total. simpl. by destruct (s_env s). Qed.

Lemma poll_pidfile_spec env : forall s,
  s_env s = env ->
  let p := path (s_the_pidfile s) in
  exists s', poll_pidfile (Some ThePidFile) (length env) s =
               match appears p (s_files s) env with
               | Some _ => Normal tt s'
               | None => Hangs s'
               end /\
    s_trace s' = s_trace s ++ poll_calls p (default (length env) (appears p (s_files s) env)).
Proof.
  induction env as [|e rest IH]; intros s Henv p;
    cbn [poll_pidfile length appears];
    bind_step (pidfile_path_some s); fold p;
    bind_step (os_path_exists_eq p s);
    destruct (bool_decide (is_Some (s_files s !! p))) eqn:Hex;
    try (eexists; split; [reflexivity | done]).
  bind_step (time_sleep_eq 100 (log (CPathExists p) s)).
  change (s_env (log (CPathExists p) s)) with (s_env s). rewrite Henv.
  set (s1 := set_env rest _).
  destruct (IH s1 eq_refl) as (s' & E & T).
  change (path (s_the_pidfile s1)) with p in E, T.
  change (s_files s1) with (env_apply e (s_files s)) in E, T.
  exists s'. split.
  - rewrite E. by destruct (appears p (env_apply e (s_files s)) rest).
  - rewrite T. simpl. rewrite <- !app_assoc. simpl.
    by destruct (appears p (env_apply e (s_files s)) rest).
Qed.

Lemma os_fork_eq s :
  fault_now s = None ->
  os_fork s =
    match s_forks s with
    | [] => Raised (os_error OSError fault_EAGAIN) (log CFork s)
    | ForkFails f :: rest => Raised (os_error OSError f) (set_forks rest (log CFork s))
    | ForkParent child :: rest => Normal (Z.pos child) (set_forks rest (log CFork s))
    | ForkChild new_pid :: rest => Normal 0%Z (set_pid new_pid (set_forks rest (log CFork s)))
    end.
Proof.
  intros Hf. unfold os_fork, call. rewrite Hf.
  change (s_forks (log CFork s)) with (s_forks s).
  by destruct (s_forks s) as [|[f|child|new_pid] rest].
Qed.

(** In the parent, after either fork: poll for the path of the pid file,
    then leave with status 0; for ever when the path never appears. *)
Lemma fork_then_exit_parent_parent msg s child rest :
  fault_now s = None -> s_forks s = ForkParent child :: rest ->
  let p := path (s_the_pidfile s) in
  let found := appears p (s_files s) (s_env s) in
  exists s', fork_then_exit_parent (Some ThePidFile) msg s =
               match found with Some _ => Exited 0 s' | None => Hangs s' end /\
    s_trace s' = s_trace s ++
      CFork :: poll_calls p (default (length (s_env s)) found) ++ exit_calls found.
Proof.
  intros Hf Hforks p found. unfold fork_then_exit_parent, try_except.
  pose proof (os_fork_eq s Hf) as Hfork. rewrite Hforks in Hfork.
  bind_step Hfork. change (Z.pos child >? 0)%Z with true. cbv iota.
  unfold bind, wait_for_pidfile.
  set (s1 := set_forks rest (log CFork s)).
  destruct (poll_pidfile_spec (s_env s1) s1 eq_refl) as (s' & E & T).
  rewrite E. clear E. subst found.
  change (path (s_the_pidfile s1)) with p in *. change (s_env s1) with (s_env s) in *.
  change (s_files s1) with (s_files s) in *.
  destruct (appears p (s_files s) (s_env s)) as [k|]; simpl in *.
  - eexists. split; [reflexivity|]. simpl. rewrite T. simpl.
    by rewrite <- !app_assoc.
  - exists s'. split; [done|]. rewrite T. simpl. by rewrite <- !app_assoc, app_nil_r.
Qed.

Lemma fork_then_exit_parent_child pidfile msg s new_pid rest :
  fault_now s = None -> s_forks s = ForkChild new_pid :: rest ->
  fork_then_exit_parent pidfile msg s =
    Normal tt (set_pid new_pid (set_forks rest (log CFork s))).
Proof.
  intros Hf Hforks. unfold fork_then_exit_parent, try_except.
  pose proof (os_fork_eq s Hf) as Hfork. rewrite Hforks in Hfork.
  by bind_step Hfork.
Qed.

Lemma fork_then_exit_parent_no_pidfile msg s child rest :
  fault_now s = None -> s_forks s = ForkParent child :: rest ->
  fork_then_exit_parent None msg s = Raised no_path_error (set_forks rest (log CFork s)).
Proof.
  intros Hf Hforks. unfold fork_then_exit_parent, try_except.
  pose proof (os_fork_eq s Hf) as Hfork. rewrite Hforks in Hfork.
  bind_step Hfork. change (Z.pos child >? 0)%Z with true. cbv iota.
  unfold bind at 1. unfold wait_for_pidfile.
  match goal with |- context [poll_pidfile None ?n] => destruct n end; reflexivity.
Qed.

Lemma os_setsid_eq s : fault_now s = None -> os_setsid s = Normal tt (log CSetsid s).
Proof. intros Hf. unfold os_setsid, call. by rewrite Hf. Qed.

(** ** Activation as a sequence of steps *)

Lemma open_already_open s :
  _is_open (s_self s) = true -> DaemonContext.open s = Normal tt s.
Proof. intros H. unfold DaemonContext.open, bind. simpl. by rewrite H. Qed.

Lemma bind_ext_run {A B} (m : M A) (k k' : A -> M B) s :
  (forall a s1, k a s1 = k' a s1) -> bind m k s = bind m k' s.
Proof. intros H. unfold bind. destruct (m s); auto. Qed.

Lemma is_open_eq s : DaemonContext.is_open s = Normal (_is_open (s_self s)) s.
Proof. reflexivity. Qed.

Lemma self_eq s : DaemonContext.self s = Normal (s_self s) s.
Proof. reflexivity. Qed.

Lemma open_steps s :
  _is_open (s_self s) = false ->
  DaemonContext.open s = run_steps (activation_steps (s_self s)) s.
Proof.
  intros H. unfold DaemonContext.open.
  bind_step (is_open_eq s). rewrite H. bind_step (self_eq s).
  cbn [run_steps activation_steps].
  do 6 (apply bind_ext_run; intros [] ?).
  rewrite bind_assoc. apply bind_ext_run; intros ? ?.
  apply bind_ext_run; intros [] ?.
  rewrite bind_assoc. apply bind_ext_run; intros ? ?.
  apply bind_ext_run; intros [] ?.
  do 2 (rewrite bind_assoc; apply bind_ext_run; intros [] ?).
  apply bind_ext_run; intros [] ?.
  do 2 (apply bind_ext_run; intros [] ?).
  unfold bind. by destruct (register_atexit_function _ _) as [[]| | |].
Qed.

(** ** Steps 1 to 5 on a platform that refuses nothing *)

Ltac quiet_run Hq :=
  unfold try_except, bind, call, fault_now; simpl; rewrite ?Hq; simpl.

Lemma change_root_directory_quiet d s :
  quiet s -> change_root_directory d s = Normal tt (log (CChroot d) (log (CChdir d) s)).
Proof. intros Hq. unfold change_root_directory, os_chdir, os_chroot. by quiet_run Hq. Qed.

Lemma prevent_core_dump_quiet s :
  quiet s ->
  prevent_core_dump s =
    Normal tt (set_core_limit (0, 0)%Z (log (CSetrlimitCore 0 0) (log CGetrlimitCore s))).
Proof.
  intros Hq. unfold prevent_core_dump, resource_getrlimit_core, resource_setrlimit_core.
  by quiet_run Hq.
Qed.

Lemma change_file_creation_mask_quiet mask s :
  quiet s -> change_file_creation_mask mask s = Normal tt (log (CUmask mask) s).
Proof. intros Hq. unfold change_file_creation_mask, os_umask. by quiet_run Hq. Qed.

Lemma change_working_directory_quiet d s :
  quiet s -> change_working_directory d s = Normal tt (log (CChdir d) s).
Proof. intros Hq. unfold change_working_directory, os_chdir. by quiet_run Hq. Qed.

Lemma change_process_owner_quiet u g s :
  quiet s -> change_process_owner u g s = Normal tt (log (CSetuid u) (log (CSetgid g) s)).
Proof. intros Hq. unfold change_process_owner, os_setgid, os_setuid. by quiet_run Hq. Qed.

Lemma owner_changed_plat c s : s_plat (owner_changed c s) = s_plat s.
Proof. unfold owner_changed. by destruct (chroot_directory c), (prevent_core c). Qed.

Lemma owner_changed_frame c s :
  s_forks (owner_changed c s) = s_forks s /\ s_self (owner_changed c s) = s_self s /\
  s_the_pidfile (owner_changed c s) = s_the_pidfile s /\
  s_files (owner_changed c s) = s_files s /\ s_env (owner_changed c s) = s_env s /\
  s_fds (owner_changed c s) = s_fds s /\ s_pid (owner_changed c s) = s_pid s.
Proof. unfold owner_changed. by destruct (chroot_directory c), (prevent_core c). Qed.

Lemma steps_to_owner_quiet c s :
  quiet s ->
  run_steps (activation_steps c) s =
    run_steps (drop 5 (activation_steps c)) (owner_changed c s).
Proof.
  intros Hq. cbn [activation_steps run_steps drop]. unfold owner_changed.
  set (s1 := match chroot_directory c with Some d => _ | None => s end).
  assert (match chroot_directory c with
          | Some d => change_root_directory d
          | None => ret tt
          end s = Normal tt s1) as E1.
  { subst s1. destruct (chroot_directory c); [by apply change_root_directory_quiet | done]. }
  assert (quiet s1) as Hq1.
  { apply (quiet_plat s); [done|]. subst s1. by destruct (chroot_directory c). }
  bind_step E1.
  set (s2 := if prevent_core c then _ else s1).
  assert (when (prevent_core c) prevent_core_dump s1 = Normal tt s2) as E2.
  { subst s2. destruct (prevent_core c); [by apply prevent_core_dump_quiet | done]. }
  assert (quiet s2) as Hq2.
  { apply (quiet_plat s1); [done|]. subst s2. by destruct (prevent_core c). }
  bind_step E2.
  bind_step (change_file_creation_mask_quiet (umask c) s2 Hq2).
  rewrite (bind_eq_normal _ _ _ _ _ (change_working_directory_quiet _ _
             (quiet_plat s2 (log (CUmask (umask c)) s2) Hq2 eq_refl))).
  rewrite (bind_eq_normal _ _ _ _ _ (change_process_owner_quiet _ _ _
             (quiet_plat s2 (log (CChdir (working_directory c)) (log (CUmask (umask c)) s2))
                Hq2 eq_refl))).
  done.
Qed.

(** ** The claims about detaching *)

(** C3, as stated, fails: the parent of the second fork does not leave at
    once.  Here it asks for the path of the pid file, sleeps, asks again and
    only then leaves with status 0. *)
Lemma detach_second_parent_polls :
  exists s', detach_process_context (Some ThePidFile) second_parent_state = Exited 0 s' /\
    s_trace s' =
      [CFork; CSetsid; CFork; CPathExists "/run/queryserver.pid"; CSleep 100;
       CPathExists "/run/queryserver.pid"; CExit 0].
Proof.
  exists (final_state (detach_process_context (Some ThePidFile) second_parent_state)).
  split; vm_compute; reflexivity.
Qed.

(** C3, amended: after each of the two forks the parent polls, at the fixed
    interval of 100 ms, for the path of the pid file and leaves with status 0
    once it exists (and waits for ever if it never does); the parent of the
    second fork polls exactly as the parent of the first; the child of the
    second fork goes on as the daemon. *)
Theorem detach_process_context_parents_poll (s : State) :
  quiet s ->
  let p := path (s_the_pidfile s) in
  let found := appears p (s_files s) (s_env s) in
  let polls := poll_calls p (default (length (s_env s)) found) ++ exit_calls found in
  (forall child rest, s_forks s = ForkParent child :: rest ->
     exists s', detach_process_context (Some ThePidFile) s =
                  match found with Some _ => Exited 0 s' | None => Hangs s' end /\
       s_trace s' = s_trace s ++ CFork :: polls) /\
  (forall new_pid child rest, s_forks s = ForkChild new_pid :: ForkParent child :: rest ->
     exists s', detach_process_context (Some ThePidFile) s =
                  match found with Some _ => Exited 0 s' | None => Hangs s' end /\
       s_trace s' = s_trace s ++ [CFork; CSetsid; CFork] ++ polls) /\
  (forall pid1 pid2 rest, s_forks s = ForkChild pid1 :: ForkChild pid2 :: rest ->
     exists s', detach_process_context (Some ThePidFile) s = Normal tt s' /\
       s_trace s' = s_trace s ++ [CFork; CSetsid; CFork] /\ s_pid s' = pid2).
Proof.
  intros Hq p found polls. pose proof (quiet_fault_now s s Hq eq_refl) as Hf.
  unfold detach_process_context. split; [|split].
  - intros child rest Hforks.
    destruct (fork_then_exit_parent_parent "Failed first fork" s child rest Hf Hforks)
      as (s' & E & T).
    exists s'. unfold bind. rewrite E. fold p found in E, T |- *.
    split; [by destruct found | done].
  - intros new_pid child rest Hforks.
    bind_step (fork_then_exit_parent_child (Some ThePidFile) "Failed first fork"
                 s new_pid _ Hf Hforks).
    set (s1 := set_pid _ _).
    bind_step (os_setsid_eq s1 (quiet_fault_now s s1 Hq eq_refl)).
    destruct (fork_then_exit_parent_parent "Failed second fork" (log CSetsid s1) child rest
                (quiet_fault_now s (log CSetsid s1) Hq eq_refl) eq_refl) as (s' & E & T).
    exists s'. split; [exact E|]. rewrite T. simpl. by rewrite <- !app_assoc.
  - intros pid1 pid2 rest Hforks.
    bind_step (fork_then_exit_parent_child (Some ThePidFile) "Failed first fork"
                 s pid1 _ Hf Hforks).
    set (s1 := set_pid _ _).
    bind_step (os_setsid_eq s1 (quiet_fault_now s s1 Hq eq_refl)).
    rewrite (fork_then_exit_parent_child (Some ThePidFile) "Failed second fork"
               (log CSetsid s1) pid2 rest
               (quiet_fault_now s (log CSetsid s1) Hq eq_refl) eq_refl).
    eexists. split; [reflexivity|]. simpl. by rewrite <- !app_assoc.
Qed.

Lemma detach_process_context_parents_poll_witness :
  exists s', detach_process_context (Some ThePidFile) second_parent_state = Exited 0 s' /\
    s_trace s' =
      [CFork; CSetsid; CFork] ++
      [CPathExists "/run/queryserver.pid"; CSleep 100;
       CPathExists "/run/queryserver.pid"; CExit 0].
Proof.
  destruct (detach_process_context_parents_poll second_parent_state) as (_ & H & _);
    [by intros n|].
  destruct (H 4243%Z 4244%positive [] eq_refl) as (s' & E & T).
  exists s'. split; [exact E | exact T].
Defined.

(** C9: with [detach_process] true and no pid file, the parent of the first
    fork reads [pidfile.path] on [None] and ends with an [AttributeError]
    instead of leaving with status 0; this is what [open] then raises. *)
Theorem detach_without_pidfile (s : State) (child : positive) (rest : list ForkResult) :
  s_forks s = ForkParent child :: rest ->
  (fault_now s = None ->
   detach_process_context None s = Raised no_path_error (set_forks rest (log CFork s))) /\
  (quiet s -> _is_open (s_self s) = false ->
   detach_process (s_self s) = true -> pidfile (s_self s) = None ->
   exists s', DaemonContext.open s = Raised no_path_error s' /\
     exc_class no_path_error = AttributeError /\
     last (s_trace s') = Some CFork /\
     _is_open (s_self s') = false).
Proof.
  intros Hforks. split.
  - intros Hf. unfold detach_process_context, bind.
    by rewrite (fork_then_exit_parent_no_pidfile _ s child rest Hf Hforks).
  - intros Hq Hclosed Hdetach Hnone.
    rewrite (open_steps s Hclosed), (steps_to_owner_quiet _ s Hq).
    cbn [activation_steps drop run_steps]. rewrite Hdetach, Hnone. cbn [when].
    set (s5 := owner_changed (s_self s) s).
    destruct (owner_changed_frame (s_self s) s) as (F1 & F2 & _).
    fold s5 in F1, F2.
    unfold bind at 1. unfold detach_process_context, bind at 1.
    rewrite (fork_then_exit_parent_no_pidfile _ s5 child rest).
    + eexists. split; [reflexivity|]. split; [done|]. split.
      * change (last (s_trace s5 ++ [CFork]) = Some CFork). apply last_snoc.
      * change (_is_open (s_self s5) = false). by rewrite F2.
    + apply (quiet_fault_now s); [done | apply owner_changed_plat].
    + by rewrite F1.
Qed.

Lemma detach_without_pidfile_witness :
  exists s', DaemonContext.open no_pidfile_state = Raised no_path_error s' /\
    last (s_trace s') = Some CFork.
Proof.
  destruct (detach_without_pidfile no_pidfile_state 4243%positive [] eq_refl) as [_ H].
  destruct H as (s' & E & _ & L & _); [by intros n | reflexivity | reflexivity | reflexivity |].
  exists s'. split; [exact E | exact L].
Defined.

(** ** The pid file *)

Lemma string_app_nil_r (x : string) : x +:+ "" = x.
Proof.
  induction x as [|a x IH]; [done|].
  change (String a (x +:+ "") = String a x). by rewrite IH.
Qed.

Lemma substring_0_0 (x : string) : String.substring 0 0 x = "".
Proof. by destruct x. Qed.

(** [int(str(n))] is [n]. *)
Lemma py_int_str_str z : py_int_str (py_str_int z) = Some z.
Proof.
  unfold py_int_str, py_str_int. rewrite NilZero.isi.
  - simpl. f_equal. apply DecimalZ.of_to.
  - destruct z; simpl; try discriminate. intros [= H]. by apply Unsigned.to_uint_nonnil in H.
  - destruct z; simpl; try discriminate. intros [= H]. by apply Unsigned.to_uint_nonnil in H.
Qed.

Lemma write_out_open p c buf pos s :
  pidfile_open_at p c buf pos s ->
  exists s', write_out s = (inr tt, s') /\
    pidfile_open_at p (c +:+ buf) "" pos s' /\ file_step s s' /\ s_trace s' = s_trace s.
Proof.
  intros (Hfd & Hfile & Hcl & Hbuf & Hpos). unfold write_out.
  destruct (decide (pf_buf (the_handle s) = "")) as [E|E].
  - exists s. split; [done|]. split; [|done].
    rewrite <- Hbuf, E, string_app_nil_r. by rewrite E in Hbuf.
  - rewrite Hfd. eexists. split; [reflexivity|]. split; [|done].
    unfold pidfile_open_at. simpl. rewrite lookup_alter_eq, Hfile, Hbuf. done.
Qed.

Lemma file_seek_eq n p c buf pos s :
  pidfile_open_at p c buf pos s ->
  exists s', file_seek n s =
      match fault_now s with
      | Some f => Raised (os_error OSError f) (log (CFileSeek (pf_fd (the_handle s)) n) s)
      | None => Normal tt s'
      end /\
    pidfile_open_at p (c +:+ buf) "" n s' /\ file_step s s'.
Proof.
  intros H. pose proof H as (Hfd & Hfile & Hcl & Hbuf & Hpos).
  unfold file_seek, if_open, call. rewrite Hcl.
  set (s0 := log _ s).
  destruct (write_out_open p c buf pos s0 H) as (s1 & -> & H1 & F1 & _).
  destruct H1 as (Hfd1 & Hfile1 & Hcl1 & Hbuf1 & Hpos1).
  destruct F1 as (? & ? & ? & ? & Hh & ? & Hfds).
  change (pf_fd (the_handle s0)) with (pf_fd (the_handle s)) in Hh.
  rewrite <- Hh, Hfd1. simpl.
  eexists. split; [reflexivity|]. subst s0. simpl in *. split.
  - unfold pidfile_open_at. simpl. done.
  - unfold file_step. simpl. done.
Qed.

Lemma file_truncate_eq p c buf pos s :
  pidfile_open_at p c buf pos s ->
  exists s', file_truncate s =
      match fault_now s with
      | Some f => Raised (os_error OSError f) (log (CFileTruncate (pf_fd (the_handle s))) s)
      | None => Normal tt s'
      end /\
    pidfile_open_at p (String.substring 0 pos (c +:+ buf)) "" pos s' /\ file_step s s'.
Proof.
  intros H. pose proof H as (Hfd & Hfile & Hcl & Hbuf & Hpos).
  unfold file_truncate, if_open, call. rewrite Hcl.
  set (s0 := log _ s).
  destruct (write_out_open p c buf pos s0 H) as (s1 & -> & H1 & F1 & _).
  destruct H1 as (Hfd1 & Hfile1 & Hcl1 & Hbuf1 & Hpos1).
  destruct F1 as (? & ? & ? & ? & Hh & ? & Hfds).
  change (pf_fd (the_handle s0)) with (pf_fd (the_handle s)) in Hh.
  rewrite <- Hh, Hfd1. rewrite Hpos.
  eexists. split; [reflexivity|]. split.
  - unfold pidfile_open_at. simpl. by rewrite lookup_alter_eq, Hfile1.
  - unfold file_step. simpl. done.
Qed.

Lemma file_write_eq data p c buf pos s :
  pidfile_open_at p c buf pos s ->
  exists s', file_write data s =
      match fault_now s with
      | Some f => Raised (os_error OSError f) (log (CFileWrite (pf_fd (the_handle s)) data) s)
      | None => Normal tt s'
      end /\
    pidfile_open_at p c (buf +:+ data) pos s' /\ file_step s s'.
Proof.
  intros (Hfd & Hfile & Hcl & Hbuf & Hpos).
  unfold file_write, if_open, call. rewrite Hcl.
  eexists. split; [reflexivity|].
  change (the_handle (log (CFileWrite (pf_fd (the_handle s)) data) s)) with (the_handle s).
  split.
  - unfold pidfile_open_at. unfold the_handle in *. simpl. by rewrite Hbuf.
  - unfold file_step, the_handle. simpl. done.
Qed.

Lemma file_flush_eq p c buf pos s :
  pidfile_open_at p c buf pos s ->
  exists s', file_flush s =
      match fault_now s with
      | Some f => Raised (os_error OSError f) (log (CFileFlush (pf_fd (the_handle s))) s)
      | None => Normal tt s'
      end /\
    pidfile_open_at p (c +:+ buf) "" pos s' /\ file_step s s'.
Proof.
  intros H. pose proof H as (Hfd & Hfile & Hcl & Hbuf & Hpos).
  unfold file_flush, if_open, call. rewrite Hcl.
  set (s0 := log _ s).
  destruct (write_out_open p c buf pos s0 H) as (s1 & -> & H1 & F1 & _).
  exists s1. done.
Qed.

Lemma builtin_open_eq p s :
  exists f s1, builtin_open p s =
      match fault_now s with
      | Some e => Raised (os_error OSError e) (log (COpen p) s)
      | None => Normal f s1
      end /\
    pf_fd f = lowest_free (s_fds s) /\
    pidfile_open_at p (default "" (s_files s !! p)) ""
      (String.length (default "" (s_files s !! p))) (set_handle f s1) /\
    s_pid s1 = s_pid s /\ s_plat s1 = s_plat s /\ s_locks s1 = s_locks s /\
    s_the_pidfile s1 = s_the_pidfile s /\ s_self s1 = s_self s.
Proof.
  unfold builtin_open, call. eexists _, _. split; [reflexivity|]. split; [done|].
  split; [|done]. unfold pidfile_open_at. simpl. by rewrite !lookup_insert_eq.
Qed.

(** The attempt to lock of [__init__] and [__enter__]: any refusal ends in
    [sys.exit(enter_err_msg)]. *)
Lemma try_flock_eq msg p c buf pos s :
  pidfile_open_at p c buf pos s ->
  let fd := pf_fd (the_handle s) in
  let s1 := log (CFlock fd LOCK_EX_NB) s in
  try_except (let* fd := file_fileno in fcntl_flock fd LOCK_EX_NB)
             IOError (fun _ => sys_exit msg) s =
    match fault_now s with
    | Some f => Raised (SystemExit_of msg) (set_exc_info (Some (os_error OSError f)) s1)
    | None =>
        match s_locks s !! p with
        | None => Normal tt (set_locks (<[p := Own fd]> (s_locks s)) s1)
        | Some h =>
            if decide (h = Own fd) then Normal tt s1
            else Raised (SystemExit_of msg)
                   (set_exc_info (Some (os_error OSError fault_EAGAIN)) s1)
        end
    end.
Proof.
  intros (Hfd & Hfile & Hcl & Hbuf & Hpos) fd s1.
  unfold try_except, bind, file_fileno, if_open. rewrite Hcl.
  unfold ret, fcntl_flock, call. fold fd. destruct (fault_now s); [done|].
  change (s_fds (log (CFlock fd LOCK_EX_NB) s)) with (s_fds s). fold fd in Hfd. rewrite Hfd.
  change (s_locks (log (CFlock fd LOCK_EX_NB) s)) with (s_locks s).
  destruct (s_locks s !! p) as [h|]; [|done]. by destruct (decide (h = Own fd)).
Qed.

Lemma get_eq s : get s = Normal s s.
Proof. reflexivity. Qed.

Lemma os_getpid_eq s : os_getpid s = Normal (s_pid s) (log CGetpid s).
Proof. reflexivity. Qed.

Lemma outcome_spec_impl (Q Q' : State -> Prop) (r r' : Prop) o :
  outcome_spec Q r o -> (forall s', Q s' -> Q' s') -> (r -> r') -> outcome_spec Q' r' o.
Proof. destruct o; simpl; auto. Qed.

Lemma file_step_trans s1 s2 s3 : file_step s1 s2 -> file_step s2 s3 -> file_step s1 s3.
Proof. unfold file_step. intros H1 H2. destruct_and!. repeat split; congruence. Qed.

Lemma file_step_quiet s s' f : file_step s s' -> quiet s -> fault_now s' = Some f -> False.
Proof.
  intros (_ & P & _) Hq Hf. by rewrite (quiet_fault_now s s' Hq P) in Hf.
Qed.

(** The second half of [__enter__]: rewind, truncate, write the pid, flush,
    rewind. *)
Lemma PidFile__enter___tail p c pos s :
  pidfile_open_at p c "" pos s ->
  outcome_spec
    (fun s' => pidfile_open_at p (py_str_int (s_pid s)) "" 0 s' /\ file_step s s')
    (~ quiet s)
    ((file_seek 0 ;; file_truncate ;;
      let* pid := os_getpid in
      file_write (py_str_int pid) ;; file_flush ;; file_seek 0) s).
Proof.
  intros O.
  destruct (file_seek_eq 0 _ _ _ _ s O) as (s1 & E1 & O1 & F1).
  unfold bind at 1. rewrite E1. clear E1.
  destruct (fault_now s) eqn:X0; [simpl; intros Hq; by rewrite (quiet_fault_now s s Hq) in X0|].
  destruct (file_truncate_eq _ _ _ _ s1 O1) as (s2 & E2 & O2 & F2).
  unfold bind at 1. rewrite E2. clear E2.
  destruct (fault_now s1) eqn:X1;
    [simpl; intros Hq; exact (file_step_quiet _ _ _ F1 Hq X1)|].
  pose proof (file_step_trans _ _ _ F1 F2) as F02.
  bind_step (os_getpid_eq s2).
  assert (pidfile_open_at p "" "" 0 (log CGetpid s2)) as O2'.
  { by rewrite substring_0_0 in O2. }
  assert (file_step s (log CGetpid s2)) as F02' by exact F02.
  destruct (file_write_eq (py_str_int (s_pid s2)) _ _ _ _ _ O2') as (s3 & E3 & O3 & F3).
  unfold bind at 1. rewrite E3. clear E3.
  destruct (fault_now (log CGetpid s2)) eqn:X2;
    [simpl; intros Hq; exact (file_step_quiet _ _ _ F02' Hq X2)|].
  pose proof (file_step_trans _ _ _ F02' F3) as F03.
  destruct (file_flush_eq _ _ _ _ s3 O3) as (s4 & E4 & O4 & F4).
  unfold bind at 1. rewrite E4. clear E4.
  destruct (fault_now s3) eqn:X3;
    [simpl; intros Hq; exact (file_step_quiet _ _ _ F03 Hq X3)|].
  pose proof (file_step_trans _ _ _ F03 F4) as F04.
  destruct (file_seek_eq 0 _ _ _ _ s4 O4) as (s5 & E5 & O5 & F5).
  rewrite E5. clear E5.
  destruct (fault_now s4) eqn:X4;
    [simpl; intros Hq; exact (file_step_quiet _ _ _ F04 Hq X4)|].
  simpl. split; [|by eapply file_step_trans].
  destruct F02 as (Hpid & _). rewrite Hpid in O5.
  by rewrite string_app_nil_r in O5.
Qed.

Lemma PidFile__enter___spec s :
  outcome_spec (held (s_pid s) s)
    (~ (quiet s /\ s_locks s !! path (s_the_pidfile s) = None))
    (PidFile.__enter__ s).
Proof.
  set (p := path (s_the_pidfile s)).
  unfold PidFile.__enter__. bind_step (get_eq s). fold p.
  destruct (builtin_open_eq p s) as (f & s1 & E & Hf & O1 & Pid1 & Pl1 & L1 & T1 & S1).
  unfold bind at 1. rewrite E. clear E.
  destruct (fault_now s) eqn:F0;
    [simpl; intros [Hq _]; by rewrite (quiet_fault_now s s Hq) in F0|].
  unfold bind at 1. unfold modify at 1.
  set (s2 := set_handle f s1) in *.
  unfold bind at 1. rewrite (try_flock_eq _ _ _ _ _ s2 O1).
  destruct (fault_now s2) eqn:F2;
    [simpl; intros [Hq _]; by rewrite (quiet_fault_now s s2 Hq) in F2|].
  change (s_locks s2) with (s_locks s1). rewrite L1.
  set (fd := pf_fd (the_handle s2)).
  assert (forall s3, pidfile_open_at p (default "" (s_files s !! p)) ""
                       (String.length (default "" (s_files s !! p))) s3 ->
            s_locks s3 !! p = Some (Own fd) -> pf_fd (the_handle s3) = fd ->
            s_pid s3 = s_pid s -> s_plat s3 = s_plat s ->
            path (s_the_pidfile s3) = p -> s_self s3 = s_self s ->
            outcome_spec (held (s_pid s) s) (~ (quiet s /\ s_locks s !! p = None))
              ((file_seek 0 ;; file_truncate ;;
                let* pid := os_getpid in
                file_write (py_str_int pid) ;; file_flush ;; file_seek 0) s3)) as Tail.
  { intros s3 O3 L3 A5 A1 A2 A4 A6.
    eapply outcome_spec_impl; [apply (PidFile__enter___tail _ _ _ s3 O3) | |].
    - intros s' (O' & (B1 & B2 & B3 & B4 & B5 & B6 & B7)). unfold held. fold p.
      rewrite A1 in O'. split; [exact O'|].
      split; [by rewrite B3, B5, A5|].
      split; [congruence|]. split; [congruence|]. split; congruence.
    - intros Hn [Hq _]. apply Hn. exact (quiet_plat s s3 Hq A2). }
  assert (path (s_the_pidfile s2) = p) as Hp2 by (subst s2 p; simpl; by rewrite T1).
  destruct (s_locks s !! p) as [h|] eqn:HL.
  - destruct (decide (h = Own fd)) as [->|Hne];
      [|simpl; intros [_ Hl]; congruence].
    apply Tail; try done.
    change (s_locks s1 !! p = Some (Own fd)). by rewrite L1.
  - apply Tail; try done.
    change (<[p := Own fd]> (s_locks s) !! p = Some (Own fd)). apply lookup_insert_eq.
Qed.

Lemma os_remove_eq p s :
  os_remove p s =
    match fault_now s with
    | Some f => Raised (os_error OSError f) (log (CRemove p) s)
    | None =>
        if bool_decide (is_Some (s_files s !! p))
        then Normal tt (set_locks (delete p (s_locks s))
                          (set_files (delete p (s_files s)) (log (CRemove p) s)))
        else Raised (os_error OSError fault_ENOENT) (log (CRemove p) s)
    end.
Proof. unfold os_remove, call. destruct (fault_now s); [done|]. simpl. by case_bool_decide. Qed.

Lemma write_out_path s :
  path (s_the_pidfile (write_out s).2) = path (s_the_pidfile s) /\
  s_self (write_out s).2 = s_self s.
Proof.
  unfold write_out. destruct (decide _); [done|]. by destruct (s_fds s !! _).
Qed.

(** The first half of [__exit__]: when it returns, the file object is
    closed. *)
Lemma PidFile__exit___close s s1 :
  try_except file_close IOError (fun err =>
      if decide (exc_errno err ≠ Some 9%Z) then raise err else ret tt) s = Normal tt s1 ->
  pf_closed (the_handle s1) = true /\
  path (s_the_pidfile s1) = path (s_the_pidfile s) /\ s_self s1 = s_self s.
Proof.
  unfold try_except, file_close.
  destruct (pf_closed (the_handle s)) eqn:Hcl; [by intros [= <-]|].
  destruct (fault_now s) as [e|].
  - replace (isinstance (os_error OSError e) IOError) with true by done.
    destruct (decide _); [done|]. simpl. by intros [= <-].
  - pose proof (write_out_path (log (CFileClose (pf_fd (the_handle s))) s)) as [Hp Hs].
    destruct (write_out _) as [[e|[]] s2]; simpl in Hp, Hs.
    + replace (isinstance (os_error OSError e) IOError) with true by done.
      destruct (decide _); [done|]. simpl. by intros [= <-].
    + case_bool_decide.
      * by intros [= <-].
      * replace (isinstance (os_error OSError fault_EBADF) IOError) with true by done.
        destruct (decide _); [done|]. simpl. by intros [= <-].
Qed.

Lemma PidFile__exit___normal s s' :
  PidFile.__exit__ s = Normal tt s' ->
  s_files s' !! path (s_the_pidfile s) = None /\ pf_closed (the_handle s') = true /\
  s_self s' = s_self s.
Proof.
  unfold PidFile.__exit__. intros H.
  apply bind_normal in H as ([] & s1 & H1 & H2).
  apply PidFile__exit___close in H1 as (Hcl & Hp & Hs).
  rewrite (bind_eq_normal _ _ _ _ _ (get_eq s1)) in H2. rewrite os_remove_eq, Hp in H2.
  destruct (fault_now s1); [done|]. case_bool_decide; [|done].
  injection H2 as <-. simpl. by rewrite lookup_delete_eq.
Qed.

(** Leaving the scope when the pid file is held and nothing is refused. *)
Lemma PidFile__exit___held p c buf pos s :
  pidfile_open_at p c buf pos s -> path (s_the_pidfile s) = p -> quiet s ->
  exists s', PidFile.__exit__ s = Normal tt s' /\
    s_files s' !! p = None /\ s_fds s' !! pf_fd (the_handle s) = None /\
    s_locks s' !! p = None /\ pf_closed (the_handle s') = true /\
    s_trace s' = s_trace s ++ [CFileClose (pf_fd (the_handle s)); CRemove p] /\
    s_self s' = s_self s.
Proof.
  intros O Hp Hq. pose proof O as (Hfd & Hfile & Hcl & Hbuf & Hpos).
  unfold PidFile.__exit__.
  set (fd := pf_fd (the_handle s)) in *.
  set (s0 := log (CFileClose fd) s).
  destruct (write_out_open p c buf pos s0 O) as (s2 & Hw & O2 & F2 & T2).
  destruct O2 as (Hfd2 & Hfile2 & _).
  destruct F2 as (_ & Hpl2 & _ & Hp2 & Hh2 & Hs2 & Hfds2).
  change (pf_fd (the_handle s0)) with fd in Hh2.
  assert (try_except file_close IOError (fun err =>
            if decide (exc_errno err ≠ Some 9%Z) then raise err else ret tt) s =
          Normal tt (let s3 := set_handle (with_closed (the_handle s2)) s2 in
                     set_locks (release fd (s_locks s3))
                       (set_fds (delete fd (s_fds s3)) s3))) as E.
  { unfold try_except, file_close. rewrite Hcl, (quiet_fault_now s s Hq eq_refl).
    fold fd. fold s0. rewrite Hw. cbv zeta.
    rewrite bool_decide_eq_true_2; [done|].
    simpl. rewrite <- Hh2, Hfd2. by eexists. }
  bind_step E. cbv zeta. set (s4 := set_locks _ _).
  bind_step (get_eq s4). rewrite os_remove_eq.
  rewrite (quiet_fault_now s s4 Hq) by (subst s4; simpl; by rewrite Hpl2).
  change (path (s_the_pidfile s4)) with (path (s_the_pidfile s2)).
  rewrite Hp2. change (path (s_the_pidfile s0)) with (path (s_the_pidfile s)). rewrite Hp.
  change (s_files s4) with (s_files s2). rewrite bool_decide_eq_true_2 by (by eexists).
  eexists. split; [reflexivity|]. simpl.
  split; [apply lookup_delete_eq|]. split; [apply lookup_delete_eq|].
  split; [apply lookup_delete_eq|]. split; [done|].
  split; [rewrite T2; subst s0; simpl; by rewrite <- app_assoc|]. by rewrite Hs2.
Qed.

(** C4: entering the scope of a [PidFile] leaves at its path a file that
    holds the decimal process id and nothing else, whatever it held before,
    so that reading it back as an integer gives the process id; leaving the
    scope closes the file object and deletes the path.  Entering returns
    when nothing is refused and nobody holds the lock; leaving a held pid
    file returns when nothing is refused. *)
Theorem PidFile_enter_exit (s : State) :
  let p := path (s_the_pidfile s) in
  (forall s', PidFile.__enter__ s = Normal tt s' ->
     s_files s' !! p = Some (py_str_int (s_pid s)) /\
     (s_files s' !! p ≫= py_int_str) = Some (s_pid s) /\
     s_pid s' = s_pid s /\
     s_fds s' !! pf_fd (the_handle s') = Some p /\
     s_locks s' !! p = Some (Own (pf_fd (the_handle s')))) /\
  (quiet s -> s_locks s !! p = None -> is_normal (PidFile.__enter__ s) = true) /\
  (forall s', PidFile.__exit__ s = Normal tt s' ->
     s_files s' !! p = None /\ pf_closed (the_handle s') = true) /\
  (forall s1, PidFile.__enter__ s = Normal tt s1 -> quiet s ->
     exists s2, PidFile.__exit__ s1 = Normal tt s2 /\
       s_files s2 !! p = None /\ s_fds s2 !! pf_fd (the_handle s1) = None /\
       s_locks s2 !! p = None /\ pf_closed (the_handle s2) = true).
Proof.
  intros p. pose proof (PidFile__enter___spec s) as Spec. fold p in Spec.
  split; [|split; [|split]].
  - intros s' E. rewrite E in Spec. simpl in Spec. unfold held in Spec. fold p in Spec.
    destruct Spec as ((Hfd & Hfile & _) & Hl & Hpid & _).
    rewrite Hfile. simpl. by rewrite py_int_str_str.
  - intros Hq Hl. destruct (PidFile.__enter__ s); simpl in *; try done; by destruct Spec.
  - intros s' E. by destruct (PidFile__exit___normal s s' E) as (H1 & H2 & _).
  - intros s1 E Hq. rewrite E in Spec. simpl in Spec. unfold held in Spec. fold p in Spec.
    destruct Spec as (O & Hl & Hpid & Hp & _ & Hpl).
    destruct (PidFile__exit___held _ _ _ _ s1 O Hp (quiet_plat s s1 Hq Hpl))
      as (s2 & E2 & H1 & H2 & H3 & H4 & _).
    by exists s2.
Qed.

Lemma PidFile_enter_exit_witness :
  exists s', PidFile.__enter__ (example_state (quiet_platform 32 linux_signals) example_context)
             = Normal tt s' /\
    s_files s' !! "/run/queryserver.pid" = Some "4242".
Proof.
  destruct (PidFile_enter_exit (example_state (quiet_platform 32 linux_signals) example_context))
    as (H1 & H2 & _).
  pose proof (H2 (fun n => eq_refl) eq_refl) as Hn.
  destruct (PidFile.__enter__ _) as [[] s'| | |] eqn:E; try discriminate Hn.
  exists s'. split; [reflexivity|]. by destruct (H1 s' eq_refl) as (Hf & _).
Defined.

Lemma file_fileno_open p c buf pos s :
  pidfile_open_at p c buf pos s -> file_fileno s = Normal (pf_fd (the_handle s)) s.
Proof. intros (_ & _ & Hcl & _). unfold file_fileno, if_open. by rewrite Hcl. Qed.

Lemma fcntl_flock_refused p c buf pos s :
  pidfile_open_at p c buf pos s -> s_locks s !! p = Some Foreign ->
  exists f, fcntl_flock (pf_fd (the_handle s)) LOCK_EX_NB s =
    Raised (os_error OSError f) (log (CFlock (pf_fd (the_handle s)) LOCK_EX_NB) s).
Proof.
  intros (Hfd & _) Hl. unfold fcntl_flock, call.
  destruct (fault_now s) as [f|]; [by exists f|].
  change (s_fds (log _ s)) with (s_fds s). rewrite Hfd.
  change (s_locks (log _ s)) with (s_locks s). rewrite Hl.
  rewrite decide_False by done. by exists fault_EAGAIN.
Qed.

Lemma modify_eq f s : modify f s = Normal tt (f s).
Proof. reflexivity. Qed.

Lemma PidFile__init___locked path_ msg s :
  fault_now s = None -> s_locks s !! path_ = Some Foreign ->
  exists s', PidFile.__init__ path_ msg s = Raised (SystemExit_of msg) s' /\
    s_trace s' = s_trace s ++ [COpen path_; CFlock (lowest_free (s_fds s)) LOCK_EX_NB].
Proof.
  intros Hf Hl. unfold PidFile.__init__.
  bind_step (modify_eq (set_the_pidfile {| path := path_; enter_err_msg := msg;
                          pidfile_handle := PidFile.fresh_handle |}) s).
  set (s0 := set_the_pidfile _ s).
  destruct (builtin_open_eq path_ s0) as (f & s1 & E & Hfd & O1 & _ & _ & L1 & _).
  change (fault_now s0) with (fault_now s) in E. rewrite Hf in E.
  bind_step E. bind_step (modify_eq (set_handle f) s1).
  set (s2 := set_handle f s1) in *.
  destruct (fcntl_flock_refused _ _ _ _ s2 O1) as (e & Hflock).
  { change (s_locks s2) with (s_locks s1). by rewrite L1. }
  unfold try_except. bind_step (file_fileno_open _ _ _ _ s2 O1).
  unfold bind at 1. rewrite Hflock.
  replace (isinstance (os_error OSError e) IOError) with true by done.
  eexists. split; [reflexivity|]. simpl.
  assert (s_trace s1 = s_trace s ++ [COpen path_]) as ->.
  { unfold builtin_open, call in E. change (fault_now s0) with (fault_now s) in E.
    rewrite Hf in E. by injection E as _ <-. }
  rewrite <- app_assoc. simpl. do 4 f_equal. exact Hfd.
Qed.

Lemma PidFile__enter___locked s :
  fault_now s = None -> s_locks s !! path (s_the_pidfile s) = Some Foreign ->
  exists s', PidFile.__enter__ s =
               Raised (SystemExit_of (enter_err_msg (s_the_pidfile s))) s' /\
    s_trace s' = s_trace s ++
      [COpen (path (s_the_pidfile s)); CFlock (lowest_free (s_fds s)) LOCK_EX_NB].
Proof.
  intros Hf Hl. unfold PidFile.__enter__. bind_step (get_eq s).
  set (p := path (s_the_pidfile s)) in *.
  destruct (builtin_open_eq p s) as (f & s1 & E & Hfd & O1 & _ & _ & L1 & _).
  rewrite Hf in E.
  assert (s_trace s1 = s_trace s ++ [COpen p]) as T1.
  { unfold builtin_open, call in E. rewrite Hf in E. by injection E as _ <-. }
  bind_step E. bind_step (modify_eq (set_handle f) s1).
  set (s2 := set_handle f s1) in *.
  unfold bind at 1. rewrite (try_flock_eq _ _ _ _ _ s2 O1).
  change (s_locks s2) with (s_locks s1). rewrite L1, Hl.
  rewrite decide_False by done.
  destruct (fault_now s2); (eexists; split; [reflexivity|]); simpl;
    rewrite T1, <- app_assoc; simpl; do 4 f_equal; exact Hfd.
Qed.

Lemma try_except_normal {A} (body : M A) cls handler s a s' :
  body s = Normal a s' -> try_except body cls handler s = Normal a s'.
Proof. unfold try_except. by intros ->. Qed.

Lemma fcntl_flock_eq fd op p s :
  fault_now s = None -> s_fds s !! fd = Some p ->
  fcntl_flock fd op s =
    let s1 := log (CFlock fd op) s in
    match op with
    | LOCK_EX_NB =>
        match s_locks s !! p with
        | None => Normal tt (set_locks (<[p := Own fd]> (s_locks s)) s1)
        | Some h => if decide (h = Own fd) then Normal tt s1
                    else Raised (os_error OSError fault_EAGAIN) s1
        end
    | LOCK_UN =>
        Normal tt (if decide (s_locks s !! p = Some (Own fd))
                   then set_locks (delete p (s_locks s)) s1 else s1)
    end.
Proof.
  intros Hf Hfd. unfold fcntl_flock, call. rewrite Hf.
  change (s_fds (log _ s)) with (s_fds s). rewrite Hfd.
  change (s_locks (log _ s)) with (s_locks s).
  destruct op; [|done]. destruct (s_locks s !! p) as [h|]; [|done].
  by destruct (decide (h = Own fd)).
Qed.

Lemma file_close_open p c pos s :
  pidfile_open_at p c "" pos s -> fault_now s = None ->
  file_close s =
    Normal tt (let fd := pf_fd (the_handle s) in
               let s3 := set_handle (with_closed (the_handle s)) (log (CFileClose fd) s) in
               set_locks (release fd (s_locks s)) (set_fds (delete fd (s_fds s)) s3)).
Proof.
  intros (Hfd & Hfile & Hcl & Hbuf & Hpos) Hf. unfold file_close.
  rewrite Hcl, Hf. unfold write_out.
  change (the_handle (log _ s)) with (the_handle s). rewrite Hbuf.
  rewrite decide_True by done. cbv zeta.
  rewrite bool_decide_eq_true_2; [done|]. simpl. rewrite Hfd. by eexists.
Qed.

(** [PidFile.__init__] when nobody holds the lock and nothing is refused:
    open, lock, unlock, close, delete. *)
Lemma PidFile__init___free path_ msg s :
  quiet s -> s_locks s !! path_ = None ->
  let fd := lowest_free (s_fds s) in
  exists s', PidFile.__init__ path_ msg s = Normal tt s' /\
    s_trace s' = s_trace s ++
      [COpen path_; CFlock fd LOCK_EX_NB; CFlock fd LOCK_UN; CFileClose fd; CRemove path_] /\
    s_files s' !! path_ = None /\ s_locks s' !! path_ = None /\
    s_fds s' !! fd = None /\
    path (s_the_pidfile s') = path_ /\ enter_err_msg (s_the_pidfile s') = msg.
Proof.
  intros Hq Hl fd. unfold PidFile.__init__.
  bind_step (modify_eq (set_the_pidfile {| path := path_; enter_err_msg := msg;
                          pidfile_handle := PidFile.fresh_handle |}) s).
  set (s0 := set_the_pidfile _ s).
  destruct (builtin_open_eq path_ s0) as (f & s1 & E & Hfd & O1 & _ & Pl1 & L1 & T1 & _).
  change (fault_now s0) with (fault_now s) in E.
  rewrite (quiet_fault_now s s Hq eq_refl) in E.
  assert (s_trace s1 = s_trace s ++ [COpen path_]) as Tr1.
  { unfold builtin_open, call in E. change (fault_now s0) with (fault_now s) in E.
    rewrite (quiet_fault_now s s Hq eq_refl) in E. by injection E as _ <-. }
  bind_step E. bind_step (modify_eq (set_handle f) s1).
  set (s2 := set_handle f s1) in *.
  change (s_fds s0) with (s_fds s) in Hfd. fold fd in Hfd.
  pose proof O1 as (Hfd2 & Hfile2 & Hcl2 & Hbuf2 & Hpos2).
  change (pf_fd (the_handle s2)) with (pf_fd f) in Hfd2. rewrite Hfd in Hfd2.
  assert (forall s', s_plat s' = s_plat s1 -> fault_now s' = None) as Quiet.
  { intros s' Hp. apply (quiet_fault_now s); [done|]. by rewrite Hp, Pl1. }
  set (s3 := set_locks (<[path_ := Own fd]> (s_locks s2)) (log (CFlock fd LOCK_EX_NB) s2)).
  set (s4 := set_locks (delete path_ (s_locks s3)) (log (CFlock fd LOCK_UN) s3)).
  assert (pidfile_open_at path_ (default "" (s_files s0 !! path_)) ""
            (String.length (default "" (s_files s0 !! path_))) s4) as O4 by exact O1.
  assert (s_locks s2 !! path_ = None) as Hl2.
  { change (s_locks s2) with (s_locks s1). rewrite L1. exact Hl. }
  erewrite try_except_normal.
  2:{ bind_step (file_fileno_open _ _ _ _ s2 O1).
      change (pf_fd (the_handle s2)) with (pf_fd f). rewrite Hfd.
      unfold bind at 1. rewrite (fcntl_flock_eq fd LOCK_EX_NB path_ s2 (Quiet s2 eq_refl) Hfd2).
      cbv zeta. rewrite Hl2. fold s3.
      assert (file_fileno s3 = Normal fd s3) as E3.
      { unfold file_fileno, if_open. change (the_handle s3) with (the_handle s2).
        rewrite Hcl2. unfold ret. f_equal. exact Hfd. }
      bind_step E3.
      unfold bind at 1.
      rewrite (fcntl_flock_eq fd LOCK_UN path_ s3 (Quiet s3 eq_refl) Hfd2).
      cbv zeta. rewrite decide_True by apply lookup_insert_eq. fold s4.
      unfold bind at 1. rewrite (file_close_open _ _ _ s4 O4 (Quiet s4 eq_refl)).
      cbv zeta. rewrite os_remove_eq.
      rewrite Quiet by done.
      rewrite bool_decide_eq_true_2; [reflexivity|].
      change (is_Some (s_files s2 !! path_)). rewrite Hfile2. by eexists. }
  eexists. split; [reflexivity|]. simpl.
  change (pf_fd (the_handle s4)) with (pf_fd f). rewrite Hfd.
  split; [|split; [apply lookup_delete_eq|split; [apply lookup_delete_eq|]]].
  - rewrite Tr1, <- !app_assoc. done.
  - split; [apply lookup_delete_eq | by rewrite T1].
Qed.

(** C5, as stated, fails: when another process holds the lock, [__enter__]
    and [__init__] raise [SystemExit]; the process is still there, and a
    caller that has an [except SystemExit] clause goes on normally. *)
Lemma lock_failure_is_catchable :
  (exists s', PidFile.__enter__ locked_state =
                Raised (SystemExit_of (Some "already running")) s') /\
  (exists s', try_except PidFile.__enter__ SystemExit (fun _ => ret tt) locked_state
              = Normal tt s') /\
  (exists s', try_except (PidFile.__init__ "/run/queryserver.pid" (Some "already running"))
                SystemExit (fun _ => ret tt) locked_state
              = Normal tt s').
Proof.
  split; [|split].
  - exists (final_state (PidFile.__enter__ locked_state)). vm_compute. reflexivity.
  - exists (final_state
              (try_except PidFile.__enter__ SystemExit (fun _ => ret tt) locked_state)).
    vm_compute. reflexivity.
  - exists (final_state
              (try_except (PidFile.__init__ "/run/queryserver.pid" (Some "already running"))
                 SystemExit (fun _ => ret tt) locked_state)).
    vm_compute. reflexivity.
Qed.

(** C5, amended: when another process holds the lock, construction and
    scope entry both end in [sys.exit(enter_err_msg)], that is, they raise
    [SystemExit] with the configurable message, right after the attempt to
    lock; [SystemExit] is neither a [DaemonError] nor an [Exception], so
    only a clause for [SystemExit] or [BaseException] catches it.  When
    nobody holds the lock, construction opens the file, locks it, unlocks
    it, closes it and deletes the path. *)
Theorem lock_failure_raises_SystemExit (s : State) (path_ : string) (msg : option string) :
  fault_now s = None ->
  (s_locks s !! path_ = Some Foreign ->
   exists s', PidFile.__init__ path_ msg s = Raised (SystemExit_of msg) s' /\
     s_trace s' = s_trace s ++ [COpen path_; CFlock (lowest_free (s_fds s)) LOCK_EX_NB]) /\
  (s_locks s !! path (s_the_pidfile s) = Some Foreign ->
   exists s', PidFile.__enter__ s =
                Raised (SystemExit_of (enter_err_msg (s_the_pidfile s))) s' /\
     s_trace s' = s_trace s ++
       [COpen (path (s_the_pidfile s)); CFlock (lowest_free (s_fds s)) LOCK_EX_NB]) /\
  (isinstance (SystemExit_of msg) Exception = false /\
   isinstance (SystemExit_of msg) DaemonError = false /\
   isinstance (SystemExit_of msg) BaseException = true /\
   exc_args (SystemExit_of msg) = match msg with Some m => ArgsMsg m | None => ArgsNone end) /\
  (quiet s -> s_locks s !! path_ = None ->
   let fd := lowest_free (s_fds s) in
   exists s', PidFile.__init__ path_ msg s = Normal tt s' /\
     s_trace s' = s_trace s ++
       [COpen path_; CFlock fd LOCK_EX_NB; CFlock fd LOCK_UN; CFileClose fd; CRemove path_] /\
     s_files s' !! path_ = None).
Proof.
  intros Hf. split; [|split; [|split]].
  - intros Hl. by apply PidFile__init___locked.
  - intros Hl. by apply PidFile__enter___locked.
  - by destruct msg.
  - intros Hq Hl fd.
    destruct (PidFile__init___free path_ msg s Hq Hl) as (s' & E & T & F & _).
    by exists s'.
Qed.

Lemma lock_failure_raises_SystemExit_witness :
  exists s', PidFile.__enter__ locked_state =
               Raised (SystemExit_of (Some "already running")) s' /\
    s_trace s' = [COpen "/run/queryserver.pid"; CFlock 4 LOCK_EX_NB].
Proof.
  destruct (lock_failure_raises_SystemExit locked_state "/run/queryserver.pid" None eq_refl)
    as (_ & H & _).
  destruct (H eq_refl) as (s' & E & T).
  exists s'. split; [exact E | exact T].
Defined.

(** ** Dictionaries *)

Section dict_lemmas.
Context {K V : Type} `{EqDecision K}.
Implicit Types (k : K) (v : V) (d l : list (K * V)).

Lemma dict_get_set k k' v d :
  dict_get k (dict_set k' v d) = if decide (k = k') then Some v else dict_get k d.
Proof.
  induction d as [|[k0 v0] d IH]; simpl.
  - by destruct (decide (k = k')).
  - destruct (decide (k' = k0)) as [->|Hne]; simpl.
    + by destruct (decide (k = k0)).
    + destruct (decide (k = k0)) as [->|]; [|done].
      by rewrite decide_False by done.
Qed.

Lemma dict_get_fold k l d :
  dict_get k (fold_left (fun d kv => dict_set kv.1 kv.2 d) l d) =
    match dict_get k (reverse l) with
    | Some v => Some v
    | None => dict_get k d
    end.
Proof.
  revert d. induction l as [|[k0 v0] l IH]; intros d; [done|].
  simpl. rewrite IH, reverse_cons, dict_get_set. clear IH.
  induction (reverse l) as [|[k1 v1] r IHr]; simpl.
  - by destruct (decide (k = k0)).
  - destruct (decide (k = k1)); [done | exact IHr].
Qed.

(** After [dict(pairs)], a key holds the value of its last pair. *)
Lemma dict_get_of_pairs k l : dict_get k (dict_of_pairs l) = dict_get k (reverse l).
Proof. unfold dict_of_pairs. rewrite dict_get_fold. by destruct (dict_get k (reverse l)). Qed.

Lemma dict_get_Some_elem k v d : dict_get k d = Some v -> (k, v) ∈ d.
Proof.
  induction d as [|[k0 v0] d IH]; simpl; [done|].
  destruct (decide (k = k0)) as [->|]; [intros [= ->]; left | intros H; right; auto].
Qed.

Lemma dict_get_is_Some k v d : (k, v) ∈ d -> is_Some (dict_get k d).
Proof.
  induction d as [|[k0 v0] d IH]; [by intros ?%elem_of_nil|].
  intros [[= -> ->]|Hin]%elem_of_cons; simpl.
  - rewrite decide_True by done. by eexists.
  - destruct (decide (k = k0)); [by eexists | auto].
Qed.
End dict_lemmas.

Lemma dict_get_fmap {K V W} `{EqDecision K} (g : V -> W) (k : K) (d : list (K * V)) :
  dict_get k ((fun kv => (kv.1, g kv.2)) <$> d) = g <$> dict_get k d.
Proof.
  induction d as [|[k0 v0] d IH]; [done|]. simpl.
  by destruct (decide (k = k0)).
Qed.

Section dict_keys.
Context {K V : Type} `{EqDecision K}.
Implicit Types (k : K) (v : V) (d l : list (K * V)).

Lemma dict_set_keys k v d :
  (dict_set k v d).*1 = if decide (k ∈ d.*1) then d.*1 else d.*1 ++ [k].
Proof.
  induction d as [|[k0 v0] d IH]; [done|].
  cbn [dict_set fmap list_fmap fst].
  destruct (decide (k = k0)) as [->|Hne]; cbn [fmap list_fmap fst].
    + rewrite decide_True; [done | left].
    + rewrite IH. destruct (decide (k ∈ d.*1)) as [Hin|Hin].
      * rewrite decide_True; [done | by right].
      * rewrite decide_False; [done|]. by intros [?|?]%elem_of_cons.
Qed.

Lemma dict_set_NoDup k v d : NoDup d.*1 -> NoDup (dict_set k v d).*1.
Proof.
  intros Hd. rewrite dict_set_keys. destruct (decide (k ∈ d.*1)); [done|].
  apply NoDup_app. split; [done|]. split; [|apply NoDup_singleton].
  intros x Hx ->%list_elem_of_singleton. done.
Qed.

Lemma dict_of_pairs_NoDup l : NoDup (dict_of_pairs l).*1.
Proof.
  unfold dict_of_pairs. assert (NoDup (@nil (K * V)).*1) as H0 by constructor.
  revert H0. generalize (@nil (K * V)). induction l as [|[k v] l IH]; intros d Hd; [done|].
  simpl. apply IH. by apply dict_set_NoDup.
Qed.

Lemma dict_get_NoDup k v d : NoDup d.*1 -> dict_get k d = Some v <-> (k, v) ∈ d.
Proof.
  intros Hd. split; [apply dict_get_Some_elem|].
  induction d as [|[k0 v0] d IH]; [by intros ?%elem_of_nil|].
  simpl in Hd. apply NoDup_cons in Hd as [Hk0 Hd].
  intros [[= -> ->]|Hin]%elem_of_cons; simpl.
  - by rewrite decide_True.
  - rewrite decide_False; [by apply IH|]. intros ->. apply Hk0.
    apply list_elem_of_fmap. by exists (k0, v).
Qed.

Lemma dict_get_reverse k d : NoDup d.*1 -> dict_get k (reverse d) = dict_get k d.
Proof.
  intros Hd. assert (NoDup (reverse d).*1) as Hr.
  { rewrite fmap_reverse. by rewrite reverse_Permutation. }
  apply option_eq. intros v.
  rewrite (dict_get_NoDup k v _ Hr), (dict_get_NoDup k v _ Hd). apply elem_of_reverse.
Qed.
End dict_keys.

(** ** The default signal map *)

Lemma make_default_signal_map_elem signal n t :
  (n, t) ∈ make_default_signal_map signal ->
  exists name, (name, t) ∈ name_map /\ signal name = Some n.
Proof.
  intros Hin. unfold make_default_signal_map in Hin.
  apply (dict_get_NoDup n t _ (dict_of_pairs_NoDup _)) in Hin.
  rewrite dict_get_of_pairs in Hin. apply dict_get_Some_elem in Hin.
  rewrite elem_of_reverse in Hin.
  apply list_elem_of_omap in Hin as ([name t'] & Hname & Hsig). simpl in Hsig.
  destruct (signal name) as [n'|] eqn:E; [|done]. injection Hsig as -> ->.
  by exists name.
Qed.

Lemma make_default_signal_map_present signal name t n :
  (name, t) ∈ name_map -> signal name = Some n ->
  is_Some (dict_get n (make_default_signal_map signal)).
Proof.
  intros Hin Hsig. unfold make_default_signal_map. rewrite dict_get_of_pairs.
  apply (dict_get_is_Some n t). rewrite elem_of_reverse. apply list_elem_of_omap.
  exists (name, t). split; [done|]. simpl. by rewrite Hsig.
Qed.

Lemma make_default_signal_map_SIGTERM signal n :
  signal "SIGTERM" = Some n ->
  dict_get n (make_default_signal_map signal) = Some (TName "terminate").
Proof.
  intros Hsig. unfold make_default_signal_map. rewrite dict_get_of_pairs.
  change name_map with
    ([("SIGTSTP", TNone); ("SIGTTIN", TNone); ("SIGTTOU", TNone)] ++
     [("SIGTERM", TName "terminate")]).
  rewrite omap_app. set (l3 := omap _ [_; _; _]).
  cbn [omap list_omap fst snd]. rewrite Hsig.
  rewrite reverse_app. change (reverse [(n, TName "terminate")]) with [(n, TName "terminate")].
  cbn [app dict_get]. by rewrite decide_True.
Qed.

Lemma name_map_cases name t :
  (name, t) ∈ name_map ->
  (name ∈ stop_signal_names /\ t = TNone) \/ (name = "SIGTERM" /\ t = TName "terminate").
Proof.
  unfold name_map, stop_signal_names. rewrite !elem_of_cons, elem_of_nil.
  intros [[= -> ->]|[[= -> ->]|[[= -> ->]|[[= -> ->]|[]]]]];
    [left | left | left | right]; (split; [|done]); rewrite ?elem_of_cons; auto.
Qed.

Lemma make_default_signal_map_stop signal name n :
  name ∈ stop_signal_names -> signal name = Some n -> signal "SIGTERM" ≠ Some n ->
  dict_get n (make_default_signal_map signal) = Some TNone.
Proof.
  intros Hname Hsig Hterm.
  assert ((name, TNone) ∈ name_map) as Hin.
  { unfold stop_signal_names in Hname. unfold name_map.
    rewrite !elem_of_cons, elem_of_nil in Hname. rewrite !elem_of_cons.
    destruct Hname as [->|[->|[->|[]]]]; auto. }
  destruct (make_default_signal_map_present signal name TNone n Hin Hsig) as [t Ht].
  rewrite Ht. f_equal.
  apply dict_get_Some_elem, make_default_signal_map_elem in Ht as (name' & Hin' & Hsig').
  apply name_map_cases in Hin' as [[_ ->]|[-> _]]; [done | congruence].
Qed.

(** Resolving a map whose targets are [None] or the name of a method. *)
Lemma handler_pairs_default items s :
  (forall n t, (n, t) ∈ items -> t = TNone \/ t = TName "terminate") ->
  DaemonContext.handler_pairs items s =
    Normal ((fun kv => (kv.1, handler_of_target kv.2)) <$> items) s.
Proof.
  induction items as [|[n t] items IH]; intros H; [done|].
  cbn [DaemonContext.handler_pairs].
  assert (DaemonContext._make_signal_handler t s = Normal (handler_of_target t) s) as E.
  { destruct (H n t) as [-> | ->]; [left | done | done]. }
  bind_step E. rewrite (bind_eq_normal _ _ _ _ _ (IH (fun n' t' Hin => H n' t' (list_elem_of_further _ _ _ Hin)))).
  done.
Qed.

Lemma signal_signal_eq n h s :
  fault_now s = None -> (forall name, h ≠ AttrValue name) ->
  signal_signal n h s =
    Normal tt (set_handlers (<[n := h]> (s_handlers s)) (log (CSignal n h) s)).
Proof.
  intros Hf Hh.
  destruct h; try (by destruct (Hh name)); unfold signal_signal, call; by rewrite Hf.
Qed.

Lemma set_signal_handlers_quiet hm s :
  quiet s -> (forall nh name, nh ∈ hm -> nh.2 ≠ AttrValue name) ->
  exists s', set_signal_handlers hm s = Normal tt s' /\
    s_trace s' = s_trace s ++ ((fun nh => CSignal nh.1 nh.2) <$> hm) /\
    s_plat s' = s_plat s /\ s_self s' = s_self s /\
    forall n, s_handlers s' !! n =
              match dict_get n (reverse hm) with
              | Some h => Some h
              | None => s_handlers s !! n
              end.
Proof.
  revert s. unfold set_signal_handlers.
  induction hm as [|[n h] hm IH]; intros s Hq Hh.
  - exists s. simpl. by rewrite app_nil_r.
  - cbn [for_each].
    rewrite (bind_eq_normal _ _ _ _ _
               (signal_signal_eq n h s (quiet_fault_now s s Hq eq_refl)
                  (fun name => Hh (n, h) name (list_elem_of_here _ _)))).
    set (s1 := set_handlers _ _).
    destruct (IH s1 (quiet_plat s s1 Hq eq_refl)) as (s' & E & T & P & S & Hs).
    { intros nh name Hin. apply Hh. by right. }
    exists s'. split; [exact E|]. split; [|split; [done|split; [done|]]].
    + rewrite T. simpl. by rewrite <- app_assoc.
    + intros k. rewrite Hs, reverse_cons. clear.
      induction (reverse hm) as [|[k1 h1] r IHr]; simpl.
      * destruct (decide (k = n)) as [->|Hne]; [by rewrite lookup_insert_eq|].
        by rewrite lookup_insert_ne.
      * destruct (decide (k = k1)); [done | exact IHr].
Qed.

Lemma make_default_signal_map_targets signal n t :
  (n, t) ∈ make_default_signal_map signal -> t = TNone \/ t = TName "terminate".
Proof.
  intros (name & Hin & _)%make_default_signal_map_elem.
  apply name_map_cases in Hin as [[_ ->]|[_ ->]]; auto.
Qed.

(** C7: the default signal map has entries only for those of SIGTSTP,
    SIGTTIN, SIGTTOU and SIGTERM that the [signal] module of the platform
    defines, and one for each of them; SIGTERM maps to ['terminate'] and the
    stop signals to [None]; resolved for a context, these are the context's
    [terminate] method and [SIG_IGN]; resolving never raises and installing
    makes one [signal.signal] call per entry; [terminate] raises
    [SystemExit] with a message that names the signal number. *)
Theorem default_signal_map_filtered (s : State) :
  let signal := signal_module (s_plat s) in
  let m := make_default_signal_map signal in
  (forall n t, dict_get n m = Some t ->
     exists name, (name, t) ∈ name_map /\ signal name = Some n) /\
  (forall name t n, (name, t) ∈ name_map -> signal name = Some n ->
     is_Some (dict_get n m)) /\
  (forall n, signal "SIGTERM" = Some n -> dict_get n m = Some (TName "terminate")) /\
  (forall name n, name ∈ stop_signal_names -> signal name = Some n ->
     signal "SIGTERM" ≠ Some n -> dict_get n m = Some TNone) /\
  (signal_map (s_self s) = m ->
   exists hm, DaemonContext._make_signal_handler_map s = Normal hm s /\
     (forall n, dict_get n hm = handler_of_target <$> dict_get n m) /\
     (quiet s ->
      exists s', set_signal_handlers hm s = Normal tt s' /\
        s_trace s' = s_trace s ++ ((fun nh => CSignal nh.1 nh.2) <$> hm))) /\
  (forall n, DaemonContext.terminate n s =
     Raised (MkExc SystemExit (ArgsMsg ("Terminating on signal " +:+ py_str_int n))
               None None) s).
Proof.
  intros signal m. split; [|split; [|split; [|split; [|split]]]].
  - intros n t Ht. by apply make_default_signal_map_elem, dict_get_Some_elem.
  - intros name t n. apply make_default_signal_map_present.
  - apply make_default_signal_map_SIGTERM.
  - apply make_default_signal_map_stop.
  - intros Hm. unfold DaemonContext._make_signal_handler_map.
    bind_step (self_eq s). rewrite Hm.
    bind_step (handler_pairs_default m s (make_default_signal_map_targets signal)).
    eexists. split; [reflexivity|]. split.
    + intros n. rewrite dict_get_of_pairs, <- fmap_reverse, dict_get_fmap.
      f_equal. apply dict_get_reverse, dict_of_pairs_NoDup.
    + intros Hq.
      destruct (set_signal_handlers_quiet
                  (dict_of_pairs ((fun kv => (kv.1, handler_of_target kv.2)) <$> m)) s Hq)
        as (s' & E & T & _).
      * intros [n h] name Hin.
        apply (dict_get_NoDup n h _ (dict_of_pairs_NoDup _)) in Hin.
        rewrite dict_get_of_pairs in Hin. apply dict_get_Some_elem in Hin.
        rewrite elem_of_reverse in Hin.
        apply list_elem_of_fmap in Hin as ([n' t] & [= -> ->] & Hin).
        apply make_default_signal_map_targets in Hin as [-> | ->]; done.
      * by exists s'.
  - done.
Qed.

Lemma default_signal_map_filtered_witness :
  exists hm,
    DaemonContext._make_signal_handler_map
      (example_state (quiet_platform 32 linux_signals) example_context)
    = Normal hm (example_state (quiet_platform 32 linux_signals) example_context) /\
    dict_get 15%Z hm = Some (BoundMethod "terminate") /\
    dict_get 20%Z hm = Some SIG_IGN.
Proof.
  destruct (default_signal_map_filtered
              (example_state (quiet_platform 32 linux_signals) example_context))
    as (_ & _ & _ & _ & H & _).
  destruct (H eq_refl) as (hm & E & G & _).
  exists hm. split; [exact E|]. rewrite !G. split; reflexivity.
Defined.

(** ** What a run can raise *)

Section raises.
Context (P : Exc -> Prop).

Lemma raises_ret {A} (a : A) : raises P (ret a).
Proof. by intros s e s'. Qed.

Lemma raises_get : raises P get.
Proof. by intros s e s'. Qed.

Lemma raises_hang {A} : raises P (@hang A).
Proof. by intros s e s'. Qed.

Lemma raises_modify f : raises P (modify f).
Proof. by intros s e s'. Qed.

Lemma raises_os__exit {A} code : raises P (@os__exit A code).
Proof. by intros s e s'. Qed.

Lemma raises_raise {A} e : P e -> raises P (@raise A e).
Proof. intros He s e' s' [= <- _]. exact He. Qed.

Lemma raises_bind {A B} (m : M A) (k : A -> M B) :
  raises P m -> (forall a, raises P (k a)) -> raises P (bind m k).
Proof.
  intros Hm Hk s e s'. unfold bind. destruct (m s) as [a s1|e1 s1| |] eqn:E; try done.
  - apply Hk.
  - intros [= <- _]. by eapply Hm.
Qed.

Lemma raises_when b (m : M unit) : raises P m -> raises P (when b m).
Proof. destruct b; [done | intros _; apply raises_ret]. Qed.

Lemma raises_for_each {A} (l : list A) body :
  (forall x, raises P (body x)) -> raises P (for_each l body).
Proof.
  intros H. induction l as [|x l IH]; [apply raises_ret|].
  apply raises_bind; [apply H | by intros _].
Qed.

Lemma raises_call {A} c cls (sem : State -> (Fault + A) * State) :
  (forall f, P (os_error cls f)) -> raises P (call c cls sem).
Proof.
  intros H s e s'. unfold call. destruct (fault_now s); [by intros [= <- _]|].
  destruct (sem _) as [[f|a] s2]; [by intros [= <- _] | done].
Qed.

Lemma raises_call_total {A} c (sem : State -> A * State) : raises P (call_total c sem).
Proof. intros s e s'. unfold call_total. by destruct (sem _). Qed.

Lemma raises_try_except {A} (P0 : Exc -> Prop) (body : M A) cls handler :
  raises P0 body -> (forall e, P0 e -> P e) ->
  (forall e0, P0 e0 -> raises P (handler e0)) ->
  raises P (try_except body cls handler).
Proof.
  intros Hb Hw Hh s e s'. unfold try_except.
  destruct (body s) as [a s1|e1 s1| |] eqn:E; try done.
  destruct (isinstance e1 cls).
  - destruct (handler e1 _) as [| e2 s2 | |] eqn:E2; try done.
    intros [= <- _]. eapply (Hh e1); [by eapply Hb | exact E2].
  - intros [= <- _]. apply Hw. by eapply Hb.
Qed.

Lemma raises_if_open {A} (m : PyFile -> M A) :
  P closed_file_error -> (forall f, raises P (m f)) -> raises P (if_open m).
Proof.
  intros Hc Hm s e s'. unfold if_open. destruct (pf_closed _); [by intros [= <- _]|].
  apply Hm.
Qed.
End raises.

Lemma raises_weaken (P Q : Exc -> Prop) {A} (m : M A) :
  (forall e, P e -> Q e) -> raises P m -> raises Q m.
Proof. intros H Hm s e s' E. apply H. by eapply Hm. Qed.

Lemma foreign_chained e : foreign e -> chained e.
Proof. unfold foreign, chained. intros -> [=]. Qed.

(** The pattern of the module: a [try] around library calls, whose handler
    builds a [DaemonError] and raises it. *)
Lemma raises_chained_wrap {A} (body : M A) cls (handler : Exc -> M A) :
  raises foreign body ->
  (forall e0 s e s', s_exc_info s = Some e0 -> foreign e0 ->
     handler e0 s = Raised e s' -> chained e) ->
  raises chained (try_except body cls handler).
Proof.
  intros Hb Hh s e s'. unfold try_except.
  destruct (body s) as [a s1|e1 s1| |] eqn:E; try done.
  destruct (isinstance e1 cls).
  - destruct (handler e1 _) as [| e2 s2 | |] eqn:E2; try done.
    intros [= <- _].
    exact (Hh e1 (set_exc_info (Some e1) s1) e2 s2 eq_refl (Hb _ _ _ E) E2).
  - intros [= <- _]. apply foreign_chained. by eapply Hb.
Qed.

Lemma DaemonError_handler_chained {A} cls msg e0 s e s' :
  s_exc_info s = Some e0 -> foreign e0 ->
  (let* error := DaemonError__init__ cls msg in @raise A error) s = Raised e s' ->
  chained e.
Proof.
  intros Hinfo Hf [= <- _]. intros _. exists e0. by rewrite Hinfo.
Qed.

Lemma foreign_os_error cls f : issubclass cls DaemonError = false -> foreign (os_error cls f).
Proof. done. Qed.

Ltac foreign_call := apply raises_call; intros ?; by apply foreign_os_error.

Lemma os_chdir_foreign d : raises foreign (os_chdir d).
Proof. foreign_call. Qed.
Lemma os_chroot_foreign d : raises foreign (os_chroot d).
Proof. foreign_call. Qed.
Lemma os_umask_foreign m : raises foreign (os_umask m).
Proof. foreign_call. Qed.
Lemma os_setgid_foreign g : raises foreign (os_setgid g).
Proof. foreign_call. Qed.
Lemma os_setuid_foreign u : raises foreign (os_setuid u).
Proof. foreign_call. Qed.
Lemma os_setsid_foreign : raises foreign os_setsid.
Proof. foreign_call. Qed.
Lemma os_fork_foreign : raises foreign os_fork.
Proof. foreign_call. Qed.
Lemma os_close_foreign fd : raises foreign (os_close fd).
Proof. foreign_call. Qed.
Lemma os_remove_foreign p : raises foreign (os_remove p).
Proof. foreign_call. Qed.
Lemma os_dup2_foreign a b : raises foreign (os_dup2 a b).
Proof. foreign_call. Qed.
Lemma os_open_devnull_foreign : raises foreign os_open_devnull.
Proof. foreign_call. Qed.
Lemma builtin_open_foreign p : raises foreign (builtin_open p).
Proof. foreign_call. Qed.
Lemma fcntl_flock_foreign fd op : raises foreign (fcntl_flock fd op).
Proof. foreign_call. Qed.
Lemma resource_getrlimit_core_foreign : raises foreign resource_getrlimit_core.
Proof. foreign_call. Qed.
Lemma resource_setrlimit_core_foreign l : raises foreign (resource_setrlimit_core l).
Proof. foreign_call. Qed.
Lemma resource_getrlimit_nofile_foreign : raises foreign resource_getrlimit_nofile.
Proof. foreign_call. Qed.

Lemma signal_signal_foreign n h : raises foreign (signal_signal n h).
Proof. destruct h; try foreign_call. by apply raises_raise. Qed.

Lemma file_close_foreign : raises foreign file_close.
Proof.
  intros s e s'. unfold file_close. destruct (pf_closed _); [done|].
  destruct (fault_now s); [by intros [= <- _]|].
  destruct (write_out _) as [[f|[]] s2]; [by intros [= <- _]|].
  case_bool_decide; [done | by intros [= <- _]].
Qed.

Ltac foreign_file_op :=
  apply raises_if_open; [done | intros ?; first [apply raises_ret | foreign_call]].

Lemma file_fileno_foreign : raises foreign file_fileno.
Proof. foreign_file_op. Qed.
Lemma file_seek_foreign n : raises foreign (file_seek n).
Proof. foreign_file_op. Qed.
Lemma file_truncate_foreign : raises foreign file_truncate.
Proof. foreign_file_op. Qed.
Lemma file_write_foreign d : raises foreign (file_write d).
Proof. foreign_file_op. Qed.
Lemma file_flush_foreign : raises foreign file_flush.
Proof. foreign_file_op. Qed.

Lemma pidfile_path_foreign pidfile : raises foreign (pidfile_path pidfile).
Proof.
  destruct pidfile as [[]|]; [|by apply raises_raise].
  apply raises_bind; [apply raises_get | intros ?; apply raises_ret].
Qed.

Lemma poll_pidfile_foreign pidfile n : raises foreign (poll_pidfile pidfile n).
Proof.
  induction n as [|n IH]; cbn [poll_pidfile];
    (apply raises_bind; [apply pidfile_path_foreign | intros p]);
    (apply raises_bind; [apply raises_call_total | intros [|]; [apply raises_ret|]]).
  - apply raises_hang.
  - apply raises_bind; [apply raises_call_total | by intros _].
Qed.

Lemma wait_for_pidfile_foreign pidfile : raises foreign (wait_for_pidfile pidfile).
Proof. intros s e s'. unfold wait_for_pidfile. apply poll_pidfile_foreign. Qed.

(** ** Every [DaemonError] the module raises is chained *)

Ltac chained_wrap :=
  apply raises_chained_wrap;
  [ | intros e0 s e s' Hinfo Hforeign Hraise;
      exact (DaemonError_handler_chained _ _ e0 s e s' Hinfo Hforeign Hraise) ].

Lemma change_working_directory_chained d : raises chained (change_working_directory d).
Proof. unfold change_working_directory. chained_wrap. apply os_chdir_foreign. Qed.

Lemma change_root_directory_chained d : raises chained (change_root_directory d).
Proof.
  unfold change_root_directory. chained_wrap.
  apply raises_bind; [apply os_chdir_foreign | intros _; apply os_chroot_foreign].
Qed.

Lemma change_file_creation_mask_chained m : raises chained (change_file_creation_mask m).
Proof. unfold change_file_creation_mask. chained_wrap. apply os_umask_foreign. Qed.

Lemma change_process_owner_chained u g : raises chained (change_process_owner u g).
Proof.
  unfold change_process_owner. chained_wrap.
  apply raises_bind; [apply os_setgid_foreign | intros _; apply os_setuid_foreign].
Qed.

Lemma prevent_core_dump_chained : raises chained prevent_core_dump.
Proof.
  unfold prevent_core_dump. apply raises_bind.
  - chained_wrap. apply resource_getrlimit_core_foreign.
  - intros _. apply (raises_weaken foreign); [apply foreign_chained|].
    apply resource_setrlimit_core_foreign.
Qed.

Lemma fork_then_exit_parent_chained pidfile msg :
  raises chained (fork_then_exit_parent pidfile msg).
Proof.
  unfold fork_then_exit_parent. apply raises_chained_wrap.
  - apply raises_bind; [apply os_fork_foreign | intros pid].
    destruct (pid >? 0)%Z; [|apply raises_ret].
    apply raises_bind; [apply wait_for_pidfile_foreign | intros _; apply raises_os__exit].
  - intros e0 s e s' Hinfo Hforeign. unfold format_detach_error.
    destruct (exc_errno e0) as [n|].
    + bind_step (eq_refl : ret (msg +:+ ": [" +:+ py_str_int n +:+ "] " +:+
                                default "None" (exc_strerror e0)) s = Normal _ s).
      exact (DaemonError_handler_chained _ _ e0 s e s' Hinfo Hforeign).
    + intros [= <- _]. by apply foreign_chained.
Qed.

Lemma detach_process_context_chained pidfile : raises chained (detach_process_context pidfile).
Proof.
  unfold detach_process_context.
  apply raises_bind; [apply fork_then_exit_parent_chained | intros _].
  apply raises_bind; [|intros _; apply fork_then_exit_parent_chained].
  apply (raises_weaken foreign); [apply foreign_chained | apply os_setsid_foreign].
Qed.

Lemma close_file_descriptor_if_open_chained fd :
  raises chained (close_file_descriptor_if_open fd).
Proof.
  unfold close_file_descriptor_if_open. apply raises_chained_wrap.
  - apply os_close_foreign.
  - intros e0 s e s' Hinfo Hforeign. destruct (decide _); [done|].
    exact (DaemonError_handler_chained _ _ e0 s e s' Hinfo Hforeign).
Qed.

Lemma get_maximum_file_descriptors_foreign : raises foreign get_maximum_file_descriptors.
Proof.
  unfold get_maximum_file_descriptors.
  apply raises_bind; [apply resource_getrlimit_nofile_foreign | intros ?].
  apply raises_bind; [apply raises_get | intros ?; apply raises_ret].
Qed.

Lemma close_all_open_files_chained exclude : raises chained (close_all_open_files exclude).
Proof.
  unfold close_all_open_files. apply raises_bind.
  - apply (raises_weaken foreign); [apply foreign_chained|].
    apply get_maximum_file_descriptors_foreign.
  - intros maxfd. apply raises_for_each. intros fd.
    case_bool_decide; [apply close_file_descriptor_if_open_chained | apply raises_ret].
Qed.

Lemma _make_signal_handler_map_foreign : raises foreign DaemonContext._make_signal_handler_map.
Proof.
  unfold DaemonContext._make_signal_handler_map.
  apply raises_bind; [by intros ? ? ? | intros c].
  apply raises_bind; [|intros ?; apply raises_ret].
  induction (signal_map c) as [|[n t] l IH]; [apply raises_ret|].
  cbn [DaemonContext.handler_pairs]. apply raises_bind.
  - destruct t as [|name|h]; [apply raises_ret | | apply raises_ret].
    unfold DaemonContext._make_signal_handler, DaemonContext.getattr_self.
    repeat case_bool_decide; try apply raises_ret. by apply raises_raise.
  - intros h. apply raises_bind; [exact IH | intros ?; apply raises_ret].
Qed.

Lemma set_signal_handlers_foreign hm : raises foreign (set_signal_handlers hm).
Proof. apply raises_for_each. intros [n h]. apply signal_signal_foreign. Qed.

Lemma _get_exclude_file_descriptors_foreign :
  raises foreign DaemonContext._get_exclude_file_descriptors.
Proof.
  intros s e s' E.
  destruct (_get_exclude_file_descriptors_spec s) as (X & s1 & E1 & _). congruence.
Qed.

Lemma redirect_stream_foreign st target : raises foreign (redirect_stream st target).
Proof.
  unfold redirect_stream. apply raises_bind; [|intros ?; apply os_dup2_foreign].
  destruct target as [f|]; [|apply os_open_devnull_foreign].
  unfold stream_fileno. destruct (fl_fileno f);
    [by apply raises_raise | apply raises_ret | by apply raises_raise].
Qed.

Lemma sys_exit_foreign {A} arg : raises foreign (@sys_exit A arg).
Proof. apply raises_raise. by destruct arg. Qed.

Lemma PidFile__enter___foreign : raises foreign PidFile.__enter__.
Proof.
  unfold PidFile.__enter__.
  apply raises_bind; [apply raises_get | intros s0].
  apply raises_bind; [apply builtin_open_foreign | intros f].
  apply raises_bind; [apply raises_modify | intros _].
  apply raises_bind.
  { apply (raises_try_except foreign foreign); [|done|intros ? _; apply sys_exit_foreign].
    apply raises_bind; [apply file_fileno_foreign | intros ?; apply fcntl_flock_foreign]. }
  intros _. apply raises_bind; [apply file_seek_foreign | intros _].
  apply raises_bind; [apply file_truncate_foreign | intros _].
  apply raises_bind; [apply raises_call_total | intros pid].
  apply raises_bind; [apply file_write_foreign | intros _].
  apply raises_bind; [apply file_flush_foreign | intros _; apply file_seek_foreign].
Qed.

Lemma PidFile__exit___foreign : raises foreign PidFile.__exit__.
Proof.
  unfold PidFile.__exit__. apply raises_bind.
  - apply (raises_try_except foreign foreign); [apply file_close_foreign | done |].
    intros e0 He0. destruct (decide _); [by apply raises_raise | apply raises_ret].
  - intros _. apply raises_bind; [apply raises_get | intros ?; apply os_remove_foreign].
Qed.

Lemma run_steps_raises P steps :
  Forall (raises P) steps -> raises P (run_steps steps).
Proof.
  induction 1 as [|m steps Hm _ IH]; [apply raises_ret|].
  cbn [run_steps]. apply raises_bind; [exact Hm | by intros _].
Qed.

Lemma activation_steps_chained c : Forall (raises chained) (activation_steps c).
Proof.
  pose proof (fun A (m : M A) => raises_weaken foreign chained m foreign_chained) as W.
  unfold activation_steps. repeat (apply Forall_cons_2); [..|by constructor].
  - destruct (chroot_directory c); [apply change_root_directory_chained | apply raises_ret].
  - apply raises_when, prevent_core_dump_chained.
  - apply change_file_creation_mask_chained.
  - apply change_working_directory_chained.
  - apply change_process_owner_chained.
  - apply raises_when, detach_process_context_chained.
  - apply W. apply raises_bind; [apply _make_signal_handler_map_foreign|].
    intros ?. apply set_signal_handlers_foreign.
  - apply raises_bind; [apply W, _get_exclude_file_descriptors_foreign|].
    intros ?. apply close_all_open_files_chained.
  - apply W. repeat (apply raises_bind; [apply redirect_stream_foreign | intros _]).
    apply redirect_stream_foreign.
  - apply W. destruct (pidfile c) as [[]|]; [apply PidFile__enter___foreign | apply raises_ret].
  - apply raises_modify.
  - apply raises_call_total.
Qed.

Lemma open_chained : raises chained DaemonContext.open.
Proof.
  intros s e s' E. destruct (_is_open (s_self s)) eqn:Hopen.
  - by rewrite (open_already_open s Hopen) in E.
  - rewrite (open_steps s Hopen) in E.
    exact (run_steps_raises chained _ (activation_steps_chained _) s e s' E).
Qed.

Lemma close_foreign : raises foreign DaemonContext.close.
Proof.
  unfold DaemonContext.close. apply raises_bind; [by intros ? ? ? | intros opened].
  destruct (negb opened); [apply raises_ret|].
  apply raises_bind; [by intros ? ? ? | intros c].
  apply raises_bind; [|intros _; apply raises_modify].
  destruct (pidfile c) as [[]|]; [apply PidFile__exit___foreign | apply raises_ret].
Qed.

(** C8: a [DaemonError] takes as its cause the exception that is being
    handled when it is built, and every [DaemonError] (environment error or
    detach error) that [open], [close] or one of the module's functions
    raises has a cause: the error of the library call that failed, which is
    not itself a [DaemonError]. *)
Theorem daemon_errors_carry_cause :
  (forall cls msg s,
     DaemonError__init__ cls msg s =
       Normal (MkExc cls (ArgsMsg msg) (s_exc_info s) None) s) /\
  (forall s e s', DaemonContext.open s = Raised e s' -> chained e) /\
  (forall s e s', DaemonContext.close s = Raised e s' -> chained e) /\
  (forall d s e s', change_working_directory d s = Raised e s' -> chained e) /\
  (forall d s e s', change_root_directory d s = Raised e s' -> chained e) /\
  (forall m s e s', change_file_creation_mask m s = Raised e s' -> chained e) /\
  (forall u g s e s', change_process_owner u g s = Raised e s' -> chained e) /\
  (forall s e s', prevent_core_dump s = Raised e s' -> chained e) /\
  (forall pidfile s e s', detach_process_context pidfile s = Raised e s' -> chained e) /\
  (forall fd s e s', close_file_descriptor_if_open fd s = Raised e s' -> chained e) /\
  (forall exclude s e s', close_all_open_files exclude s = Raised e s' -> chained e).
Proof.
  split; [done|]. split; [apply open_chained|].
  split; [apply (raises_weaken foreign chained _ foreign_chained close_foreign)|].
  split; [apply change_working_directory_chained|].
  split; [apply change_root_directory_chained|].
  split; [apply change_file_creation_mask_chained|].
  split; [apply change_process_owner_chained|].
  split; [apply prevent_core_dump_chained|].
  split; [apply detach_process_context_chained|].
  split; [apply close_file_descriptor_if_open_chained|].
  apply close_all_open_files_chained.
Qed.

Lemma daemon_errors_carry_cause_witness :
  exists e s' e0,
    DaemonContext.open (example_state refusing_platform example_context) = Raised e s' /\
    exc_class e = DaemonOSEnvironmentError /\
    exc_cause e = Some e0 /\ exc_class e0 = OSError.
Proof.
  destruct daemon_errors_carry_cause as (_ & H & _).
  set (e := MkExc DaemonOSEnvironmentError
              (ArgsMsg "Unable to change file creation mask ([Errno 1] Operation not permitted)")
              (Some (os_error OSError
                       {| f_errno := 1; f_strerror := "Operation not permitted" |})) None).
  assert (DaemonContext.open (example_state refusing_platform example_context) =
          Raised e (final_state
                      (DaemonContext.open (example_state refusing_platform example_context))))
    as E by (vm_compute; reflexivity).
  destruct (H _ _ _ E eq_refl) as (e0 & Hc & _).
  exists e. eexists. exists e0. split; [exact E|]. split; [reflexivity|]. split; [exact Hc|].
  by injection Hc as <-.
Defined.

(** ** What each step does *)

#[global] Instance does_preorder p : PreOrder (does p).
Proof.
  split.
  - intros s. split; [|done]. exists []. by rewrite app_nil_r.
  - intros s1 s2 s3 [(t1 & E1 & F1) H1] [(t2 & E2 & F2) H2]. split; [|congruence].
    exists (t1 ++ t2). split; [by rewrite E2, E1, app_assoc | by apply Forall_app].
Qed.

Lemma does_exc_info p x s : does p s (set_exc_info x s).
Proof. split; [|done]. exists []. by rewrite app_nil_r. Qed.

Lemma does_log (p : Call -> Prop) c s : p c -> does p s (log c s).
Proof. intros Hc. split; [|done]. exists [c]. split; [done | by constructor]. Qed.

Lemma does_silent p s s' :
  s_trace s' = s_trace s -> _is_open (s_self s') = _is_open (s_self s) -> does p s s'.
Proof. intros E H. split; [|done]. exists []. by rewrite app_nil_r. Qed.

Lemma does_weaken (p q : Call -> Prop) s s' :
  (forall c, p c -> q c) -> does p s s' -> does q s s'.
Proof.
  intros H [(t & E & F) Hs]. split; [|done]. exists t. split; [done|].
  eapply Forall_impl; eauto.
Qed.

(** The calls of the library leave the trace to [call] and the context
    alone. *)
Ltac silent_sem :=
  intros ?; repeat case_match; simplify_eq/=; by apply does_silent.

Ltac does_call :=
  first [ apply respects_call | apply respects_call_total ];
  [ apply _ | intros ?; by apply does_log | silent_sem ].

Lemma os_fork_does p : p CFork -> respects (does p) os_fork.
Proof. intros Hp. unfold os_fork. does_call. Qed.

Lemma os_setsid_does p : p CSetsid -> respects (does p) os_setsid.
Proof. intros Hp. unfold os_setsid. does_call. Qed.

Lemma os_path_exists_does p x : p (CPathExists x) -> respects (does p) (os_path_exists x).
Proof. intros Hp. unfold os_path_exists. does_call. Qed.

Lemma time_sleep_does p ms : p (CSleep ms) -> respects (does p) (time_sleep ms).
Proof. intros Hp. unfold time_sleep. does_call. Qed.

Lemma os__exit_does p code : p (CExit code) -> respects (does p) (@os__exit unit code).
Proof. intros Hp s. simpl. by apply does_log. Qed.

Lemma signal_signal_does p n h : p (CSignal n h) -> respects (does p) (signal_signal n h).
Proof.
  intros Hp. destruct h; unfold signal_signal; try does_call.
  apply respects_raise; apply _.
Qed.

Lemma os_open_devnull_does p : p COpenDevnull -> respects (does p) os_open_devnull.
Proof. intros Hp. unfold os_open_devnull. does_call. Qed.

Lemma os_dup2_does p a b : p (CDup2 a b) -> respects (does p) (os_dup2 a b).
Proof. intros Hp. unfold os_dup2. does_call. Qed.

Lemma os_close_does p fd : p (CClose fd) -> respects (does p) (os_close fd).
Proof. intros Hp. unfold os_close. does_call. Qed.

Lemma builtin_open_does p x : p (COpen x) -> respects (does p) (builtin_open x).
Proof. intros Hp. unfold builtin_open. does_call. Qed.

Lemma fcntl_flock_does p fd op : p (CFlock fd op) -> respects (does p) (fcntl_flock fd op).
Proof. intros Hp. unfold fcntl_flock. does_call. Qed.

Lemma os_getpid_does p : p CGetpid -> respects (does p) os_getpid.
Proof. intros Hp. unfold os_getpid. does_call. Qed.

Lemma os_remove_does p x : p (CRemove x) -> respects (does p) (os_remove x).
Proof. intros Hp. unfold os_remove. does_call. Qed.

Lemma resource_getrlimit_nofile_does p :
  p CGetrlimitNofile -> respects (does p) resource_getrlimit_nofile.
Proof. intros Hp. unfold resource_getrlimit_nofile. does_call. Qed.

Lemma write_out_silent s :
  s_trace (write_out s).2 = s_trace s /\
  _is_open (s_self (write_out s).2) = _is_open (s_self s).
Proof.
  unfold write_out. destruct (decide _); [done|]. by destruct (s_fds s !! _).
Qed.

Lemma respects_if_open R `{!PreOrder R} {A} (m : PyFile -> M A) :
  (forall f, respects R (m f)) -> respects R (if_open m).
Proof.
  intros H s. unfold if_open. destruct (pf_closed _); [simpl; reflexivity | apply H].
Qed.

Ltac does_file_op :=
  apply respects_if_open; [apply _|]; intros ?;
  first [ apply respects_ret; apply _
        | apply respects_call; [apply _ | intros ?; by apply does_log |] ].

Lemma file_fileno_does p : respects (does p) file_fileno.
Proof. unfold file_fileno. does_file_op. Qed.

Lemma file_seek_does p n : (forall fd, p (CFileSeek fd n)) -> respects (does p) (file_seek n).
Proof.
  intros Hp. unfold file_seek. does_file_op.
  intros s. destruct (write_out_silent s) as [T F].
  destruct (write_out s) as [[e|[]] s2]; simpl in *; [by apply does_silent|].
  case_bool_decide; simpl; by apply does_silent.
Qed.

Lemma file_truncate_does p : (forall fd, p (CFileTruncate fd)) -> respects (does p) file_truncate.
Proof.
  intros Hp. unfold file_truncate. does_file_op.
  intros s. destruct (write_out_silent s) as [T F].
  destruct (write_out s) as [[e|[]] s2]; simpl in *; [by apply does_silent|].
  destruct (s_fds s2 !! _); simpl; by apply does_silent.
Qed.

Lemma file_write_does p d : (forall fd, p (CFileWrite fd d)) -> respects (does p) (file_write d).
Proof. intros Hp. unfold file_write. does_file_op. intros s. by apply does_silent. Qed.

Lemma file_flush_does p : (forall fd, p (CFileFlush fd)) -> respects (does p) file_flush.
Proof.
  intros Hp. unfold file_flush. does_file_op.
  intros s. destruct (write_out_silent s) as [T F]. by apply does_silent.
Qed.

Lemma does_step_spec p (m : M unit) : respects (does p) m -> step_spec (Forall p) m.
Proof. intros H s. exact (H s). Qed.

Lemma pidfile_path_does p pidfile : respects (does p) (pidfile_path pidfile).
Proof.
  destruct pidfile as [[]|]; [|apply respects_raise; apply _].
  apply respects_bind; [apply _ | apply respects_get; apply _ |].
  intros ?. apply respects_ret; apply _.
Qed.

Lemma poll_pidfile_does pidfile n : respects (does detach_call) (poll_pidfile pidfile n).
Proof.
  induction n as [|n IH]; cbn [poll_pidfile];
    (apply respects_bind; [apply _ | apply pidfile_path_does | intros x]);
    (apply respects_bind; [apply _ | by apply os_path_exists_does | intros [|]];
     [apply respects_ret; apply _|]).
  - apply respects_hang; apply _.
  - apply respects_bind; [apply _ | by apply time_sleep_does | by intros _].
Qed.

Lemma fork_then_exit_parent_does pidfile msg :
  respects (does detach_call) (fork_then_exit_parent pidfile msg).
Proof.
  unfold fork_then_exit_parent.
  apply respects_try_except; [apply _ | apply does_exc_info | |].
  - apply respects_bind; [apply _ | by apply os_fork_does | intros pid].
    destruct (pid >? 0)%Z; [|apply respects_ret; apply _].
    apply respects_bind; [apply _ | | intros _; by apply os__exit_does].
    intros s. apply poll_pidfile_does.
  - intros e. unfold format_detach_error.
    destruct (exc_errno e);
      [|apply respects_bind; [apply _ | apply respects_raise; apply _ | intros ?]];
      (apply respects_bind; [apply _ | first [apply respects_ret; apply _ | apply DaemonError__init___respects; apply _] | intros ?]);
      try (apply respects_bind; [apply _ | apply DaemonError__init___respects; apply _ | intros ?]);
      apply respects_raise; apply _.
Qed.

Lemma detach_process_context_does pidfile :
  respects (does detach_call) (detach_process_context pidfile).
Proof.
  unfold detach_process_context.
  apply respects_bind; [apply _ | apply fork_then_exit_parent_does | intros _].
  apply respects_bind; [apply _ | by apply os_setsid_does | intros _].
  apply fork_then_exit_parent_does.
Qed.

Lemma handler_pairs_does p items : respects (does p) (DaemonContext.handler_pairs items).
Proof.
  induction items as [|[n t] items IH]; [apply respects_ret; apply _|].
  cbn [DaemonContext.handler_pairs].
  apply respects_bind; [apply _ | | intros h].
  - destruct t as [|name|h]; try (apply respects_ret; apply _).
    unfold DaemonContext._make_signal_handler, DaemonContext.getattr_self.
    repeat case_bool_decide; first [apply respects_ret; apply _ | apply respects_raise; apply _].
  - apply respects_bind; [apply _ | exact IH | intros ?; apply respects_ret; apply _].
Qed.

Lemma install_signal_handlers_does :
  respects (does signal_call)
    (let* signal_handler_map := DaemonContext._make_signal_handler_map in
     set_signal_handlers signal_handler_map).
Proof.
  apply respects_bind; [apply _ | | intros hm].
  - unfold DaemonContext._make_signal_handler_map.
    apply respects_bind; [apply _ | by intros s | intros c].
    apply respects_bind; [apply _ | apply handler_pairs_does | intros ?].
    apply respects_ret; apply _.
  - apply respects_for_each; [apply _|]. intros [n h] _. by apply signal_signal_does.
Qed.

Lemma close_sweep_does :
  respects (does sweep_kind)
    (let* exclude_fds := DaemonContext._get_exclude_file_descriptors in
     close_all_open_files exclude_fds).
Proof.
  apply respects_bind; [apply _ | | intros X].
  - intros s. destruct (_get_exclude_file_descriptors_spec s) as (X & s1 & -> & T & _ & _ & F & _).
    by apply does_silent.
  - unfold close_all_open_files, get_maximum_file_descriptors.
    apply respects_bind; [apply _ | | intros maxfd].
    + apply respects_bind; [apply _ | by apply resource_getrlimit_nofile_does | intros ?].
      apply respects_bind; [apply _ | apply respects_get; apply _ | intros ?].
      apply respects_ret; apply _.
    + apply respects_for_each; [apply _|]. intros fd _.
      case_bool_decide; [|apply respects_ret; apply _].
      unfold close_file_descriptor_if_open.
      apply respects_try_except; [apply _ | apply does_exc_info | by apply os_close_does |].
      intros e. destruct (decide _); [apply respects_ret; apply _|].
      apply respects_bind; [apply _ | apply DaemonError__init___respects; apply _ | intros ?].
      apply respects_raise; apply _.
Qed.

Lemma redirect_stream_does st target : respects (does redirect_call) (redirect_stream st target).
Proof.
  unfold redirect_stream.
  apply respects_bind; [apply _ | | intros ?; by apply os_dup2_does].
  destruct target as [f|]; [|by apply os_open_devnull_does].
  unfold stream_fileno.
  destruct (fl_fileno f); first [apply respects_ret; apply _ | apply respects_raise; apply _].
Qed.

Lemma PidFile__enter___does : respects (does pidfile_enter_call) PidFile.__enter__.
Proof.
  unfold PidFile.__enter__.
  apply respects_bind; [apply _ | apply respects_get; apply _ | intros s0].
  apply respects_bind; [apply _ | by apply builtin_open_does | intros f].
  apply respects_bind; [apply _ | apply respects_modify; intros s; by apply does_silent | intros _].
  apply respects_bind; [apply _ | | intros _].
  { apply respects_try_except; [apply _ | apply does_exc_info | |].
    - apply respects_bind; [apply _ | apply file_fileno_does | intros fd].
      by apply fcntl_flock_does.
    - intros e. apply respects_raise; apply _. }
  apply respects_bind; [apply _ | by apply file_seek_does | intros _].
  apply respects_bind; [apply _ | by apply file_truncate_does | intros _].
  apply respects_bind; [apply _ | by apply os_getpid_does | intros pid].
  apply respects_bind; [apply _ | by apply file_write_does | intros _].
  apply respects_bind; [apply _ | by apply file_flush_does | intros _].
  by apply file_seek_does.
Qed.

(** Steps 1 to 5, 11 and 12: the calls, exactly. *)
Lemma change_root_directory_step d :
  step_spec (fun t => t = [CChdir d] \/ t = [CChdir d; CChroot d]) (change_root_directory d).
Proof.
  intros s. unfold change_root_directory, try_except, bind, os_chdir, os_chroot, call.
  destruct (fault_now s); simpl; [split; [|done]; eexists; split; [done | by left]|].
  destruct (fault_now (log (CChdir d) s)); simpl;
    (split; [|done]); eexists; (split; [by rewrite <- app_assoc | by right]).
Qed.

Lemma prevent_core_dump_step :
  step_spec (fun t => t = [CGetrlimitCore] \/ t = [CGetrlimitCore; CSetrlimitCore 0 0])
    prevent_core_dump.
Proof.
  intros s. unfold prevent_core_dump, try_except, bind, resource_getrlimit_core,
    resource_setrlimit_core, call.
  destruct (fault_now s); simpl; [split; [|done]; eexists; split; [done | by left]|].
  destruct (fault_now (log CGetrlimitCore s)); simpl;
    (split; [|done]); eexists; (split; [by rewrite <- app_assoc | by right]).
Qed.

Lemma change_file_creation_mask_step mask :
  step_spec (fun t => t = [CUmask mask]) (change_file_creation_mask mask).
Proof.
  intros s. unfold change_file_creation_mask, try_except, os_umask, call.
  destruct (fault_now s); simpl; (split; [|done]); by eexists.
Qed.

Lemma change_working_directory_step d :
  step_spec (fun t => t = [CChdir d]) (change_working_directory d).
Proof.
  intros s. unfold change_working_directory, try_except, os_chdir, call.
  destruct (fault_now s); simpl; (split; [|done]); by eexists.
Qed.

Lemma change_process_owner_step u g :
  step_spec (fun t => t = [CSetgid g] \/ t = [CSetgid g; CSetuid u]) (change_process_owner u g).
Proof.
  intros s. unfold change_process_owner, try_except, bind, os_setgid, os_setuid, call.
  destruct (fault_now s); simpl; [split; [|done]; eexists; split; [done | by left]|].
  destruct (fault_now (log (CSetgid g) s)); simpl;
    (split; [|done]); eexists; (split; [by rewrite <- app_assoc | by right]).
Qed.

Lemma step_spec_nothing : step_spec (fun t => t = []) (ret tt).
Proof. intros s. simpl. split; [|done]. exists []. by rewrite app_nil_r. Qed.

Lemma register_atexit_function_step :
  step_spec (fun t => t = [CAtexitRegister]) (register_atexit_function CbClose).
Proof. intros s. simpl. split; [|done]. by eexists. Qed.


Lemma step_spec_keeps_flag Q m : step_spec Q m -> keeps_flag m.
Proof. intros H s. apply H. Qed.

Lemma redirect_streams_does c :
  respects (does redirect_call)
    (redirect_stream sys_stdin (stdin c) ;;
     redirect_stream sys_stdout (stdout c) ;;
     redirect_stream sys_stderr (stderr c)).
Proof.
  repeat (apply respects_bind; [apply _ | apply redirect_stream_does | intros _]).
  apply redirect_stream_does.
Qed.

(** The first ten steps, one by one. *)
Lemma first_ten_steps c :
  Forall2 step_spec (take 10 (step_calls c)) (take 10 (activation_steps c)).
Proof.
  cbn [take step_calls activation_steps]. repeat (apply List.Forall2_cons); [..|apply List.Forall2_nil].
  - destruct (chroot_directory c); [apply change_root_directory_step | apply step_spec_nothing].
  - destruct (prevent_core c); [apply prevent_core_dump_step | apply step_spec_nothing].
  - apply change_file_creation_mask_step.
  - apply change_working_directory_step.
  - apply change_process_owner_step.
  - destruct (detach_process c); [|apply step_spec_nothing].
    apply does_step_spec, detach_process_context_does.
  - apply does_step_spec, install_signal_handlers_does.
  - apply does_step_spec, close_sweep_does.
  - apply does_step_spec, redirect_streams_does.
  - destruct (pidfile c) as [[]|]; [|apply step_spec_nothing].
    apply does_step_spec, PidFile__enter___does.
Qed.


Lemma first_ten_keep_flag c : Forall keeps_flag (take 10 (activation_steps c)).
Proof.
  pose proof (first_ten_steps c) as H.
  induction H as [|Q m Qs ms Hm _ IH]; constructor; [|exact IH].
  by eapply step_spec_keeps_flag.
Qed.

Lemma run_steps_app l1 l2 s :
  run_steps (l1 ++ l2) s = bind (run_steps l1) (fun _ => run_steps l2) s.
Proof.
  revert s. induction l1 as [|m l1 IH]; intros s; [done|].
  cbn [run_steps app]. rewrite bind_assoc. apply bind_ext_run. intros [] s1. apply IH.
Qed.

Lemma run_steps_keeps_flag steps : Forall keeps_flag steps -> keeps_flag (run_steps steps).
Proof.
  induction 1 as [|m steps Hm _ IH]; intros s; [done|].
  cbn [run_steps]. unfold bind. specialize (Hm s).
  destruct (m s) as [[] s1| | |]; simpl in *; try done. by rewrite IH.
Qed.


(** ** The open flag *)

Lemma open_flag s :
  _is_open (s_self (final_state (DaemonContext.open s))) =
    _is_open (s_self s) || is_normal (DaemonContext.open s).
Proof.
  destruct (_is_open (s_self s)) eqn:Hopen.
  - rewrite (open_already_open s Hopen). simpl. by rewrite Hopen.
  - rewrite (open_steps s Hopen).
    rewrite <- (take_drop 10 (activation_steps (s_self s))), run_steps_app.
    pose proof (run_steps_keeps_flag _ (first_ten_keep_flag (s_self s)) s) as Hflag.
    unfold bind.
    destruct (run_steps (take 10 (activation_steps (s_self s))) s) as [[] s10| | |];
      simpl in Hflag; simpl; [done | congruence..].
Qed.

Lemma close_already_closed s :
  _is_open (s_self s) = false -> DaemonContext.close s = Normal tt s.
Proof.
  intros H. unfold DaemonContext.close. bind_step (is_open_eq s). by rewrite H.
Qed.

Lemma file_close_does p : (forall fd, p (CFileClose fd)) -> respects (does p) file_close.
Proof.
  intros Hp s. unfold file_close. destruct (pf_closed _); [simpl; reflexivity|].
  set (s1 := log _ s). assert (does p s s1) as H1 by (by apply does_log).
  destruct (fault_now s); simpl.
  { etrans; [exact H1|]. by apply does_silent. }
  destruct (write_out_silent s1) as [T F].
  destruct (write_out s1) as [[e|[]] s2]; simpl in *.
  { etrans; [exact H1|]. by apply does_silent. }
  case_bool_decide; simpl; (etrans; [exact H1|]); by apply does_silent.
Qed.

Lemma PidFile__exit___does : respects (does pidfile_exit_call) PidFile.__exit__.
Proof.
  unfold PidFile.__exit__.
  apply respects_bind; [apply _ | | intros _].
  - apply respects_try_except; [apply _ | apply does_exc_info | by apply file_close_does |].
    intros e. destruct (decide _); [apply respects_raise | apply respects_ret]; apply _.
  - apply respects_bind; [apply _ | apply respects_get; apply _ | intros ?].
    by apply os_remove_does.
Qed.

Lemma close_flag s :
  _is_open (s_self (final_state (DaemonContext.close s))) =
    _is_open (s_self s) && negb (is_normal (DaemonContext.close s)).
Proof.
  destruct (_is_open (s_self s)) eqn:Hopen.
  - unfold DaemonContext.close. bind_step (is_open_eq s). rewrite Hopen. cbn [negb].
    bind_step (self_eq s).
    set (leave := match pidfile (s_self s) with
                  | Some ThePidFile => PidFile.__exit__
                  | None => ret tt
                  end).
    assert (keeps_flag leave) as Hk.
    { subst leave. destruct (pidfile (s_self s)) as [[]|]; [|done].
      intros s0. apply (PidFile__exit___does s0). }
    specialize (Hk s). unfold bind.
    destruct (leave s) as [[] s1| | |]; simpl in *; [done | congruence..].
  - rewrite (close_already_closed s Hopen). simpl. by rewrite Hopen.
Qed.

Lemma open_open s :
  (DaemonContext.open ;; DaemonContext.open) s = DaemonContext.open s.
Proof.
  unfold bind. pose proof (open_flag s) as H.
  destruct (DaemonContext.open s) as [[] s1| | |]; try done.
  simpl in H. rewrite orb_true_r in H. by apply open_already_open.
Qed.

Lemma close_close s :
  (DaemonContext.close ;; DaemonContext.close) s = DaemonContext.close s.
Proof.
  unfold bind. pose proof (close_flag s) as H.
  destruct (DaemonContext.close s) as [[] s1| | |]; try done.
  simpl in H. rewrite andb_false_r in H. by apply close_already_closed.
Qed.



(** C2: [open] on an open context and [close] on a closed one return at
    once and do nothing; [open] twice is [open] once and [close] twice (or
    [close], then the exit hook) is [close] once; the flag goes from closed
    to open only when [open] returns and from open to closed only when
    [close] returns, and the other methods leave it alone; closing a context
    that holds its pid file closes the file and removes the path once. *)
Theorem open_close_idempotent (s : State) :
  (_is_open (s_self s) = true -> DaemonContext.open s = Normal tt s) /\
  (_is_open (s_self s) = false -> DaemonContext.close s = Normal tt s) /\
  (DaemonContext.open ;; DaemonContext.open) s = DaemonContext.open s /\
  (DaemonContext.close ;; DaemonContext.close) s = DaemonContext.close s /\
  (DaemonContext.close ;; DaemonContext.run_callback CbClose) s = DaemonContext.close s /\
  _is_open (s_self (final_state (DaemonContext.open s))) =
    _is_open (s_self s) || is_normal (DaemonContext.open s) /\
  _is_open (s_self (final_state (DaemonContext.close s))) =
    _is_open (s_self s) && negb (is_normal (DaemonContext.close s)) /\
  (forall n, _is_open (s_self (final_state (DaemonContext.terminate n s)))
             = _is_open (s_self s)) /\
  _is_open (s_self (final_state (DaemonContext._get_exclude_file_descriptors s)))
    = _is_open (s_self s) /\
  _is_open (s_self (final_state (DaemonContext._make_signal_handler_map s)))
    = _is_open (s_self s) /\
  _is_open (s_self (final_state (PidFile.__enter__ s))) = _is_open (s_self s) /\
  _is_open (s_self (final_state (PidFile.__exit__ s))) = _is_open (s_self s) /\
  (forall p c buf pos,
     _is_open (s_self s) = true -> pidfile (s_self s) = Some ThePidFile ->
     pidfile_open_at p c buf pos s -> path (s_the_pidfile s) = p -> quiet s ->
     exists s', (DaemonContext.close ;; DaemonContext.close) s = Normal tt s' /\
       s_trace s' = s_trace s ++ [CFileClose (pf_fd (the_handle s)); CRemove p] /\
       s_files s' !! p = None /\ _is_open (s_self s') = false).
Proof.
  split; [apply open_already_open|]. split; [apply close_already_closed|].
  split; [apply open_open|]. split; [apply close_close|]. split; [apply close_close|].
  split; [apply open_flag|]. split; [apply close_flag|]. split; [done|].
  split.
  { by destruct (_get_exclude_file_descriptors_spec s) as (X & s1 & -> & _ & _ & _ & F & _). }
  split.
  { unfold DaemonContext._make_signal_handler_map.
    assert (respects (does (fun _ => True))
              (let* c := DaemonContext.self in
               let* pairs := DaemonContext.handler_pairs (signal_map c) in
               ret (dict_of_pairs pairs))) as H; [|apply (H s)].
    apply respects_bind; [apply _ | by intros ? | intros c].
    apply respects_bind; [apply _ | apply handler_pairs_does | intros ?].
    apply respects_ret; apply _. }
  split; [apply (PidFile__enter___does s)|]. split; [apply (PidFile__exit___does s)|].
  intros p c buf pos Hopen Hpid O Hp Hq.
  destruct (PidFile__exit___held p c buf pos s O Hp Hq) as (s1 & E & Hf & _ & _ & _ & T & Hs).
  rewrite close_close. unfold DaemonContext.close.
  bind_step (is_open_eq s). rewrite Hopen. cbn [negb]. bind_step (self_eq s).
  rewrite Hpid. bind_step E.
  eexists. split; [reflexivity|]. simpl. done.
Qed.

Lemma open_close_idempotent_witness :
  DaemonContext.close (example_state (quiet_platform 32 linux_signals) example_context) =
  Normal tt (example_state (quiet_platform 32 linux_signals) example_context).
Proof.
  destruct (open_close_idempotent
              (example_state (quiet_platform 32 linux_signals) example_context))
    as (_ & H & _).
  exact (H eq_refl).
Defined.

(** * Further properties of the module *)

(** ** Failures of the detach protocol *)

Lemma fork_then_exit_parent_refused pidfile msg s f :
  fault_now s = Some f ->
  fork_then_exit_parent pidfile msg s =
    Raised (detach_error msg f) (set_exc_info (Some (os_error OSError f)) (log CFork s)).
Proof.
  intros Hf. unfold fork_then_exit_parent, try_except, bind at 1, os_fork, call.
  by rewrite Hf.
Qed.

Lemma fork_then_exit_parent_fails pidfile msg s f rest :
  fault_now s = None -> s_forks s = ForkFails f :: rest ->
  fork_then_exit_parent pidfile msg s =
    Raised (detach_error msg f)
      (set_exc_info (Some (os_error OSError f)) (set_forks rest (log CFork s))).
Proof.
  intros Hf Hforks. unfold fork_then_exit_parent, try_except, bind at 1.
  rewrite (os_fork_eq s Hf), Hforks. done.
Qed.

(** When [os.fork] fails, [detach_process_context] raises a
    [DaemonProcessDetachError] that says which fork failed and with which
    errno and message, and whose cause is the [OSError]; after a failure of
    the first fork neither [os.setsid] nor the second fork is attempted.  A
    failure of [os.setsid] itself is not wrapped: the [OSError] goes to the
    caller as it is. *)
Theorem detach_process_context_fork_failure (pidfile : option PidFileRef) (s : State)
    (f : Fault) (rest : list ForkResult) :
  fault_now s = None ->
  (s_forks s = ForkFails f :: rest ->
   exists s', detach_process_context pidfile s = Raised (detach_error "Failed first fork" f) s' /\
     s_trace s' = s_trace s ++ [CFork]) /\
  (forall new_pid, s_forks s = ForkChild new_pid :: ForkFails f :: rest ->
   fault_now (log CFork s) = None -> fault_now (log CSetsid (log CFork s)) = None ->
   exists s', detach_process_context pidfile s = Raised (detach_error "Failed second fork" f) s' /\
     s_trace s' = s_trace s ++ [CFork; CSetsid; CFork]) /\
  (forall new_pid e, s_forks s = ForkChild new_pid :: rest ->
   fault_now (log CFork s) = Some e ->
   exists s', detach_process_context pidfile s = Raised (os_error OSError e) s' /\
     foreign (os_error OSError e) /\
     s_trace s' = s_trace s ++ [CFork; CSetsid]).
Proof.
  intros Hf. unfold detach_process_context. split; [|split].
  - intros Hforks. unfold bind at 1.
    rewrite (fork_then_exit_parent_fails pidfile _ s f rest Hf Hforks).
    by eexists.
  - intros new_pid Hforks Hf1 Hf2.
    bind_step (fork_then_exit_parent_child pidfile "Failed first fork" s new_pid _ Hf Hforks).
    set (s1 := set_pid _ _).
    bind_step (os_setsid_eq s1 Hf1).
    rewrite (fork_then_exit_parent_fails pidfile _ (log CSetsid s1) f rest Hf2 eq_refl).
    eexists. split; [reflexivity|]. simpl. by rewrite <- !app_assoc.
  - intros new_pid e Hforks Hf1.
    bind_step (fork_then_exit_parent_child pidfile "Failed first fork" s new_pid _ Hf Hforks).
    set (s1 := set_pid _ _). unfold bind at 1, os_setsid, call.
    change (fault_now s1) with (fault_now (log CFork s)). rewrite Hf1.
    eexists. split; [reflexivity|]. split; [done|]. simpl. by rewrite <- !app_assoc.
Qed.

Lemma detach_process_context_fork_failure_witness :
  exists s', detach_process_context (Some ThePidFile) fork_failing_state =
               Raised (detach_error "Failed first fork" fault_EAGAIN) s' /\
    s_trace s' = [CFork].
Proof.
  destruct (detach_process_context_fork_failure (Some ThePidFile) fork_failing_state
              fault_EAGAIN [] eq_refl) as [H _].
  exact (H eq_refl).
Defined.

(** ** Failures of the steps that change the process environment *)



(** ** The preserve list is extended in place *)

Lemma streams_with_fileno_set_files_preserve x c :
  DaemonContext.streams_with_fileno (DaemonContext.set_files_preserve x c) =
  DaemonContext.streams_with_fileno c.
Proof. done. Qed.

Lemma item_elems_app_twice (l ss : list PItem) :
  ⋃ (item_elems <$> (l ++ ss) ++ ss) = ⋃ (item_elems <$> l ++ ss).
Proof.
  rewrite !fmap_app, !union_list_app_L. set_solver.
Qed.

Lemma _get_exclude_file_descriptors_eq s :
  let c := s_self s in
  let streams := DaemonContext.streams_with_fileno c in
  DaemonContext._get_exclude_file_descriptors s =
    Normal (⋃ (item_elems <$> default [] (files_preserve c) ++ streams))
      match files_preserve c with
      | Some l => set_self (DaemonContext.set_files_preserve (Some (l ++ streams)) c) s
      | None => s
      end.
Proof.
  intros c streams.
  unfold DaemonContext._get_exclude_file_descriptors, bind, DaemonContext.self, modify, ret.
  fold c. destruct (files_preserve c) as [l|]; rewrite exclude_loop_eq;
    by rewrite (left_id_L ∅ (∪)).
Qed.

(** [_get_exclude_file_descriptors] makes no library call and gives the
    same set each time it is called, but a list in [files_preserve] grows
    by the replacement streams at every call: after two calls it holds them
    twice.  A [files_preserve] of [None] stays [None]. *)
Theorem exclude_descriptors_extend_preserve_list (s : State) :
  let c := s_self s in
  let streams := DaemonContext.streams_with_fileno c in
  exists X s1 s2,
    DaemonContext._get_exclude_file_descriptors s = Normal X s1 /\
    DaemonContext._get_exclude_file_descriptors s1 = Normal X s2 /\
    files_preserve (s_self s1) = (fun l => l ++ streams) <$> files_preserve c /\
    files_preserve (s_self s2) = (fun l => (l ++ streams) ++ streams) <$> files_preserve c /\
    s_trace s2 = s_trace s /\
    X = ⋃ (item_elems <$> default [] (files_preserve c) ++ streams).
Proof.
  intros c streams.
  pose proof (_get_exclude_file_descriptors_eq s) as E1. cbv zeta in E1.
  fold c in E1. fold streams in E1.
  destruct (files_preserve c) as [l|] eqn:Hl.
  - set (s1 := set_self _ s) in E1.
    pose proof (_get_exclude_file_descriptors_eq s1) as E2. cbv zeta in E2.
    subst s1. cbn [s_self set_self files_preserve DaemonContext.set_files_preserve default] in E2.
    rewrite streams_with_fileno_set_files_preserve in E2. fold c in E2. fold streams in E2.
    change (id (l ++ streams)) with (l ++ streams) in E2.
    rewrite item_elems_app_twice in E2.
    eexists _, _, _. split; [exact E1|]. split; [exact E2|]. done.
  - eexists _, _, _. split; [exact E1|]. split; [exact E1|]. fold c. by rewrite Hl.
Qed.

(** ** Signal maps of the caller's *)

Lemma _make_signal_handler_callable t s :
  callable_target t = true ->
  DaemonContext._make_signal_handler t s = Normal (handler_of_target t) s /\
  forall name, handler_of_target t ≠ AttrValue name.
Proof.
  destruct t as [|name|h]; simpl; intros H.
  - done.
  - unfold DaemonContext.getattr_self. by rewrite H.
  - by destruct h.
Qed.

Lemma handler_pairs_callable items s :
  forallb (fun nt => callable_target nt.2) items = true ->
  DaemonContext.handler_pairs items s =
    Normal ((fun kv => (kv.1, handler_of_target kv.2)) <$> items) s.
Proof.
  induction items as [|[n t] items IH]; [done|].
  cbn [forallb]. intros [Ht Hr]%andb_prop.
  cbn [DaemonContext.handler_pairs].
  bind_step (proj1 (_make_signal_handler_callable t s Ht)).
  by rewrite (bind_eq_normal _ _ _ _ _ (IH Hr)).
Qed.



(** After the handlers of a signal map are installed, each signal of the
    map is handled as the map says ([None] ignores the signal, a method
    name stands for the method, a handler stands for itself) and every
    other signal is handled as before.  The map is a dictionary (its keys
    are distinct) whose targets are all of those three kinds. *)
Theorem signal_handlers_installed (s : State) :
  let c := s_self s in
  quiet s ->
  NoDup (signal_map c).*1 ->
  forallb (fun nt => callable_target nt.2) (signal_map c) = true ->
  exists hm s',
    DaemonContext._make_signal_handler_map s = Normal hm s /\
    set_signal_handlers hm s = Normal tt s' /\
    s_trace s' = s_trace s ++
      ((fun nt => CSignal nt.1 (handler_of_target nt.2)) <$> signal_map c) /\
    forall n, s_handlers s' !! n =
              match dict_get n (signal_map c) with
              | Some t => Some (handler_of_target t)
              | None => s_handlers s !! n
              end.
Proof.
  intros c Hq Hnd Hc.
  set (pairs := (fun kv : Z * Target => (kv.1, handler_of_target kv.2)) <$> signal_map c).
  assert (pairs.*1 = (signal_map c).*1) as Hk.
  { unfold pairs. rewrite <- list_fmap_compose. by apply list_fmap_ext. }
  assert (dict_of_pairs pairs = pairs) as Hd.
  { assert (NoDup pairs.*1) as Hp by (by rewrite Hk). clear -Hp.
    unfold dict_of_pairs. rewrite <- (app_nil_l pairs) at 2.
    assert (NoDup (([] : list (Z * Handler)) ++ pairs).*1) as Hp' by done. clear Hp.
    revert Hp'. generalize ([] : list (Z * Handler)).
    induction pairs as [|[k v] pairs IH]; intros acc Hacc; simpl.
    - by rewrite app_nil_r.
    - assert (dict_set k v acc = acc ++ [(k, v)]) as ->.
      { rewrite fmap_app in Hacc. apply NoDup_app in Hacc as (_ & Hacc & _).
        assert (k ∉ acc.*1) as Hk by (intros Hin; apply (Hacc k Hin); simpl; left).
        clear -Hk. induction acc as [|[k' v'] acc IH]; simpl; [done|].
        rewrite decide_False by (intros ->; apply Hk; simpl; left).
        f_equal. apply IH. intros Hin. apply Hk. simpl. by right. }
      rewrite IH; [by rewrite <- app_assoc|]. by rewrite <- app_assoc. }
  exists pairs.
  assert (DaemonContext._make_signal_handler_map s = Normal pairs s) as E.
  { unfold DaemonContext._make_signal_handler_map, bind, DaemonContext.self. fold c.
    rewrite (handler_pairs_callable _ s Hc). fold pairs. unfold ret. by rewrite Hd. }
  destruct (set_signal_handlers_quiet pairs s Hq) as (s' & E' & T & _ & _ & Hh).
  { intros [n h] name [[n' t] [[= -> ->] Hin]]%list_elem_of_fmap. simpl.
    apply _make_signal_handler_callable; [exact s|].
    rewrite forallb_forall in Hc. apply (Hc (n', t)). by apply list_elem_of_In. }
  exists s'. split; [exact E|]. split; [exact E'|]. split.
  - rewrite T. f_equal. unfold pairs. rewrite <- list_fmap_compose. by apply list_fmap_ext.
  - intros n. rewrite Hh, dict_get_reverse by (by rewrite Hk). unfold pairs.
    rewrite dict_get_fmap. by destruct (dict_get n (signal_map c)).
Qed.

Lemma signal_handlers_installed_witness :
  exists hm s',
    DaemonContext._make_signal_handler_map
      (example_state (quiet_platform 32 linux_signals) example_context) = Normal hm
      (example_state (quiet_platform 32 linux_signals) example_context) /\
    set_signal_handlers hm
      (example_state (quiet_platform 32 linux_signals) example_context) = Normal tt s' /\
    s_handlers s' !! 15%Z = Some (BoundMethod "terminate") /\
    s_handlers s' !! 20%Z = Some SIG_IGN /\
    s_handlers s' !! 2%Z = None.
Proof.
  destruct (signal_handlers_installed
              (example_state (quiet_platform 32 linux_signals) example_context))
    as (hm & s' & E & E' & _ & H).
  - by intros n.
  - apply (bool_decide_unpack _). by vm_compute.
  - reflexivity.
  - exists hm, s'. split; [exact E|]. split; [exact E'|].
    split; [exact (H 15%Z)|]. split; [exact (H 20%Z)|exact (H 2%Z)].
Defined.



(** ** Descriptors *)

Lemma lowest_free_fresh (fds : gmap Z string) : fds !! lowest_free fds = None.
Proof.
  unfold lowest_free.
  destruct (List.find _ _) as [n|] eqn:F; simpl.
  - apply find_some in F as [_ F]. by apply bool_decide_eq_true in F.
  - destruct (fds !! Z.of_nat (size fds)) as [p|] eqn:E; [|done]. exfalso.
    set (S := list_to_set (Z.of_nat <$> seq 0 (size fds)) : gset Z).
    assert (S ⊆ dom fds) as Hsub.
    { intros z [n [-> Hn]]%elem_of_list_to_set%list_elem_of_fmap.
      apply list_elem_of_In in Hn.
      pose proof (find_none _ _ F n Hn) as Hf. simpl in Hf.
      apply bool_decide_eq_false in Hf. apply elem_of_dom.
      by destruct (fds !! Z.of_nat n). }
    assert (size S = size fds) as Hsize.
    { unfold S. rewrite size_list_to_set, length_fmap, length_seq; [done|].
      apply NoDup_fmap; [apply _|apply NoDup_seq]. }
    assert (S ≡ dom fds) as Heq.
    { apply set_subseteq_size_equiv; [done|]. rewrite size_dom. lia. }
    assert (Z.of_nat (size fds) ∈ S) as Hin by (apply Heq, elem_of_dom; by eexists).
    apply elem_of_list_to_set, list_elem_of_fmap in Hin as [n [Hn Hin]].
    apply elem_of_seq in Hin. lia.
Qed.

Lemma os_dup2_eq src dst s :
  fault_now s = None ->
  os_dup2 src dst s =
    match s_fds s !! src with
    | Some p => Normal tt (set_fds (<[dst := p]> (s_fds s)) (log (CDup2 src dst) s))
    | None => Raised (os_error OSError fault_EBADF) (log (CDup2 src dst) s)
    end.
Proof.
  intros Hf. unfold os_dup2, call. rewrite Hf. simpl. by destruct (s_fds s !! src).
Qed.

Lemma redirect_stream_quiet st target s :
  quiet s ->
  match redirect_stream st target s with
  | Normal _ s' =>
      (exists p, target_path s target = Some p /\ s_fds s' !! sys_fileno st = Some p) /\
      (forall fd, fd ≠ sys_fileno st -> is_Some (s_fds s !! fd) ->
         s_fds s' !! fd = s_fds s !! fd) /\
      s_plat s' = s_plat s
  | Raised e s' => target_path s target = None /\ foreign e /\ s_fds s' = s_fds s
  | _ => False
  end.
Proof.
  intros Hq. unfold redirect_stream.
  destruct target as [f|]; simpl.
  - unfold stream_fileno, bind. destruct (fl_fileno f) as [|fd|]; simpl; [done| |done].
    rewrite os_dup2_eq by (by apply (quiet_fault_now s)).
    destruct (s_fds s !! fd) as [p|] eqn:E; [|done].
    split; [exists p; split; [done|]; simpl; by rewrite lookup_insert_eq|].
    split; [|done]. intros fd' Hne _. simpl. by rewrite lookup_insert_ne.
  - unfold bind, os_open_devnull, call.
    rewrite (quiet_fault_now s s Hq eq_refl). simpl.
    set (s1 := set_fds _ _).
    rewrite os_dup2_eq by (by apply (quiet_fault_now s)).
    subst s1. simpl. rewrite lookup_insert_eq.
    split; [exists devnull; split; [done|]; simpl; by rewrite lookup_insert_eq|].
    split; [|done]. intros fd Hne [p Hp]. simpl.
    rewrite lookup_insert_ne by done. rewrite lookup_insert_ne; [done|].
    intros <-. by rewrite lowest_free_fresh in Hp.
Qed.

(** When the platform refuses nothing, [redirect_stream] returns exactly
    when the target is [None] or a stream on an open descriptor; the
    descriptor of the system stream is then on the file of the target (the
    null device for [None]) and every other descriptor that was open is on
    the file it was on.  With a target that has no usable, open descriptor
    it raises an error that is not one of the module's, and leaves the
    descriptors as they were. *)
Theorem redirect_stream_outcome (st : SysStream) (target : option FileLike) (s : State) :
  quiet s ->
  match redirect_stream st target s with
  | Normal _ s' =>
      (exists p, target_path s target = Some p /\ s_fds s' !! sys_fileno st = Some p) /\
      (forall fd, fd ≠ sys_fileno st -> is_Some (s_fds s !! fd) ->
         s_fds s' !! fd = s_fds s !! fd)
  | Raised e s' => target_path s target = None /\ foreign e /\ s_fds s' = s_fds s
  | _ => False
  end.
Proof.
  intros Hq. pose proof (redirect_stream_quiet st target s Hq) as H.
  destruct (redirect_stream st target s); [|done..]. by destruct H as (? & ? & _).
Qed.

Lemma redirect_stream_outcome_witness :
  exists s', redirect_stream sys_stdout None
               (example_state (quiet_platform 32 linux_signals) example_context) =
               Normal tt s' /\
    s_fds s' !! 1%Z = Some devnull /\ s_fds s' !! 3%Z = Some "/var/a".
Proof.
  set (s := example_state (quiet_platform 32 linux_signals) example_context).
  assert (redirect_stream sys_stdout None s =
          Normal tt (final_state (redirect_stream sys_stdout None s))) as E
    by (vm_compute; reflexivity).
  pose proof (redirect_stream_outcome sys_stdout None s (fun n => eq_refl)) as H.
  rewrite E in H. destruct H as [(p & [= <-] & Hp) Hfr].
  eexists. split; [exact E|]. split; [exact Hp|].
  rewrite Hfr; [reflexivity|done|by eexists].
Defined.

Lemma redirectable_step st t s s' :
  (forall fd, fd ≠ sys_fileno st -> is_Some (s_fds s !! fd) ->
     s_fds s' !! fd = s_fds s !! fd) ->
  redirectable s t ->
  redirectable s' t /\ target_path s' t = target_path s t.
Proof.
  intros Hfr Ht. destruct t as [f|]; [|done].
  destruct Ht as (fd & Hf & Hfd & Hopen). simpl. rewrite Hf.
  assert (s_fds s' !! fd = s_fds s !! fd) as E.
  { apply Hfr; [|done]. destruct st; simpl; lia. }
  split; [|done]. exists fd. by rewrite E.
Qed.

Lemma redirectable_target_path s t : redirectable s t -> is_Some (target_path s t).
Proof.
  destruct t as [f|]; [|by eexists]. intros (fd & Hf & _ & Hopen). simpl. by rewrite Hf.
Qed.

(** When the three replacement streams are [None] or streams on open
    descriptors other than 0, 1 and 2, the three redirections of [open]
    succeed one after the other, and descriptors 0, 1 and 2 end on the
    files of the replacements of [stdin], [stdout] and [stderr]: a later
    redirection does not undo an earlier one. *)
Theorem redirect_streams_bind (c : DaemonContextObj) (s : State) :
  quiet s ->
  redirectable s (stdin c) -> redirectable s (stdout c) -> redirectable s (stderr c) ->
  exists s',
    (redirect_stream sys_stdin (stdin c) ;;
     redirect_stream sys_stdout (stdout c) ;;
     redirect_stream sys_stderr (stderr c)) s = Normal tt s' /\
    s_fds s' !! 0%Z = target_path s (stdin c) /\
    s_fds s' !! 1%Z = target_path s (stdout c) /\
    s_fds s' !! 2%Z = target_path s (stderr c).
Proof.
  intros Hq H0 H1 H2.
  pose proof (redirect_stream_quiet sys_stdin (stdin c) s Hq) as R0.
  destruct (redirect_stream sys_stdin (stdin c) s) as [[] s0|e s0| |] eqn:E0; [|..].
  2:{ destruct R0 as [R0 _]. apply redirectable_target_path in H0 as [? H0]. congruence. }
  2,3: done.
  destruct R0 as ((p0 & T0 & B0) & F0 & P0).
  destruct (redirectable_step sys_stdin _ s s0 F0 H1) as [H1' T1].
  destruct (redirectable_step sys_stdin _ s s0 F0 H2) as [H2' T2].
  assert (quiet s0) as Hq0 by (by apply (quiet_plat s)).
  pose proof (redirect_stream_quiet sys_stdout (stdout c) s0 Hq0) as R1.
  destruct (redirect_stream sys_stdout (stdout c) s0) as [[] s1|e s1| |] eqn:E1; [|..].
  2:{ destruct R1 as [R1 _]. apply redirectable_target_path in H1' as [? H1']. congruence. }
  2,3: done.
  destruct R1 as ((p1 & T1' & B1) & F1 & P1).
  destruct (redirectable_step sys_stdout _ s0 s1 F1 H2') as [H2'' T2'].
  assert (quiet s1) as Hq1 by (by apply (quiet_plat s0)).
  pose proof (redirect_stream_quiet sys_stderr (stderr c) s1 Hq1) as R2.
  destruct (redirect_stream sys_stderr (stderr c) s1) as [[] s2|e s2| |] eqn:E2; [|..].
  2:{ destruct R2 as [R2 _]. apply redirectable_target_path in H2'' as [? H2'']. congruence. }
  2,3: done.
  destruct R2 as ((p2 & T2'' & B2) & F2 & P2).
  exists s2. split.
  { unfold bind. by rewrite E0, E1, E2. }
  simpl in B0, B1, B2.
  assert (s_fds s1 !! 0%Z = Some p0) as B0'.
  { rewrite F1; [done|done|by eexists; rewrite B0]. }
  split; [|split].
  - rewrite F2; [congruence|done|by eexists; rewrite B0'].
  - rewrite F2; [congruence|done|by eexists; rewrite B1].
  - congruence.
Qed.

Lemma redirect_streams_bind_witness :
  exists s',
    (redirect_stream sys_stdin (Some (stream 1 10)) ;;
     redirect_stream sys_stdout None ;;
     redirect_stream sys_stderr (Some (stream 3 12)))
      (example_state (quiet_platform 32 linux_signals) example_context) = Normal tt s' /\
    s_fds s' !! 0%Z = Some "/var/in" /\
    s_fds s' !! 1%Z = Some devnull /\
    s_fds s' !! 2%Z = Some "/var/err".
Proof.
  apply (redirect_streams_bind
           {| chroot_directory := None; working_directory := "/"; umask := 0%Z;
              uid := 0%Z; gid := 0%Z; prevent_core := true; detach_process := false;
              files_preserve := None; pidfile := None;
              stdin := Some (stream 1 10); stdout := None; stderr := Some (stream 3 12);
              signal_map := []; _is_open := false |}
           (example_state (quiet_platform 32 linux_signals) example_context)).
  - by intros n.
  - exists 10%Z. split; [reflexivity|]. split; [lia|by eexists].
  - exact I.
  - exists 12%Z. split; [reflexivity|]. split; [lia|by eexists].
Defined.
